(** * Step templates, invocations and configuration finalization

    A shallow embedding of [zenml/steps/base_step.py] and
    [zenml/steps/utils.py]: the signature analysis of a step entrypoint,
    the configuration of a step template, the registration of step
    invocations in the active pipeline, the finalization of an invocation
    and the upload of external artifacts.

    Python objects that are mutated in place and shared (step templates,
    external artifacts) live in a heap and are referred to by address;
    exceptions are values of the type [Exn]; insertion-ordered
    dictionaries are association lists with unique keys. *)

From stdpp Require Import functions base option list strings gmap sets pretty.

Set Warnings "-register-all".
Local Open Scope string_scope.
Local Open Scope list_scope.

(** ** Results *)

Inductive result (E A : Type) :=
| Ok (a : A)
| Raise (e : E).
Arguments Ok {E A} a.
Arguments Raise {E A} e.

(** ** Insertion-ordered dictionaries *)

Module Dict.
Definition t (V : Type) := list (string * V).

Fixpoint get {V} (k : string) (d : t V) : option V :=
  match d with
  | [] => None
  | (k', v) :: d' => if String.eqb k k' then Some v else get k d'
  end.

Definition contains {V} (k : string) (d : t V) : bool :=
  match get k d with Some _ => true | None => false end.

(** [d[k] = v]: an existing key keeps its position. *)
Fixpoint set {V} (k : string) (v : V) (d : t V) : t V :=
  match d with
  | [] => [(k, v)]
  | (k', v') :: d' =>
      if String.eqb k k' then (k, v) :: d' else (k', v') :: set k v d'
  end.

(** [d.update(u)], also [{**d, **u}]. *)
Definition update {V} (d u : t V) : t V :=
  fold_left (fun acc kv => set (fst kv) (snd kv) acc) u d.

Definition keys {V} (d : t V) : list string := map fst d.
Definition values {V} (d : t V) : list V := map snd d.

(** Truthiness of a dictionary. *)
Definition nonempty {V} (d : t V) : bool :=
  match d with [] => false | _ => true end.
End Dict.

(** ** Values, classes and type annotations *)

(** Python values passed as parameters. *)
Inductive value :=
| VNone
| VBool (b : bool)
| VInt (z : Z)
| VStr (s : string)
| VList (l : list value)
| VDict (d : list (string * value))
| VObject (oid : nat).   (* any object without a JSON representation *)

(** A pydantic model field, as found in [__fields__]. *)
Record ModelField := {
  field_name : string;
  field_required : bool;
  field_default : value }.

(** What the code asks of a class: its name, whether it derives from
    [BaseParameters], [StepContext], [BaseModel], and for a pydantic model
    its fields and whether [Config.extra == Extra.allow]. *)
Record PyClass := {
  cls_name : string;
  cls_is_parameters : bool;
  cls_is_context : bool;
  cls_is_model : bool;
  cls_fields : list ModelField;
  cls_extra_allow : bool }.

Inductive annotation :=
| TAny                                   (* typing.Any *)
| TNone                                  (* the object None *)
| TNoneType                              (* type(None) *)
| TUnmaterializedArtifact                (* the class UnmaterializedArtifact *)
| TClass (c : PyClass)
| TAlias (origin : PyClass) (args : list annotation)   (* List[int], ... *)
| TUnion (members : list annotation).    (* Union[...]; [TUnion []] is typing.Union itself *)

(** ** Exceptions *)

(** One constructor per [raise] site of [StepInterfaceError]. *)
Inductive interface_error :=
| VariableArgsNotAllowed
| MissingTypeAnnotation (key : string)
| MultipleParameterArguments (first second : string)
| MultipleContextArguments (first second : string)
| MissingReturnAnnotation
| TooManyArguments (arg_count maximum_arg_count : nat)
| UnknownKeywordArgument (key : string)
| WrongParametersObject
| WrongCallArguments
| CannotSetParameterWithoutParamClass
| UnexpectedMaterializers (output_name : string)
| NotAMaterializer (source : string) (output_name : string)
| MissingEntrypointInput (key : string)
| ExplicitMaterializerRequired
| UnableToFindMaterializer (output_name : option string) (output_type : annotation)
| FailedToValidateFunctionParameters
| NotJsonSerializable (key : string).

Inductive runtime_error :=
| ReservedArgumentName (arg : string)
| AfterWithMultipleInvocations
| ArtifactStoreMismatch
| ArtifactUriExists
| UnmaterializedParameter
| InputValidationFailed
| DuplicateInvocation (id : string).

Inductive Exn :=
| StepInterfaceError (e : interface_error)
| RuntimeError (e : runtime_error)
| KeyError (key : string)
| ValueError (msg : string)
| TypeError
| ValidationError
| AssertionError
| MissingStepParameterError (step_name : string) (missing_keys : list string).

Definition Result := result Exn.

(** [typing.get_origin]. *)
Definition get_origin (a : annotation) : option annotation :=
  match a with
  | TAlias o _ => Some (TClass o)
  | TUnion (_ :: _) => Some (TUnion [])
  | _ => None
  end.

(** [get_origin(a) or a]: every origin is truthy. *)
Definition origin_or_self (a : annotation) : annotation :=
  match get_origin a with Some o => o | None => a end.

(** [pydantic.typing.is_union]: identity with [typing.Union]. *)
Definition is_union (a : annotation) : bool :=
  match a with TUnion [] => true | _ => false end.

(** [pydantic.typing.is_none_type]. *)
Definition is_none_type (a : annotation) : bool :=
  match a with TNone | TNoneType => true | _ => false end.

(** [pydantic.typing.get_args]. *)
Definition typing_get_args (a : annotation) : list annotation :=
  match a with
  | TAlias _ args => args
  | TUnion members => members
  | _ => []
  end.

(** [inspect.isclass]. *)
Definition isclass (a : annotation) : bool :=
  match a with
  | TNoneType | TUnmaterializedArtifact | TClass _ => true
  | _ => false
  end.

(** [inspect.isclass(a) and issubclass(a, BaseParameters)] and its siblings. *)
Definition is_parameters_class (a : annotation) : bool :=
  match a with TClass c => cls_is_parameters c | _ => false end.
Definition is_context_class (a : annotation) : bool :=
  match a with TClass c => cls_is_context c | _ => false end.
(** [BaseParameters] derives from [BaseModel]. *)
Definition is_model_class (a : annotation) : bool :=
  match a with
  | TClass c => cls_is_model c || cls_is_parameters c
  | _ => false
  end.

(** ** zenml/steps/utils.py *)

Definition resolve_type_annotation (obj : annotation) : annotation :=
  let origin := origin_or_self obj in
  if is_union origin then obj else origin.

Definition get_args (obj : annotation) : list annotation :=
  map origin_or_self (typing_get_args obj).

(** A return annotation is a type or an [Output(...)] of named types. *)
Inductive return_annotation :=
| ReturnType (a : annotation)
| ReturnOutput (items : Dict.t annotation).

(** ** Artifacts passed to a step call *)

Record StepArtifact := {
  invocation_id : string;
  output_name : string;
  annotation_ : annotation }.

(** An argument of a step call: a step artifact, an external artifact (by
    address, the object is mutated by its upload) or a plain value. *)
Inductive call_arg :=
| ArgStepArtifact (a : StepArtifact)
| ArgExternalArtifact (ref : nat)
| ArgValue (v : value).

(** ** The environment

    What the module imports from the rest of the package and from
    pydantic: constants, the materializer registry, source loading and
    hashing, validation of values, settings and hooks, and the running of
    an entrypoint. The properties hold for every environment. *)

Definition Source := string.
Definition UUID := nat.

Record MaterializerClass := {
  mat_import_path : Source;          (* source_utils.resolve(cls) *)
  mat_source_code : string;          (* inspect.getsource(cls) *)
  mat_artifact_type : string }.      (* ASSOCIATED_ARTIFACT_TYPE *)

Class Environment := {
  SINGLE_RETURN_OUT_NAME : string;
  STEP_SOURCE_PARAMETER_NAME : string;
  (** [materializer_registry]: [is_registered] and [__getitem__]. *)
  materializer_types : annotation -> option MaterializerClass;
  (** [source_utils.load] and [source_utils.validate_source_class] with
      [expected_class=BaseMaterializer]. *)
  load : Source -> MaterializerClass;
  validate_source_class : Source -> bool;
  (** [source_code_utils.get_hashed_source_code] on a source text, and
      [hashlib.md5(...).hexdigest()]. *)
  hash_source_code : string -> string;
  md5_hexdigest : string -> string;
  (** pydantic: validating a value against an annotation, instantiating a
      model class from keyword arguments ([None] when validation fails). *)
  pydantic_validates : annotation -> value -> bool;
  instantiate_model : PyClass -> Dict.t value -> option (Dict.t value);
  (** [settings_utils.validate_setting_keys], key by key. *)
  valid_setting_key : string -> bool;
  (** [resolve_and_validate_hook]. *)
  resolve_and_validate_hook : string -> option Source;
  (** [type(value)]. *)
  type_of : value -> annotation;
  (** What [BaseStep.call_entrypoint] does with the entrypoint whose
      source is given: pydantic's [ValidatedFunction] validates the
      arguments and the body of the entrypoint is run with them; the
      outcome is the value returned or the exception raised. *)
  call_entrypoint : string -> list call_arg -> Dict.t call_arg -> Result value }.

Definition parse_return_type_annotations `{!Environment}
    (r : return_annotation) : Dict.t annotation :=
  match r with
  | ReturnType TNone => []
  | ReturnType a => [(SINGLE_RETURN_OUT_NAME, resolve_type_annotation a)]
  | ReturnOutput items =>
      map (fun kv => (fst kv, resolve_type_annotation (snd kv))) items
  end.

(** ** Signatures ([inspect.Signature]) *)

Inductive parameter_kind :=
| POSITIONAL_ONLY | POSITIONAL_OR_KEYWORD | VAR_POSITIONAL
| KEYWORD_ONLY | VAR_KEYWORD.

(** [param_annotation = None] is [Parameter.empty]; so is [param_default]. *)
Record Param := {
  param_name : string;
  param_kind : parameter_kind;
  param_annotation : option annotation;
  param_default : option value }.

Record Signature := {
  sig_parameters : list Param;
  sig_return_annotation : option return_annotation }.

Record EntrypointFunctionDefinition := {
  inputs : Dict.t Param;
  outputs : Dict.t annotation;
  context : option Param;
  params : option Param }.

Definition is_variadic (p : Param) : bool :=
  match param_kind p with
  | VAR_POSITIONAL | VAR_KEYWORD => true
  | _ => false
  end.

Fixpoint validate_reserved_arguments (signature : Signature)
    (reserved_arguments : list string) : Result unit :=
  match reserved_arguments with
  | [] => Ok tt
  | arg :: rest =>
      if existsb (fun p => String.eqb arg (param_name p)) (sig_parameters signature)
      then Raise (RuntimeError (ReservedArgumentName arg))
      else validate_reserved_arguments signature rest
  end.

(** The loop of [validate_entrypoint_function] over the parameters,
    threading [inputs], [context] and [params]. *)
Fixpoint validate_parameters (ps : list Param)
    (inputs : Dict.t Param) (context params : option Param)
  : Result (Dict.t Param * option Param * option Param) :=
  match ps with
  | [] => Ok (inputs, context, params)
  | parameter :: rest =>
      let key := param_name parameter in
      if is_variadic parameter
      then Raise (StepInterfaceError VariableArgsNotAllowed)
      else
        match param_annotation parameter with
        | None => Raise (StepInterfaceError (MissingTypeAnnotation key))
        | Some annotation =>
            if isclass annotation && is_parameters_class annotation then
              match params with
              | Some p =>
                  Raise (StepInterfaceError
                           (MultipleParameterArguments (param_name p) key))
              | None => validate_parameters rest inputs context (Some parameter)
              end
            else if isclass annotation && is_context_class annotation then
              match context with
              | Some c =>
                  Raise (StepInterfaceError
                           (MultipleContextArguments (param_name c) key))
              | None => validate_parameters rest inputs (Some parameter) params
              end
            else validate_parameters rest (Dict.set key parameter inputs)
                   context params
        end
  end.

Definition validate_entrypoint_function `{!Environment} (func : Signature)
    (reserved_arguments : list string) : Result EntrypointFunctionDefinition :=
  match validate_reserved_arguments func reserved_arguments with
  | Raise e => Raise e
  | Ok _ =>
      match validate_parameters (sig_parameters func) [] None None with
      | Raise e => Raise e
      | Ok (inputs, context, params) =>
          match sig_return_annotation func with
          | None => Raise (StepInterfaceError MissingReturnAnnotation)
          | Some r =>
              Ok {| inputs := inputs;
                    outputs := parse_return_type_annotations r;
                    context := context;
                    params := params |}
          end
      end
  end.

(** ** Monads: results, and state with exceptions

    A Python method that mutates [self] and may raise is a function from
    the state to a result and the state reached: mutations made before a
    [raise] persist. *)

Definition rbind {E A B} (c : result E A) (k : A -> result E B) : result E B :=
  match c with
  | Ok a => k a
  | Raise e => Raise e
  end.

Definition SE (S A : Type) : Type := S -> Result A * S.

Definition sret {S A} (a : A) : SE S A := fun s => (Ok a, s).
Definition sraise {S A} (e : Exn) : SE S A := fun s => (Raise e, s).
Definition sbind {S A B} (c : SE S A) (k : A -> SE S B) : SE S B :=
  fun s =>
    match c s with
    | (Ok a, s') => k a s'
    | (Raise e, s') => (Raise e, s')
    end.
Definition sget {S} : SE S S := fun s => (Ok s, s).
Definition sput {S} (s : S) : SE S unit := fun _ => (Ok tt, s).
Definition slift {S A} (r : Result A) : SE S A := fun s => (r, s).

Declare Scope result_scope.
Declare Scope se_scope.
Delimit Scope result_scope with R.
Delimit Scope se_scope with S.
Notation "x <~ c ;; k" := (rbind c (fun x => k))
  (at level 100, c at next level, right associativity) : result_scope.
Notation "c ;;; k" := (rbind c (fun _ => k))
  (at level 100, right associativity) : result_scope.
Notation "x <~ c ;; k" := (sbind c (fun x => k))
  (at level 100, c at next level, right associativity) : se_scope.
Notation "c ;;; k" := (sbind c (fun _ => k))
  (at level 100, right associativity) : se_scope.

(** [for x in l: body(x)] where the body may raise. *)
Fixpoint for_each {E A} (body : A -> result E unit) (l : list A) : result E unit :=
  match l with
  | [] => Ok tt
  | x :: l' => (body x ;;; for_each body l')%R
  end.

(** [[f(x) for x in l]] where [f] may raise. *)
Fixpoint map_result {E A B} (f : A -> result E B) (l : list A) : result E (list B) :=
  match l with
  | [] => Ok []
  | x :: l' => (y <~ f x ;; ys <~ map_result f l' ;; Ok (y :: ys))%R
  end.

(** An accumulating loop whose body may raise. *)
Fixpoint fold_result {E A B} (body : B -> A -> result E B) (l : list A) (acc : B)
  : result E B :=
  match l with
  | [] => Ok acc
  | x :: l' => (acc' <~ body acc x ;; fold_result body l' acc')%R
  end.

(** ** Configurations ([zenml.config.step_configurations])

    A field that is unset, or set to [None], is [None]; reading a
    dictionary field that is unset gives the empty dictionary. *)

Module Config.
Record PartialArtifactConfiguration := {
  materializer_source : option (list Source) }.

Record StepConfigurationUpdate := {
  enable_cache : option bool;
  enable_artifact_metadata : option bool;
  enable_artifact_visualization : option bool;
  experiment_tracker : option string;
  step_operator : option string;
  parameters : option (Dict.t value);
  settings : option (Dict.t value);
  outputs : option (Dict.t PartialArtifactConfiguration);
  extra : option (Dict.t value);
  failure_hook_source : option Source;
  success_hook_source : option Source }.

(** [PartialStepConfiguration] extends the update with a name, the
    caching parameters and the external input artifacts;
    [StepConfiguration] has the same fields. *)
Record PartialStepConfiguration := {
  name : string;
  fields : StepConfigurationUpdate;
  caching_parameters : option (Dict.t string);
  external_input_artifacts : option (Dict.t UUID) }.

Definition StepConfiguration := PartialStepConfiguration.

Definition empty_update : StepConfigurationUpdate :=
  {| enable_cache := None; enable_artifact_metadata := None;
     enable_artifact_visualization := None; experiment_tracker := None;
     step_operator := None; parameters := None; settings := None;
     outputs := None; extra := None; failure_hook_source := None;
     success_hook_source := None |}.

Definition get_parameters (c : PartialStepConfiguration) : Dict.t value :=
  default [] (parameters (fields c)).
Definition get_outputs (c : PartialStepConfiguration)
  : Dict.t PartialArtifactConfiguration :=
  default [] (outputs (fields c)).

(** Truthiness of [output.materializer_source]. *)
Definition has_materializer_source (o : PartialArtifactConfiguration) : bool :=
  match materializer_source o with
  | Some (_ :: _) => true
  | _ => false
  end.
End Config.

(** ** Merging configurations ([zenml.utils.pydantic_utils.update_model]) *)

Module pydantic_utils.
Import Config.

(** Modelled from the spec: [pydantic_utils.update_model] is defined in
    another module; by section 4.3 a field of the update that is set
    replaces the field of the base. *)
Definition replace {A} (base update : option A) : option A :=
  match update with
  | Some x => Some x
  | None => base
  end.

(** Modelled from the spec: [dict_utils.recursive_update] is defined in
    another module; by section 4.3 mapping-typed fields are merged key by
    key, the value of the update winning on a collision and nested
    mappings recursing one level. *)
Definition merge_dict {V} (merge_value : V -> V -> V) (base update : Dict.t V)
  : Dict.t V :=
  fold_left
    (fun acc kv =>
       Dict.set (fst kv)
         (match Dict.get (fst kv) acc with
          | Some old => merge_value old (snd kv)
          | None => snd kv
          end) acc)
    update base.

(** Modelled from the spec: the one level of recursion of
    [dict_utils.recursive_update] into a nested mapping. *)
Definition merge_value (old new : value) : value :=
  match old, new with
  | VDict o, VDict n => VDict (Dict.update o n)
  | _, _ => new
  end.

(** Modelled from the spec: the entries of an output are merged per
    materializer-kind key by [dict_utils.recursive_update]. *)
Definition merge_output (old new : PartialArtifactConfiguration)
  : PartialArtifactConfiguration :=
  {| materializer_source :=
       replace (materializer_source old) (materializer_source new) |}.

(** Modelled from the spec: [dict_utils.recursive_update] on a mapping
    field, which the update may leave unset. *)
Definition merge_field {V} (merge_value : V -> V -> V)
    (base update : option (Dict.t V)) : option (Dict.t V) :=
  match update with
  | None => base
  | Some u => Some (merge_dict merge_value (default [] base) u)
  end.

(** Modelled from the spec: [pydantic_utils.update_model] field by
    field; scalar fields are replaced, mapping fields are replaced or,
    when [recursive], merged. *)
Definition update_fields (original update : StepConfigurationUpdate)
    (recursive : bool) : StepConfigurationUpdate :=
  let dict_field {V} (mv : V -> V -> V) (get : StepConfigurationUpdate -> option (Dict.t V)) :=
    if recursive then merge_field mv (get original) (get update)
    else replace (get original) (get update) in
  {| enable_cache := replace (enable_cache original) (enable_cache update);
     enable_artifact_metadata :=
       replace (enable_artifact_metadata original) (enable_artifact_metadata update);
     enable_artifact_visualization :=
       replace (enable_artifact_visualization original)
               (enable_artifact_visualization update);
     experiment_tracker :=
       replace (experiment_tracker original) (experiment_tracker update);
     step_operator := replace (step_operator original) (step_operator update);
     parameters := dict_field merge_value parameters;
     settings := dict_field merge_value settings;
     outputs := dict_field merge_output outputs;
     extra := dict_field merge_value extra;
     failure_hook_source :=
       replace (failure_hook_source original) (failure_hook_source update);
     success_hook_source :=
       replace (success_hook_source original) (success_hook_source update) |}.

(** Modelled from the spec: [pydantic_utils.update_model] is the
    [merge(base, update, deep)] of section 4.3, which never changes
    [base] and returns a new configuration. *)
Definition update_model (original : PartialStepConfiguration)
    (update : StepConfigurationUpdate) (recursive : bool)
  : PartialStepConfiguration :=
  {| name := name original;
     fields := update_fields (fields original) update recursive;
     caching_parameters := caching_parameters original;
     external_input_artifacts := external_input_artifacts original |}.
End pydantic_utils.

(** ** Validating the inputs of a step *)

Fixpoint is_json_serializable (obj : value) : bool :=
  match obj with
  | VObject _ => false
  | VList l => forallb is_json_serializable l
  | VDict d => forallb (fun kv => is_json_serializable (snd kv)) d
  | _ => true
  end.

(** [EntrypointFunctionDefinition.validate_input]. *)
Definition validate_input `{!Environment} (self : EntrypointFunctionDefinition)
    (key : string) (input_ : call_arg) : Result unit :=
  match Dict.get key (inputs self) with
  | None => Raise (KeyError key)
  | Some parameter =>
      match input_ with
      | ArgStepArtifact _ | ArgExternalArtifact _ => Ok tt
      | ArgValue v =>
          match param_annotation parameter with
          | Some TUnmaterializedArtifact =>
              Raise (RuntimeError UnmaterializedParameter)
          | ann =>
              (* _validate_input_value *)
              if negb (pydantic_validates (default TAny ann) v)
              then Raise (RuntimeError InputValidationFailed)
              else if negb (is_json_serializable v)
              then Raise (StepInterfaceError (NotJsonSerializable key))
              else Ok tt
          end
      end
  end.

(** ** Step templates ([BaseStep]) *)

Inductive MaterializerClassOrSource :=
| MatPath (import_path : string)
| MatSource (source : Source)
| MatClass (c : MaterializerClass).

Inductive materializer_spec :=
| One (m : MaterializerClassOrSource)
| Several (ms : list MaterializerClassOrSource).

Inductive OutputMaterializersSpecification :=
| ForAllOutputs (m : materializer_spec)
| PerOutput (d : Dict.t materializer_spec).

(** The keyword arguments of [BaseStep.configure]. *)
Module Kwargs.
Record t := {
  name : option string;
  enable_cache : option bool;
  enable_artifact_metadata : option bool;
  enable_artifact_visualization : option bool;
  experiment_tracker : option string;
  step_operator : option string;
  parameters : option (Dict.t value);
  output_materializers : option OutputMaterializersSpecification;
  settings : option (Dict.t value);
  extra : option (Dict.t value);
  on_failure : option string;
  on_success : option string;
  merge : bool }.

(** All defaults: every argument [None], [merge=True]. *)
Definition defaults : t :=
  {| name := None; enable_cache := None; enable_artifact_metadata := None;
     enable_artifact_visualization := None; experiment_tracker := None;
     step_operator := None; parameters := None; output_materializers := None;
     settings := None; extra := None; on_failure := None; on_success := None;
     merge := true |}.

(** [configure(parameters=p, merge=m)]. *)
Definition of_parameters (p : Dict.t value) (m : bool) : t :=
  {| name := None; enable_cache := None; enable_artifact_metadata := None;
     enable_artifact_visualization := None; experiment_tracker := None;
     step_operator := None; parameters := Some p; output_materializers := None;
     settings := None; extra := None; on_failure := None; on_success := None;
     merge := m |}.
End Kwargs.

(** A step template. [_upstream_steps] holds the addresses of the step
    objects given to [after]; [entrypoint] is the signature of the
    entrypoint, [source_code] the text [inspect.getsource] returns. *)
Record BaseStep := {
  class_name : string;
  source_code : string;
  entrypoint : Signature;
  _upstream_steps : gset nat;
  entrypoint_definition : EntrypointFunctionDefinition;
  _configuration : Config.PartialStepConfiguration }.

Definition set_configuration (c : Config.PartialStepConfiguration)
    (self : BaseStep) : BaseStep :=
  {| class_name := class_name self;
     source_code := source_code self;
     entrypoint := entrypoint self;
     _upstream_steps := _upstream_steps self;
     entrypoint_definition := entrypoint_definition self;
     _configuration := c |}.

Definition set_upstream_steps (u : gset nat) (self : BaseStep) : BaseStep :=
  {| class_name := class_name self;
     source_code := source_code self;
     entrypoint := entrypoint self;
     _upstream_steps := u;
     entrypoint_definition := entrypoint_definition self;
     _configuration := _configuration self |}.

(** [after(step)]: [self._upstream_steps.add(step)]. *)
Definition after (step : nat) (self : BaseStep) : BaseStep :=
  set_upstream_steps ({[step]} ∪ _upstream_steps self) self.

Definition configuration (self : BaseStep) : Config.PartialStepConfiguration :=
  _configuration self.
Definition name (self : BaseStep) : string := Config.name (configuration self).
Definition upstream_steps (self : BaseStep) : gset nat := _upstream_steps self.

Definition _is_step_context_param (a : option annotation) : bool :=
  match a with
  | Some a => isclass a && is_context_class a
  | None => false
  end.

(** [get_step_entrypoint_signature(step)] with [include_step_context=False]. *)
Definition get_step_entrypoint_signature (step : BaseStep) : Signature :=
  {| sig_parameters :=
       List.filter (fun p => negb (_is_step_context_param (param_annotation p)))
              (sig_parameters (entrypoint step));
     sig_return_annotation := sig_return_annotation (entrypoint step) |}.

Definition signature_keys (s : Signature) : list string :=
  map param_name (sig_parameters s).

Definition signature_get (key : string) (s : Signature) : option Param :=
  find (fun p => String.eqb key (param_name p)) (sig_parameters s).

Section BaseStepMethods.
Context `{!Environment}.

Definition _validate_function_parameters (self : BaseStep)
    (parameters : Dict.t value) : Result unit :=
  if negb (Dict.nonempty parameters) then Ok tt
  else
    for_each
      (fun kv =>
         let key := fst kv in
         if Dict.contains key (inputs (entrypoint_definition self)) then
           validate_input (entrypoint_definition self) key (ArgValue (snd kv))
         else if negb (bool_decide (is_Some (params (entrypoint_definition self))))
         then Raise (StepInterfaceError CannotSetParameterWithoutParamClass)
         else Ok tt)
      parameters.

Definition _validate_outputs (self : BaseStep)
    (outputs_ : Dict.t Config.PartialArtifactConfiguration) : Result unit :=
  let allowed_output_names := Dict.keys (outputs (entrypoint_definition self)) in
  for_each
    (fun kv =>
       let output_name := fst kv in
       if negb (existsb (String.eqb output_name) allowed_output_names)
       then Raise (StepInterfaceError (UnexpectedMaterializers output_name))
       else if Config.has_materializer_source (snd kv) then
         for_each
           (fun source =>
              if negb (validate_source_class source)
              then Raise (StepInterfaceError (NotAMaterializer source output_name))
              else Ok tt)
           (default [] (Config.materializer_source (snd kv)))
       else Ok tt)
    outputs_.

(** [settings_utils.validate_setting_keys]. *)
Definition validate_setting_keys (keys : list string) : Result unit :=
  for_each
    (fun key => if valid_setting_key key then Ok tt else Raise (ValueError key))
    keys.

Definition _validate_configuration (self : BaseStep)
    (config : Config.StepConfigurationUpdate) : Result unit :=
  (validate_setting_keys (Dict.keys (default [] (Config.settings config))) ;;;
   _validate_function_parameters self (default [] (Config.parameters config)) ;;;
   _validate_outputs self (default [] (Config.outputs config)))%R.

Definition _apply_configuration (config : Config.StepConfigurationUpdate)
    (merge : bool) : SE BaseStep unit :=
  (self <~ sget ;;
   slift (_validate_configuration self config) ;;;
   sput (set_configuration
           (pydantic_utils.update_model (_configuration self) config merge)
           self))%S.
End BaseStepMethods.

(** A step class: what [BaseStep.__init__] reads from [self.__class__]. *)
Record StepClass := {
  step_class_name : string;
  step_source_code : string;
  step_entrypoint : Signature }.

(** A [BaseParameters] object passed to [__init__]: the names of its class
    and of the bases of its class, and its [.dict()]. *)
Record ParametersObject := {
  obj_mro : list string;
  obj_dict : Dict.t value }.

Definition isinstance (obj : ParametersObject) (a : option annotation) : bool :=
  match a with
  | Some (TClass c) => existsb (String.eqb (cls_name c)) (obj_mro obj)
  | _ => false
  end.

(** The characters of a string, which is what iterating over it gives. *)
Definition characters (s : string) : list string :=
  map (fun a => String a EmptyString) (String.list_ascii_of_string s).

Definition _resolve_if_necessary (value : MaterializerClassOrSource) : Source :=
  match value with
  | MatPath p => p                      (* Source.from_import_path *)
  | MatSource s => s
  | MatClass c => mat_import_path c     (* source_utils.resolve *)
  end.

(** [isinstance(value, Sequence)] holds of a string too. *)
Definition _convert_to_tuple (value : materializer_spec) : list Source :=
  match value with
  | One (MatPath p) => map (fun v => _resolve_if_necessary (MatPath v)) (characters p)
  | One m => [_resolve_if_necessary m]
  | Several ms => map _resolve_if_necessary ms
  end.

Definition output_materializers_truthy (o : OutputMaterializersSpecification) : bool :=
  match o with
  | ForAllOutputs (One (MatPath "")) => false
  | ForAllOutputs (Several []) => false
  | PerOutput [] => false
  | _ => true
  end.

Definition hook_truthy (h : option string) : option string :=
  match h with
  | Some "" => None
  | h => h
  end.

Section BaseStepConfigure.
Context `{!Environment}.

(** The [outputs] dictionary [configure] builds from
    [output_materializers]. For a single specification the code goes
    through the set of the output names, in an order that is not fixed;
    they are taken in the order of their declaration here. *)
Definition configure_outputs (self : BaseStep)
    (output_materializers : option OutputMaterializersSpecification)
  : Dict.t Config.PartialArtifactConfiguration :=
  let allowed_output_names := Dict.keys (outputs (entrypoint_definition self)) in
  let entry sources := {| Config.materializer_source := Some sources |} in
  match output_materializers with
  | None => []
  | Some o =>
      if output_materializers_truthy o then
        match o with
        | ForAllOutputs m =>
            let sources := _convert_to_tuple m in
            fold_left (fun outputs_ output_name =>
                         Dict.set output_name (entry sources) outputs_)
                      allowed_output_names []
        | PerOutput d =>
            fold_left (fun outputs_ kv =>
                         Dict.set (fst kv) (entry (_convert_to_tuple (snd kv))) outputs_)
                      d []
        end
      else []
  end.

Definition resolve_hook (h : option string) : Result (option Source) :=
  match hook_truthy h with
  | None => Ok None
  | Some spec =>
      match resolve_and_validate_hook spec with
      | Some s => Ok (Some s)
      | None => Raise (ValueError spec)
      end
  end.

(** The update [configure] builds: [remove_none_values] of its arguments
    and the [StepConfigurationUpdate] made of them. *)
Definition configuration_update (self : BaseStep) (kw : Kwargs.t)
    (failure_hook_source success_hook_source : option Source)
  : Config.StepConfigurationUpdate :=
  let outputs_ := configure_outputs self (Kwargs.output_materializers kw) in
  {| Config.enable_cache := Kwargs.enable_cache kw;
     Config.enable_artifact_metadata := Kwargs.enable_artifact_metadata kw;
     Config.enable_artifact_visualization :=
       Kwargs.enable_artifact_visualization kw;
     Config.experiment_tracker := Kwargs.experiment_tracker kw;
     Config.step_operator := Kwargs.step_operator kw;
     Config.parameters := Kwargs.parameters kw;
     Config.settings := Kwargs.settings kw;
     Config.outputs := if Dict.nonempty outputs_ then Some outputs_ else None;
     Config.extra := Kwargs.extra kw;
     Config.failure_hook_source := failure_hook_source;
     Config.success_hook_source := success_hook_source |}.

Definition configure (kw : Kwargs.t) : SE BaseStep unit :=
  (self <~ sget ;;
   failure_hook_source <~ slift (resolve_hook (Kwargs.on_failure kw)) ;;
   success_hook_source <~ slift (resolve_hook (Kwargs.on_success kw)) ;;
   let config :=
     configuration_update self kw failure_hook_source success_hook_source in
   _apply_configuration config (Kwargs.merge kw))%S.

Definition _verify_and_apply_init_params (args : list ParametersObject)
    (kwargs : Dict.t ParametersObject) : SE BaseStep unit :=
  (self <~ sget ;;
   let params_ := params (entrypoint_definition self) in
   let maximum_arg_count := match params_ with Some _ => 1 | None => 0 end in
   let arg_count := length args + length kwargs in
   if bool_decide (maximum_arg_count < arg_count) then
     sraise (StepInterfaceError (TooManyArguments arg_count maximum_arg_count))
   else
     match params_ with
     | None => sret tt
     | Some p =>
         let apply (config : ParametersObject) : SE BaseStep unit :=
           if negb (isinstance config (param_annotation p)) then
             sraise (StepInterfaceError WrongParametersObject)
           else configure (Kwargs.of_parameters (obj_dict config) true) in
         match args, last kwargs with
         | config :: _, _ => apply config
         | [], Some (key, config) =>
             if negb (String.eqb key (param_name p)) then
               sraise (StepInterfaceError (UnknownKeywordArgument key))
             else apply config
         | [], None => sret tt
         end
     end)%S.

(** [BaseStep.__init__]; the keyword [merge] of [kw] is not an argument
    of [__init__] and is not read. *)
Definition __init__ (cls : StepClass) (args : list ParametersObject)
    (kw : Kwargs.t) (kwargs : Dict.t ParametersObject) : Result BaseStep :=
  (definition <~ validate_entrypoint_function (step_entrypoint cls) [] ;;
   let name :=
     match Kwargs.name kw with
     | Some "" | None => step_class_name cls
     | Some n => n
     end in
   let requires_context := bool_decide (is_Some (context definition)) in
   let enable_cache :=
     match Kwargs.enable_cache kw with
     | None => if requires_context then Some false else None
     | Some b => Some b
     end in
   let self :=
     {| class_name := step_class_name cls;
        source_code := step_source_code cls;
        entrypoint := step_entrypoint cls;
        _upstream_steps := ∅;
        entrypoint_definition := definition;
        _configuration :=
          {| Config.name := name;
             Config.fields :=
               {| Config.enable_cache := enable_cache;
                  Config.enable_artifact_metadata :=
                    Kwargs.enable_artifact_metadata kw;
                  Config.enable_artifact_visualization :=
                    Kwargs.enable_artifact_visualization kw;
                  Config.experiment_tracker := None;
                  Config.step_operator := None;
                  Config.parameters := None;
                  Config.settings := None;
                  Config.outputs := None;
                  Config.extra := None;
                  Config.failure_hook_source := None;
                  Config.success_hook_source := None |};
             Config.caching_parameters := None;
             Config.external_input_artifacts := None |} |} in
   let init : SE BaseStep unit :=
     (configure
        {| Kwargs.name := None; Kwargs.enable_cache := None;
           Kwargs.enable_artifact_metadata := None;
           Kwargs.enable_artifact_visualization := None;
           Kwargs.experiment_tracker := Kwargs.experiment_tracker kw;
           Kwargs.step_operator := Kwargs.step_operator kw;
           Kwargs.parameters := Kwargs.parameters kw;
           Kwargs.output_materializers := Kwargs.output_materializers kw;
           Kwargs.settings := Kwargs.settings kw;
           Kwargs.extra := Kwargs.extra kw;
           Kwargs.on_failure := Kwargs.on_failure kw;
           Kwargs.on_success := Kwargs.on_success kw;
           Kwargs.merge := true |} ;;;
      _verify_and_apply_init_params args kwargs)%S in
   match init self with
   | (Ok _, self') => Ok self'
   | (Raise e, _) => Raise e
   end)%R.
End BaseStepConfigure.

Section BaseStepFinalize.
Context `{!Environment}.

(** The property [caching_parameters]: the hash of the step source
    under the fixed key, and for every output with materializer sources
    the MD5 of the concatenated hashes of their source codes. *)
Definition materializer_source_hash (sources : list Source) : string :=
  md5_hexdigest
    (String.concat ""
       (map (fun source => hash_source_code (mat_source_code (load source)))
            sources)).

(** One round of the loop of [caching_parameters] over the outputs. *)
Definition caching_round (parameters : Dict.t string)
    (kv : string * Config.PartialArtifactConfiguration) : Dict.t string :=
  if Config.has_materializer_source (snd kv) then
    let key := String.append (fst kv) "_materializer_source" in
    Dict.set key
      (materializer_source_hash (default [] (Config.materializer_source (snd kv))))
      parameters
  else parameters.

Definition caching_parameters (self : BaseStep) : Dict.t string :=
  let parameters :=
    Dict.set STEP_SOURCE_PARAMETER_NAME
             (hash_source_code (source_code self)) [] in
  fold_left caching_round (Config.get_outputs (configuration self)) parameters.

Definition _validate_inputs (self : BaseStep)
    (input_artifacts : Dict.t StepArtifact)
    (external_artifacts : Dict.t UUID) : Result unit :=
  let signature := get_step_entrypoint_signature self in
  for_each
    (fun key =>
       if Dict.contains key input_artifacts
          || Dict.contains key (Config.get_parameters (configuration self))
          || Dict.contains key external_artifacts
       then Ok tt
       else Raise (StepInterfaceError (MissingEntrypointInput key)))
    (signature_keys signature).

(** [name in s], the substring test of a string. *)
Fixpoint is_substring (name s : string) : bool :=
  String.prefix name s
  || match s with
     | EmptyString => false
     | String _ rest => is_substring name rest
     end.

(** [name in params_defined_in_new_way] followed, when it holds, by
    [params_defined_in_new_way[name]]. A mapping gives the value under
    the key. A string that has the name as a substring, and a list that
    has it as an element, raise [TypeError] at the subscript; a number, a
    boolean and [None] are not iterable and raise it at the membership
    test, and so is any other object taken to do. *)
Definition new_way_lookup (new_way : value) (name : string) : Result (option value) :=
  match new_way with
  | VDict d => Ok (Dict.get name d)
  | VStr s => if is_substring name s then Raise TypeError else Ok None
  | VList l =>
      if existsb (fun x => match x with VStr s => String.eqb name s | _ => false end) l
      then Raise TypeError else Ok None
  | _ => Raise TypeError
  end.

(** One round of the loop of [_finalize_legacy_parameters] over the
    fields of the parameters class. *)
Definition legacy_parameter_round (configured : Dict.t value) (new_way : value)
    (acc : Dict.t value * list string) (field : ModelField)
  : Result (Dict.t value * list string) :=
  let name := field_name field in
  match Dict.get name configured with
  | Some v => Ok (Dict.set name v acc.1, acc.2)
  | None =>
      (found <~ new_way_lookup new_way name ;;
       Ok match found with
          | Some v => (Dict.set name v acc.1, acc.2)
          | None =>
              if field_required field then (acc.1, acc.2 ++ [name])
              else (Dict.set name (field_default field) acc.1, acc.2)
          end)%R
  end.

(** [_finalize_legacy_parameters]. [params_defined_in_new_way] is the
    value configured under the name of the parameters object, or the
    empty mapping when there is none or a falsy one. *)
Definition _finalize_legacy_parameters (self : BaseStep)
  : Result (Dict.t value) :=
  match params (entrypoint_definition self) with
  | None => Ok []
  | Some p =>
      let configured := Config.get_parameters (configuration self) in
      let params_defined_in_new_way :=
        match Dict.get (param_name p) configured with
        | None | Some VNone | Some (VBool false) | Some (VInt 0%Z)
        | Some (VStr "") | Some (VList []) => VDict []
        | Some v => v
        end in
      match param_annotation p with
      | Some (TClass annotation) =>
          r <~ fold_result
                 (legacy_parameter_round configured params_defined_in_new_way)
                 (cls_fields annotation) ([], []) ;;
          let '(values, missing_keys) := r in
          match missing_keys with
          | _ :: _ => Raise (MissingStepParameterError (name self) missing_keys)
          | [] =>
              let values :=
                if cls_extra_allow annotation then Dict.update values configured
                else values in
              match instantiate_model annotation values with
              | None => Raise (StepInterfaceError FailedToValidateFunctionParameters)
              | Some _ => Ok values
              end
          end
      | _ => Raise TypeError
      end
  end%R.

(** One round of the loop of [_finalize_parameters] over the configured
    parameters. *)
Definition finalize_parameter (signature : Signature) (params_ : Dict.t value)
    (kv : string * value) : Result (Dict.t value) :=
  let key := fst kv in
  match signature_get key signature with
  | None => Ok params_
  | Some parameter =>
      match param_annotation parameter with
      | Some (TClass c) =>
          if is_model_class (TClass c) then
            match snd kv with
            | VDict d =>
                match instantiate_model c d with
                | Some model => Ok (Dict.set key (VDict model) params_)
                | None => Raise ValidationError
                end
            | _ => Raise TypeError
            end
          else Ok (Dict.set key (snd kv) params_)
      | _ => Ok (Dict.set key (snd kv) params_)
      end
  end.

Definition _finalize_parameters (self : BaseStep) : Result (Dict.t value) :=
  let signature := get_step_entrypoint_signature self in
  (params_ <~
     fold_result (finalize_parameter signature)
       (Config.get_parameters (configuration self)) [] ;;
   match params (entrypoint_definition self) with
   | Some p =>
       legacy_params <~ _finalize_legacy_parameters self ;;
       Ok (Dict.set (param_name p) (VDict legacy_params) params_)
   | None => Ok params_
   end)%R.

(** The body of the loop of [_finalize_configuration] over the outputs
    of the entrypoint: the materializer sources resolved for an output
    without configured ones, [None] for an output that has them. *)
Definition resolve_output_materializers (self : BaseStep)
    (output_name : string) (output_annotation : annotation)
  : Result (option (list Source)) :=
  let output :=
    default {| Config.materializer_source := None |}
            (Dict.get output_name (Config.get_outputs (_configuration self))) in
  if negb (Config.has_materializer_source output) then
    match output_annotation with
    | TAny => Raise (StepInterfaceError ExplicitMaterializerRequired)
    | _ =>
        let output_types :=
          if is_union (origin_or_self output_annotation) then
            map (fun output_type =>
                   if is_none_type output_type then TNoneType else output_type)
                (get_args output_annotation)
          else [output_annotation] in
        (materializer_source <~
           map_result
             (fun output_type =>
                match materializer_types output_type with
                | Some materializer_class =>
                    Ok (mat_import_path materializer_class)
                | None =>
                    Raise (StepInterfaceError
                             (UnableToFindMaterializer (Some output_name) output_type))
                end)
             output_types ;;
         Ok (Some materializer_source))%R
    end
  else Ok None.

Definition resolve_outputs (self : BaseStep)
  : Result (Dict.t Config.PartialArtifactConfiguration) :=
  fold_result
    (fun outputs_ kv =>
       (r <~ resolve_output_materializers self (fst kv) (snd kv) ;;
        Ok (match r with
            | Some materializer_source =>
                Dict.set (fst kv)
                  {| Config.materializer_source := Some materializer_source |}
                  outputs_
            | None => outputs_
            end))%R)
    (outputs (entrypoint_definition self)) [].

(** The update for the resolved outputs, made of
    [remove_none_values({"outputs": outputs or None})]. *)
Definition outputs_update (outputs_ : Dict.t Config.PartialArtifactConfiguration)
  : Config.StepConfigurationUpdate :=
  {| Config.enable_cache := None; Config.enable_artifact_metadata := None;
     Config.enable_artifact_visualization := None;
     Config.experiment_tracker := None; Config.step_operator := None;
     Config.parameters := None; Config.settings := None;
     Config.outputs := if Dict.nonempty outputs_ then Some outputs_ else None;
     Config.extra := None; Config.failure_hook_source := None;
     Config.success_hook_source := None |}.

(** The configuration with the caching parameters and the external input
    artifacts; [StepConfiguration.parse_obj] keeps its fields. *)
Definition complete_configuration (self : BaseStep)
    (external_artifacts : Dict.t UUID) : Config.StepConfiguration :=
  {| Config.name := Config.name (_configuration self);
     Config.fields := Config.fields (_configuration self);
     Config.caching_parameters := Some (caching_parameters self);
     Config.external_input_artifacts := Some external_artifacts |}.

Definition _finalize_configuration (input_artifacts : Dict.t StepArtifact)
    (external_artifacts : Dict.t UUID) : SE BaseStep Config.StepConfiguration :=
  (self <~ sget ;;
   outputs_ <~ slift (resolve_outputs self) ;;
   parameters <~ slift (_finalize_parameters self) ;;
   configure (Kwargs.of_parameters parameters false) ;;;
   self <~ sget ;;
   slift (_validate_inputs self input_artifacts external_artifacts) ;;;
   _apply_configuration (outputs_update outputs_) true ;;;
   self <~ sget ;;
   let complete := complete_configuration self external_artifacts in
   sput (set_configuration complete self) ;;;
   sret complete)%S.
End BaseStepFinalize.

(** ** Binding call arguments ([inspect.Signature.bind_partial]) *)

Fixpoint dict_remove {V} (k : string) (d : Dict.t V) : Dict.t V :=
  match d with
  | [] => []
  | (k', v) :: d' => if String.eqb k k' then d' else (k', v) :: dict_remove k d'
  end.

(** Positional arguments fill the parameters in order, keyword arguments
    are bound by name, parameters without an argument are skipped; a
    failure is Python's [TypeError]. Entrypoints with variadic parameters
    are rejected when the step is created, binding them is an error here. *)
Fixpoint bind_partial (ps : list Param) (args : list call_arg)
    (kwargs : Dict.t call_arg) : Result (Dict.t call_arg) :=
  match ps with
  | [] =>
      match args, kwargs with
      | [], [] => Ok []
      | _, _ => Raise TypeError
      end
  | p :: ps' =>
      let key := param_name p in
      match param_kind p with
      | VAR_POSITIONAL | VAR_KEYWORD => Raise TypeError
      | kind =>
          match args with
          | a :: args' =>
              match kind with
              | KEYWORD_ONLY => Raise TypeError
              | POSITIONAL_ONLY =>
                  (bound <~ bind_partial ps' args' kwargs ;; Ok ((key, a) :: bound))%R
              | _ =>
                  if Dict.contains key kwargs then Raise TypeError
                  else (bound <~ bind_partial ps' args' kwargs ;;
                        Ok ((key, a) :: bound))%R
              end
          | [] =>
              match Dict.get key kwargs with
              | Some a =>
                  match kind with
                  | POSITIONAL_ONLY => Raise TypeError
                  | _ => (bound <~ bind_partial ps' [] (dict_remove key kwargs) ;;
                          Ok ((key, a) :: bound))%R
                  end
              | None => bind_partial ps' [] kwargs
              end
          end
      end
  end.

(** [BoundArguments.apply_defaults]. *)
Fixpoint apply_defaults (ps : list Param) (arguments : Dict.t call_arg)
  : Dict.t call_arg :=
  match ps with
  | [] => []
  | p :: ps' =>
      match Dict.get (param_name p) arguments, param_default p with
      | Some a, _ => (param_name p, a) :: apply_defaults ps' arguments
      | None, Some d => (param_name p, ArgValue d) :: apply_defaults ps' arguments
      | None, None => apply_defaults ps' arguments
      end
  end.

(** ** The pipeline under construction *)

Record StepInvocation := {
  id : string;
  step : nat;                                   (* the address of the template *)
  input_artifacts : Dict.t StepArtifact;
  external_artifacts : Dict.t nat;              (* addresses of external artifacts *)
  parameters : Dict.t value;
  invocation_upstream_steps : gset string }.

Record Pipeline := {
  steps : Dict.t StepInvocation }.

Module PipelineModel.
(** Modelled from the spec: the identifier of a new invocation is the
    custom identifier, or the name of the template when that is empty;
    an identifier already in the graph gets a numeric suffix when
    suffixes are allowed and is refused otherwise ([Pipeline] is defined
    in [zenml.pipelines.new]). *)
Definition _compute_invocation_id (pipeline : Pipeline) (step_name : string)
    (custom_id : option string) (allow_suffix : bool) : Result string :=
  let base_id :=
    match custom_id with
    | Some "" | None => step_name
    | Some i => i
    end in
  if negb (Dict.contains base_id (steps pipeline)) then Ok base_id
  else if allow_suffix then
    let candidates :=
      map (fun n : nat => String.append base_id (String.append "_" (pretty n)))
          (seq 2 (S (length (steps pipeline)))) in
    match find (fun c => negb (Dict.contains c (steps pipeline))) candidates with
    | Some c => Ok c
    | None => Raise (RuntimeError (DuplicateInvocation base_id))
    end
  else Raise (RuntimeError (DuplicateInvocation base_id)).

(** Modelled from the spec: [addInvocation] registers a node holding the
    template, the artifacts, the parameters and the upstream identifiers
    it is given, and returns the identifier of the node. *)
Definition add_step (pipeline : Pipeline) (step_ : nat) (step_name : string)
    (input_artifacts_ : Dict.t StepArtifact) (external_artifacts_ : Dict.t nat)
    (parameters_ : Dict.t value) (upstream_steps_ : gset string)
    (custom_id : option string) (allow_suffix : bool)
  : Result (string * Pipeline) :=
  (invocation_id_ <~
     _compute_invocation_id pipeline step_name custom_id allow_suffix ;;
   let invocation :=
     {| id := invocation_id_; step := step_;
        input_artifacts := input_artifacts_;
        external_artifacts := external_artifacts_;
        parameters := parameters_;
        invocation_upstream_steps := upstream_steps_ |} in
   Ok (invocation_id_,
       {| steps := Dict.set invocation_id_ invocation (steps pipeline) |}))%R.
End PipelineModel.

(** ** External artifacts and the world around them *)

Record ExternalArtifact := {
  _value : value;                                   (* [VNone] is [None] *)
  _id : option UUID;
  _materializer : option MaterializerClassOrSource;
  _store_artifact_metadata : bool;
  _skip_type_checking : bool }.

(** [ExternalArtifact.__init__]. *)
Definition new_external_artifact (value_ : value) (id_ : option UUID)
    (materializer : option MaterializerClassOrSource)
    (store_artifact_metadata skip_type_checking : bool) : Result ExternalArtifact :=
  match value_, id_ with
  | VNone, None => Raise (ValueError "Either value or ID required")
  | VNone, Some _ | _, None =>
      Ok {| _value := value_; _id := id_; _materializer := materializer;
            _store_artifact_metadata := store_artifact_metadata;
            _skip_type_checking := skip_type_checking |}
  | _, Some _ => Raise (ValueError "Only value or ID allowed")
  end.

(** The artifact record sent to and returned by the metadata store. *)
Record ArtifactModel := {
  artifact_name : string;
  artifact_type : string;
  artifact_uri : string;
  artifact_materializer : Source;
  artifact_data_type : annotation;
  artifact_user : UUID;
  artifact_workspace : UUID;
  artifact_store_id : UUID }.

(** Calls to the artifact store, the materializer and the metadata store. *)
Inductive event :=
| GetArtifact (artifact_id : UUID)
| FileExists (uri : string)
| MakeDirs (uri : string)
| MaterializerSave (uri : string) (data : value)
| CreateArtifact (artifact : ArtifactModel).

(** Modelled from the spec: the collaborators of section 6. The metadata
    store maps identifiers to artifact records, [createArtifactRecord]
    returns a new identifier and [getArtifactRecord] the record stored
    under one; the artifact store is the set of the locations that exist;
    the run context gives the active user, workspace and artifact store.
    [trace] records the calls made, latest last. *)
Record World := {
  step_objects : nat -> BaseStep;
  artifact_objects : nat -> ExternalArtifact;
  ACTIVE_PIPELINE : option Pipeline;
  active_artifact_store_id : UUID;
  active_artifact_store_path : string;
  active_user_id : UUID;
  active_workspace_id : UUID;
  zen_store : gmap UUID ArtifactModel;
  files : gset string;
  next_uuid : nat;
  trace : list event }.

Module W.
Definition with_step (a : nat) (s : BaseStep) (w : World) : World :=
  {| step_objects := <[a := s]> (step_objects w);
     artifact_objects := artifact_objects w;
     ACTIVE_PIPELINE := ACTIVE_PIPELINE w;
     active_artifact_store_id := active_artifact_store_id w;
     active_artifact_store_path := active_artifact_store_path w;
     active_user_id := active_user_id w;
     active_workspace_id := active_workspace_id w;
     zen_store := zen_store w; files := files w;
     next_uuid := next_uuid w; trace := trace w |}.

Definition with_artifact (a : nat) (e : ExternalArtifact) (w : World) : World :=
  {| step_objects := step_objects w;
     artifact_objects := <[a := e]> (artifact_objects w);
     ACTIVE_PIPELINE := ACTIVE_PIPELINE w;
     active_artifact_store_id := active_artifact_store_id w;
     active_artifact_store_path := active_artifact_store_path w;
     active_user_id := active_user_id w;
     active_workspace_id := active_workspace_id w;
     zen_store := zen_store w; files := files w;
     next_uuid := next_uuid w; trace := trace w |}.

Definition with_pipeline (p : option Pipeline) (w : World) : World :=
  {| step_objects := step_objects w;
     artifact_objects := artifact_objects w;
     ACTIVE_PIPELINE := p;
     active_artifact_store_id := active_artifact_store_id w;
     active_artifact_store_path := active_artifact_store_path w;
     active_user_id := active_user_id w;
     active_workspace_id := active_workspace_id w;
     zen_store := zen_store w; files := files w;
     next_uuid := next_uuid w; trace := trace w |}.

(** The services: the metadata store, the files, the identifier supply
    and the trace. *)
Definition with_services (z : gmap UUID ArtifactModel) (f : gset string)
    (n : nat) (t : list event) (w : World) : World :=
  {| step_objects := step_objects w;
     artifact_objects := artifact_objects w;
     ACTIVE_PIPELINE := ACTIVE_PIPELINE w;
     active_artifact_store_id := active_artifact_store_id w;
     active_artifact_store_path := active_artifact_store_path w;
     active_user_id := active_user_id w;
     active_workspace_id := active_workspace_id w;
     zen_store := z; files := f; next_uuid := n; trace := t |}.

Definition log (e : event) : SE World unit :=
  fun w => (Ok tt, with_services (zen_store w) (files w) (next_uuid w)
                                 (trace w ++ [e]) w).

(** Modelled from the spec: [uuid4()] and the identifiers the metadata
    store hands out come from one supply of new identifiers. *)
Definition uuid4 : SE World UUID :=
  fun w => (Ok (next_uuid w),
            with_services (zen_store w) (files w) (S (next_uuid w)) (trace w) w).

(** Modelled from the spec: [Client().get_artifact(artifact_id=...)] is
    [getArtifactRecord], a read of the metadata store. *)
Definition get_artifact (artifact_id : UUID) : SE World ArtifactModel :=
  (log (GetArtifact artifact_id) ;;;
   w <~ sget ;;
   match zen_store w !! artifact_id with
   | Some response => sret response
   | None => sraise (KeyError (pretty artifact_id))
   end)%S.

(** Modelled from the spec: [Client().zen_store.create_artifact] is
    [createArtifactRecord]; it stores the record under a new identifier
    and returns the identifier. *)
Definition create_artifact (artifact : ArtifactModel) : SE World UUID :=
  (log (CreateArtifact artifact) ;;;
   response_id <~ uuid4 ;;
   w <~ sget ;;
   sput (with_services (<[response_id := artifact]> (zen_store w)) (files w)
                       (next_uuid w) (trace w) w) ;;;
   sret response_id)%S.

(** Modelled from the spec: [fileio.exists] and [fileio.makedirs] are
    [exists] and [makeDirectory] of the artifact store. *)
Definition exists_ (uri : string) : SE World bool :=
  (log (FileExists uri) ;;;
   w <~ sget ;;
   sret (bool_decide (uri ∈ files w)))%S.

(** Modelled from the spec: [makeDirectory] of the artifact store. *)
Definition makedirs (uri : string) : SE World unit :=
  (log (MakeDirs uri) ;;;
   w <~ sget ;;
   sput (with_services (zen_store w) ({[uri]} ∪ files w) (next_uuid w)
                       (trace w) w))%S.

(** Modelled from the spec: [materializer.save] persists the value
    through the materializer; the call is recorded. *)
Definition save (uri : string) (data : value) : SE World unit :=
  log (MaterializerSave uri data).
End W.

(** Running a method of a step template on the object at an address. *)
Definition on_step {A} (a : nat) (m : SE BaseStep A) : SE World A :=
  fun w =>
    match m (step_objects w a) with
    | (r, s) => (r, W.with_step a s w)
    end.

Section ExternalArtifactMethods.
Context `{!Environment}.

(** [ExternalArtifact._get_materializer]. *)
Definition _get_materializer (self : ExternalArtifact) : Result MaterializerClass :=
  match _value self with
  | VNone => Raise AssertionError
  | _ =>
  match _materializer self with
  | Some (MatClass c) => Ok c
  | Some (MatSource s) | Some (MatPath (String _ _ as s)) =>
      (* source_utils.load_and_validate_class *)
      if validate_source_class s then Ok (load s) else Raise TypeError
  | Some (MatPath "") | None =>
      let value_type := type_of (_value self) in
      match materializer_types value_type with
      | Some c => Ok c
      | None => Raise (StepInterfaceError (UnableToFindMaterializer None value_type))
      end
  end
  end.

(** [ExternalArtifact.do_something], on the artifact at address [self]. *)
Definition do_something (self : nat) : SE World UUID :=
  (w <~ sget ;;
   let artifact_store_id_ := active_artifact_store_id w in
   let this := artifact_objects w self in
   match _id this with
   | Some i =>
       response <~ W.get_artifact i ;;
       if negb (bool_decide (artifact_store_id response = artifact_store_id_))
       then sraise (RuntimeError ArtifactStoreMismatch)
       else sret i
   | None =>
       u <~ W.uuid4 ;;
       let artifact_name_ := String.append "external_" (pretty u) in
       materializer_class <~ slift (_get_materializer this) ;;
       let uri :=
         String.append (active_artifact_store_path w)
           (String.append "/external_artifacts/" artifact_name_) in
       exists_ <~ W.exists_ uri ;;
       if (exists_ : bool) then sraise (RuntimeError ArtifactUriExists)
       else
         W.makedirs uri ;;;
         W.save uri (_value this) ;;;
         let artifact :=
           {| artifact_name := artifact_name_;
              artifact_type := mat_artifact_type materializer_class;
              artifact_uri := uri;
              artifact_materializer := mat_import_path materializer_class;
              artifact_data_type := type_of (_value this);
              artifact_user := active_user_id w;
              artifact_workspace := active_workspace_id w;
              artifact_store_id := artifact_store_id_ |} in
         response_id <~ W.create_artifact artifact ;;
         (* To avoid duplicate uploads, switch to just referencing the
            uploaded artifact *)
         w' <~ sget ;;
         sput (W.with_artifact self
                 {| _value := _value this; _id := Some response_id;
                    _materializer := _materializer this;
                    _store_artifact_metadata := _store_artifact_metadata this;
                    _skip_type_checking := _skip_type_checking this |} w') ;;;
         sret response_id
   end)%S.
End ExternalArtifactMethods.

(** ** Step invocations *)

Section StepInvocationMethods.
Context `{!Environment}.

(** The invocations of [pipeline] whose template is the object at [s]. *)
Definition invocations_of (pipeline : Pipeline) (s : nat) : list StepInvocation :=
  List.filter (fun invocation => bool_decide (step invocation = s))
         (Dict.values (steps pipeline)).

(** The identifiers of the invocations of [pipeline] whose template is
    the object at [s]. *)
Definition invocation_ids (pipeline : Pipeline) (s : nat) : gset string :=
  list_to_set (map id (invocations_of pipeline s)).

(** One round of the loop over the templates given to [after]. *)
Definition hinted_round (pipeline : Pipeline) (upstream_steps_ : gset string)
    (step_ : nat) : Result (gset string) :=
  let upstream_steps_invocations := invocation_ids pipeline step_ in
  if bool_decide (size upstream_steps_invocations = 1) then
    Ok (upstream_steps_invocations ∪ upstream_steps_)
  else if bool_decide (1 < size upstream_steps_invocations) then
    Raise (RuntimeError AfterWithMultipleInvocations)
  else Ok upstream_steps_.

(** [StepInvocation._get_and_validate_step_upstream_steps]; [pipeline]
    is [self.pipeline], [template] the object [self.step]. The
    invocations of a pipeline are distinct objects, the set of those of a
    template has as many elements as the list of them. *)
Definition _get_and_validate_step_upstream_steps (self : StepInvocation)
    (pipeline : Pipeline) (template : BaseStep) : Result (gset string) :=
  ((if bool_decide (upstream_steps template ≠ ∅) then
      let invocations := invocations_of pipeline (step self) in
      if bool_decide (1 < length invocations) then
        Raise (RuntimeError AfterWithMultipleInvocations)
      else Ok tt
    else Ok tt) ;;;
   fold_result (hinted_round pipeline) (elements (upstream_steps template)) ∅)%R.

(** The property [StepInvocation.upstream_steps]. *)
Definition invocation_upstream (self : StepInvocation) (pipeline : Pipeline)
    (template : BaseStep) : Result (gset string) :=
  (hinted <~ _get_and_validate_step_upstream_steps self pipeline template ;;
   Ok (invocation_upstream_steps self ∪ hinted))%R.

(** The loop of [finalize] over the external artifacts. *)
Fixpoint upload_external_artifacts (artifacts : Dict.t nat) (ids : Dict.t UUID)
  : SE World (Dict.t UUID) :=
  match artifacts with
  | [] => sret ids
  | (key, artifact) :: rest =>
      (i <~ do_something artifact ;;
       upload_external_artifacts rest (Dict.set key i ids))%S
  end.

(** [StepInvocation.finalize]. *)
Definition finalize (self : StepInvocation) (pipeline : Pipeline)
  : SE World Config.StepConfiguration :=
  (w <~ sget ;;
   slift (_get_and_validate_step_upstream_steps self pipeline
            (step_objects w (step self))) ;;;
   on_step (step self) (configure (Kwargs.of_parameters (parameters self) true)) ;;;
   external_artifact_ids <~
     upload_external_artifacts (external_artifacts self) [] ;;
   on_step (step self)
     (_finalize_configuration (input_artifacts self) external_artifact_ids))%S.
End StepInvocationMethods.

(** ** Calling a step *)

Inductive after_argument :=
| AfterNone
| AfterStr (s : string)
| AfterSequence (l : list string).

Inductive call_result :=
| EntrypointCalled (v : value)          (* outside of a pipeline: [call_entrypoint] *)
| OutputArtifact (a : StepArtifact)
| OutputArtifacts (l : list StepArtifact).

Section StepCall.
Context `{!Environment}.

(** [BaseStep._parse_call_args]. *)
Definition _parse_call_args (self : BaseStep) (args : list call_arg)
    (kwargs : Dict.t call_arg)
  : Result (Dict.t StepArtifact * Dict.t nat * Dict.t value) :=
  let signature := get_step_entrypoint_signature self in
  match bind_partial (sig_parameters signature) args kwargs with
  | Raise _ => Raise (StepInterfaceError WrongCallArguments)
  | Ok bound_args =>
      let arguments := apply_defaults (sig_parameters signature) bound_args in
      fold_result
        (fun acc kv =>
           let '(artifacts, external_artifacts_, parameters_) := acc in
           let key := fst kv in
           (validate_input (entrypoint_definition self) key (snd kv) ;;;
            Ok match snd kv with
               | ArgStepArtifact a =>
                   (Dict.set key a artifacts, external_artifacts_, parameters_)
               | ArgExternalArtifact e =>
                   (artifacts, Dict.set key e external_artifacts_, parameters_)
               | ArgValue v =>
                   (artifacts, external_artifacts_, Dict.set key v parameters_)
               end)%R)
        arguments ([], [], [])
  end.

(** The upstream set [__call__] computes from the input artifacts and
    [after]. [set.union] returns a new set and leaves the receiver as it
    is; the statement [upstream_steps.union(after)] drops that set. *)
Definition call_upstream_steps (input_artifacts_ : Dict.t StepArtifact)
    (after_ : after_argument) : gset string :=
  let upstream_steps_ : gset string :=
    list_to_set (map invocation_id (Dict.values input_artifacts_)) in
  match after_ with
  | AfterStr s => {[s]} ∪ upstream_steps_
  | AfterSequence l =>
      let _ := upstream_steps_ ∪ list_to_set l in
      upstream_steps_
  | AfterNone => upstream_steps_
  end.

(** [BaseStep.__call__] on the step object at address [self]. *)
Definition __call__ (self : nat) (args : list call_arg) (id_ : option string)
    (after_ : after_argument) (kwargs : Dict.t call_arg) : SE World call_result :=
  (w <~ sget ;;
   match ACTIVE_PIPELINE w with
   | None =>
       (* The step is being called outside of the context of a pipeline,
          we simply call the entrypoint *)
       v <~ slift (call_entrypoint (source_code (step_objects w self)) args kwargs) ;;
       sret (EntrypointCalled v)
   | Some pipeline =>
       let this := step_objects w self in
       parsed <~ slift (_parse_call_args this args kwargs) ;;
       let '(input_artifacts_, external_artifacts_, parameters_) := parsed in
       let upstream_steps_ := call_upstream_steps input_artifacts_ after_ in
       added <~ slift
         (PipelineModel.add_step pipeline self (name this) input_artifacts_
            external_artifacts_ parameters_ upstream_steps_ id_
            (match id_ with Some "" | None => true | Some _ => false end)) ;;
       let '(invocation_id_, pipeline') := added in
       sput (W.with_pipeline (Some pipeline') w) ;;;
       let outputs_ :=
         map (fun kv => {| invocation_id := invocation_id_;
                           output_name := fst kv;
                           annotation_ := snd kv |})
             (outputs (entrypoint_definition this)) in
       match outputs_ with
       | [output] => sret (OutputArtifact output)
       | _ => sret (OutputArtifacts outputs_)
       end
   end)%S.
End StepCall.

(** ** Vocabulary of the properties *)

Definition count {A} (f : A -> bool) (l : list A) : nat := length (List.filter f l).

(** The role the analysis gives a parameter from its annotation. *)
Definition resolves_to_parameters (p : Param) : bool :=
  match param_annotation p with
  | Some a => isclass a && is_parameters_class a
  | None => false
  end.

Definition resolves_to_context (p : Param) : bool :=
  match param_annotation p with
  | Some a =>
      negb (isclass a && is_parameters_class a) && (isclass a && is_context_class a)
  | None => false
  end.

Definition is_unannotated (p : Param) : bool :=
  match param_annotation p with Some _ => false | None => true end.

Definition is_plain_input (p : Param) : bool :=
  negb (resolves_to_parameters p) && negb (resolves_to_context p).

(** A callable the analysis has to refuse. *)
Definition malformed (func : Signature) : Prop :=
  existsb is_variadic (sig_parameters func) = true
  \/ existsb is_unannotated (sig_parameters func) = true
  \/ 1 < count resolves_to_parameters (sig_parameters func)
  \/ 1 < count resolves_to_context (sig_parameters func)
  \/ sig_return_annotation func = None.

(** The interface of a well-formed callable. *)
Definition input_parameters (ps : list Param) (acc : Dict.t Param) : Dict.t Param :=
  fold_left (fun d p => Dict.set (param_name p) p d) (List.filter is_plain_input ps) acc.

Definition interface_of `{!Environment} (func : Signature) (r : return_annotation)
  : EntrypointFunctionDefinition :=
  {| inputs := input_parameters (sig_parameters func) [];
     outputs := parse_return_type_annotations r;
     context := find resolves_to_context (sig_parameters func);
     params := find resolves_to_parameters (sig_parameters func) |}.

Definition occupied {A} (o : option A) : nat :=
  match o with Some _ => 1 | None => 0 end.

(** The member types a union output is resolved through. *)
Definition union_member_types (members : list annotation) : list annotation :=
  map (fun output_type => if is_none_type output_type then TNoneType else output_type)
      (get_args (TUnion members)).

Definition is_registered `{!Environment} (t : annotation) : bool :=
  bool_decide (is_Some (materializer_types t)).


(** The update [configure(parameters=p)] applies. *)
Definition parameters_update (p : Dict.t value) : Config.StepConfigurationUpdate :=
  {| Config.enable_cache := None; Config.enable_artifact_metadata := None;
     Config.enable_artifact_visualization := None;
     Config.experiment_tracker := None; Config.step_operator := None;
     Config.parameters := Some p; Config.settings := None;
     Config.outputs := None; Config.extra := None;
     Config.failure_hook_source := None; Config.success_hook_source := None |}.

(** An entrypoint argument whose annotation is not a pydantic model. *)
Definition is_plain_argument (p : Param) : bool :=
  match param_annotation p with
  | Some a => negb (is_model_class a)
  | None => true
  end.

(** The template after [configure(parameters=p)], when the update is valid. *)
Definition configured_template (template : BaseStep) (p : Dict.t value) : BaseStep :=
  set_configuration
    (pydantic_utils.update_model (_configuration template) (parameters_update p) true)
    template.

(** ** Concrete steps and worlds *)

Module Examples.

Definition plain_class (n : string) : PyClass :=
  {| cls_name := n; cls_is_parameters := false; cls_is_context := false;
     cls_is_model := false; cls_fields := []; cls_extra_allow := false |}.

Definition int_class : PyClass := plain_class "int".
Definition str_class : PyClass := plain_class "str".
Definition bytes_class : PyClass := plain_class "bytes".

Definition step_context_class : PyClass :=
  {| cls_name := "StepContext"; cls_is_parameters := false; cls_is_context := true;
     cls_is_model := false; cls_fields := []; cls_extra_allow := false |}.

Definition builtin_materializer : MaterializerClass :=
  {| mat_import_path := "zenml.materializers.BuiltInMaterializer";
     mat_source_code := "class BuiltInMaterializer";
     mat_artifact_type := "data" |}.

(** An environment in which [int], [str] and [type(None)] have a
    materializer, every source is a materializer, every value is valid
    and every entrypoint returns [None]. *)
Definition environment : Environment :=
  {| SINGLE_RETURN_OUT_NAME := "output";
     STEP_SOURCE_PARAMETER_NAME := "step_source";
     materializer_types := fun a =>
       match a with
       | TNoneType => Some builtin_materializer
       | TClass c =>
           if String.eqb (cls_name c) "int" || String.eqb (cls_name c) "str"
           then Some builtin_materializer else None
       | _ => None
       end;
     load := fun s =>
       {| mat_import_path := s; mat_source_code := s; mat_artifact_type := "data" |};
     validate_source_class := fun _ => true;
     hash_source_code := fun s => String.append "sha256:" s;
     md5_hexdigest := fun s => String.append "md5:" s;
     pydantic_validates := fun _ _ => true;
     instantiate_model := fun _ d => Some d;
     valid_setting_key := fun _ => true;
     resolve_and_validate_hook := fun s => Some s;
     type_of := fun v =>
       match v with
       | VNone => TNoneType
       | VInt _ => TClass int_class
       | VStr _ => TClass str_class
       | _ => TClass bytes_class
       end;
     call_entrypoint := fun _ _ _ => Ok VNone |}.

Definition input_param (n : string) (a : annotation) : Param :=
  {| param_name := n; param_kind := POSITIONAL_OR_KEYWORD;
     param_annotation := Some a; param_default := None |}.

(** [def trainer(a: int, b: int) -> int]. *)
Definition trainer_class : StepClass :=
  {| step_class_name := "trainer";
     step_source_code := "def trainer(a: int, b: int) -> int";
     step_entrypoint :=
       {| sig_parameters := [input_param "a" (TClass int_class);
                             input_param "b" (TClass int_class)];
          sig_return_annotation := Some (ReturnType (TClass int_class)) |} |}.

(** [def loader() -> int]. *)
Definition loader_class : StepClass :=
  {| step_class_name := "loader";
     step_source_code := "def loader() -> int";
     step_entrypoint :=
       {| sig_parameters := [];
          sig_return_annotation := Some (ReturnType (TClass int_class)) |} |}.

(** [def reporter(context: StepContext, a: int) -> int]. *)
Definition reporter_class : StepClass :=
  {| step_class_name := "reporter";
     step_source_code := "def reporter(context: StepContext, a: int) -> int";
     step_entrypoint :=
       {| sig_parameters := [input_param "context" (TClass step_context_class);
                             input_param "a" (TClass int_class)];
          sig_return_annotation := Some (ReturnType (TClass int_class)) |} |}.

(** [def consumer(data: bytes) -> int]. *)
Definition consumer_class : StepClass :=
  {| step_class_name := "consumer";
     step_source_code := "def consumer(data: bytes) -> int";
     step_entrypoint :=
       {| sig_parameters := [input_param "data" (TClass bytes_class)];
          sig_return_annotation := Some (ReturnType (TClass int_class)) |} |}.

(** A step the constructor did not produce stands for a constructor
    failure; the steps below are all produced by it. *)
Definition create (cls : StepClass) (kw : Kwargs.t) : BaseStep :=
  match __init__ (H := environment) cls [] kw [] with
  | Ok self => self
  | Raise _ =>
      {| class_name := ""; source_code := "";
         entrypoint := {| sig_parameters := []; sig_return_annotation := None |};
         _upstream_steps := ∅;
         entrypoint_definition :=
           {| inputs := []; outputs := []; context := None; params := None |};
         _configuration :=
           {| Config.name := ""; Config.fields := Config.empty_update;
              Config.caching_parameters := None;
              Config.external_input_artifacts := None |} |}
  end.

(** [trainer(parameters={"a": 1})], [loader()], [reporter()], [consumer()]. *)
Definition trainer : BaseStep :=
  create trainer_class (Kwargs.of_parameters [("a", VInt 1)] true).
Definition loader : BaseStep := create loader_class Kwargs.defaults.
Definition reporter : BaseStep := create reporter_class Kwargs.defaults.
Definition consumer : BaseStep := create consumer_class Kwargs.defaults.

Definition empty_pipeline : Pipeline := {| steps := [] |}.

(** A world with the trainer at address 0, the loader at 1, the reporter
    at 2 and the consumer at 3, an external artifact holding [b"abc"]
    with an explicit materializer at address 0, and an active pipeline. *)
Definition raw_artifact : ExternalArtifact :=
  {| _value := VObject 7; _id := None;
     _materializer := Some (MatClass builtin_materializer);
     _store_artifact_metadata := true; _skip_type_checking := false |}.

Definition world : World :=
  {| step_objects := fun a =>
       match a with
       | 0 => trainer
       | 1 => loader
       | 2 => reporter
       | _ => consumer
       end;
     artifact_objects := fun _ => raw_artifact;
     ACTIVE_PIPELINE := Some empty_pipeline;
     active_artifact_store_id := 100;
     active_artifact_store_path := "/store";
     active_user_id := 101;
     active_workspace_id := 102;
     zen_store := ∅;
     files := ∅;
     next_uuid := 1;
     trace := [] |}.

(** The pipeline after [loader()], [loader()] and [trainer(b=2)]. *)
Definition call (a : nat) (after_ : after_argument) (kwargs : Dict.t call_arg)
    (w : World) : World :=
  snd (__call__ (H := environment) a [] None after_ kwargs w).

Definition built_world : World :=
  call 0 AfterNone [("b", ArgValue (VInt 2))]
    (call 1 AfterNone [] (call 1 AfterNone [] world)).

Definition built_pipeline : Pipeline :=
  default empty_pipeline (ACTIVE_PIPELINE built_world).

Definition trainer_invocation : StepInvocation :=
  {| id := "trainer"; step := 0; input_artifacts := [];
     external_artifacts := []; parameters := [("b", VInt 2)];
     invocation_upstream_steps := ∅ |}.

Definition loader_invocation : StepInvocation :=
  {| id := "loader"; step := 1; input_artifacts := [];
     external_artifacts := []; parameters := [];
     invocation_upstream_steps := ∅ |}.

(** The same world after [trainer.after(loader)] and after
    [loader.after(trainer)]. *)
Definition trainer_after_loader : World :=
  W.with_step 0 (after 1 trainer) built_world.
Definition loader_after_trainer : World :=
  W.with_step 1 (after 0 loader) built_world.

(** A loader whose output has an explicit materializer. *)
Definition explicit_loader : BaseStep :=
  create loader_class
    {| Kwargs.name := None; Kwargs.enable_cache := None;
       Kwargs.enable_artifact_metadata := None;
       Kwargs.enable_artifact_visualization := None;
       Kwargs.experiment_tracker := None; Kwargs.step_operator := None;
       Kwargs.parameters := None;
       Kwargs.output_materializers :=
         Some (ForAllOutputs (One (MatSource "my.module.MyMaterializer")));
       Kwargs.settings := None; Kwargs.extra := None;
       Kwargs.on_failure := None; Kwargs.on_success := None;
       Kwargs.merge := true |}.


End Examples.


(** ** Further vocabulary *)

(** A reserved argument name that a parameter of the callable bears. *)
Definition is_reserved_parameter (func : Signature) (arg : string) : bool :=
  existsb (fun p => String.eqb arg (param_name p)) (sig_parameters func).

(** An annotation the typing module would still report an origin class
    for. *)
Definition is_generic_alias (a : annotation) : bool :=
  match a with TAlias _ _ => true | _ => false end.

(** The outputs a return annotation declares, before they are resolved:
    none for [None], one under the default name for a type, those of an
    [Output]. *)
Definition declared_outputs `{!Environment} (r : return_annotation)
  : Dict.t annotation :=
  match r with
  | ReturnType TNone => []
  | ReturnType a => [(SINGLE_RETURN_OUT_NAME, a)]
  | ReturnOutput items => items
  end.

(** The artifacts a call returns. *)
Definition result_artifacts (r : call_result) : list StepArtifact :=
  match r with
  | EntrypointCalled _ => []
  | OutputArtifact a => [a]
  | OutputArtifacts l => l
  end.

(** What configuring a step leaves alone: its class, its source, its
    entrypoint and the analysis of it, its upstream steps, its name. *)
Definition step_frame (self self' : BaseStep) : Prop :=
  class_name self' = class_name self
  /\ source_code self' = source_code self
  /\ entrypoint self' = entrypoint self
  /\ _upstream_steps self' = _upstream_steps self
  /\ entrypoint_definition self' = entrypoint_definition self
  /\ Config.name (_configuration self') = Config.name (_configuration self).

(** The name [__init__] gives a step: [name or self.__class__.__name__]. *)
Definition initial_name (cls : StepClass) (kw : Kwargs.t) : string :=
  match Kwargs.name kw with
  | Some "" | None => step_class_name cls
  | Some n => n
  end.

(** A configuration that stays within the interface of the step: the
    configured outputs are outputs of the entrypoint and, when the
    entrypoint has no parameters object, the configured parameters are
    inputs of the entrypoint. *)
Definition within_interface (self : BaseStep) : Prop :=
  (forall key, In key (Dict.keys (Config.get_outputs (configuration self))) ->
               In key (Dict.keys (outputs (entrypoint_definition self))))
  /\ (params (entrypoint_definition self) = None ->
      forall key, In key (Dict.keys (Config.get_parameters (configuration self))) ->
                  In key (Dict.keys (inputs (entrypoint_definition self)))).

(** The three dictionaries [_parse_call_args] returns hold inputs of the
    entrypoint only, JSON-serializable parameter values only, and no key
    is in two of them. *)
Definition parsed_within (definition : EntrypointFunctionDefinition)
    (parsed : Dict.t StepArtifact * Dict.t nat * Dict.t value) : Prop :=
  let '(artifacts, external_artifacts_, parameters_) := parsed in
  (forall key, In key (Dict.keys artifacts) \/ In key (Dict.keys external_artifacts_)
               \/ In key (Dict.keys parameters_) ->
               Dict.contains key (inputs definition) = true)
  /\ Forall (fun kv => is_json_serializable (snd kv) = true) parameters_
  /\ (forall key, ~ (In key (Dict.keys artifacts)
                     /\ In key (Dict.keys external_artifacts_)))
  /\ (forall key, ~ (In key (Dict.keys artifacts)
                     /\ In key (Dict.keys parameters_)))
  /\ (forall key, ~ (In key (Dict.keys external_artifacts_)
                     /\ In key (Dict.keys parameters_))).

(** One round of the loop of [_parse_call_args] over the bound arguments. *)
Definition parse_round `{!Environment} (definition : EntrypointFunctionDefinition)
    (acc : Dict.t StepArtifact * Dict.t nat * Dict.t value)
    (kv : string * call_arg)
  : Result (Dict.t StepArtifact * Dict.t nat * Dict.t value) :=
  let '(artifacts, external_artifacts_, parameters_) := acc in
  let key := fst kv in
  (validate_input definition key (snd kv) ;;;
   Ok match snd kv with
      | ArgStepArtifact a =>
          (Dict.set key a artifacts, external_artifacts_, parameters_)
      | ArgExternalArtifact e =>
          (artifacts, Dict.set key e external_artifacts_, parameters_)
      | ArgValue v =>
          (artifacts, external_artifacts_, Dict.set key v parameters_)
      end)%R.

(** The parameters given under the name of the parameters object: the
    mapping configured there, or the empty mapping. *)
Definition params_defined_in_new_way (self : BaseStep) (p : Param) : Dict.t value :=
  match Dict.get (param_name p) (Config.get_parameters (configuration self)) with
  | Some (VDict d) => d
  | _ => []
  end.

(** Nothing, [None] or a mapping is configured under the name of the
    parameters object. *)
Definition new_way_is_mapping (self : BaseStep) (p : Param) : Prop :=
  match Dict.get (param_name p) (Config.get_parameters (configuration self)) with
  | None | Some VNone | Some (VDict _) => True
  | Some _ => False
  end.

(** One round of the loop of [_finalize_legacy_parameters] over the
    fields of the parameters class. *)
Definition legacy_round (configured new_way : Dict.t value)
    (acc : Dict.t value * list string) (field : ModelField)
  : Dict.t value * list string :=
  let name := field_name field in
  match Dict.get name configured with
  | Some v => (Dict.set name v acc.1, acc.2)
  | None =>
      match Dict.get name new_way with
      | Some v => (Dict.set name v acc.1, acc.2)
      | None =>
          if field_required field then (acc.1, acc.2 ++ [name])
          else (Dict.set name (field_default field) acc.1, acc.2)
      end
  end.

(** A required field without a value: none is configured under its
    name, none given under the name of the parameters object. *)
Definition is_missing (configured new_way : Dict.t value) (field : ModelField) : bool :=
  field_required field
  && negb (Dict.contains (field_name field) configured
           || Dict.contains (field_name field) new_way).

(** The required fields of the parameters class that have no value, in
    the order of their declaration. *)
Definition missing_fields (self : BaseStep) (p : Param) (c : PyClass) : list string :=
  map field_name
    (List.filter
       (is_missing (Config.get_parameters (configuration self))
                   (params_defined_in_new_way self p))
       (cls_fields c)).

(** The location [do_something] uploads to in a world: the directory
    [external_artifacts/external_<uuid4()>] of the active artifact store. *)
Definition upload_location (w : World) : string :=
  String.append (active_artifact_store_path w)
    (String.append "/external_artifacts/"
       (String.append "external_" (pretty (next_uuid w)))).

(** Nothing was written between two worlds: the metadata store, the
    files of the artifact store, the artifacts, the step objects and the
    active pipeline are the same. *)
Definition nothing_written (w w' : World) : Prop :=
  zen_store w' = zen_store w
  /\ files w' = files w
  /\ artifact_objects w' = artifact_objects w
  /\ step_objects w' = step_objects w
  /\ ACTIVE_PIPELINE w' = ACTIVE_PIPELINE w.

(** ** More concrete steps and worlds *)

Module MoreExamples.
Import Examples.

(** [def broken(a) -> int]: the argument has no annotation. *)
Definition broken_class : StepClass :=
  {| step_class_name := "broken";
     step_source_code := "def broken(a) -> int";
     step_entrypoint :=
       {| sig_parameters :=
            [{| param_name := "a"; param_kind := POSITIONAL_OR_KEYWORD;
                param_annotation := None; param_default := None |}];
          sig_return_annotation := Some (ReturnType (TClass int_class)) |} |}.

(** [class TrainerParameters(BaseParameters)] with a required field [lr]
    and a field [epochs] that defaults to 10. *)
Definition trainer_parameters_class : PyClass :=
  {| cls_name := "TrainerParameters"; cls_is_parameters := true;
     cls_is_context := false; cls_is_model := true;
     cls_fields :=
       [{| field_name := "lr"; field_required := true; field_default := VNone |};
        {| field_name := "epochs"; field_required := false;
           field_default := VInt 10 |}];
     cls_extra_allow := false |}.

(** [def legacy(params: TrainerParameters, a: int) -> int]. *)
Definition legacy_class : StepClass :=
  {| step_class_name := "legacy";
     step_source_code := "def legacy(params: TrainerParameters, a: int) -> int";
     step_entrypoint :=
       {| sig_parameters :=
            [input_param "params" (TClass trainer_parameters_class);
             input_param "a" (TClass int_class)];
          sig_return_annotation := Some (ReturnType (TClass int_class)) |} |}.

(** [legacy()], created without a parameters object. *)
Definition legacy : BaseStep := create legacy_class Kwargs.defaults.

(** [def opaque() -> Any]. *)
Definition opaque_class : StepClass :=
  {| step_class_name := "opaque";
     step_source_code := "def opaque() -> Any";
     step_entrypoint :=
       {| sig_parameters := [];
          sig_return_annotation := Some (ReturnType TAny) |} |}.

Definition opaque : BaseStep := create opaque_class Kwargs.defaults.

(** The world in which the location of the next upload exists. *)
Definition occupied_world : World :=
  W.with_services ∅ {["/store/external_artifacts/external_1"]} 1 [] world.

(** An artifact that refers to the record 5, at address 1. *)
Definition referenced_artifact : ExternalArtifact :=
  {| _value := VNone; _id := Some 5; _materializer := None;
     _store_artifact_metadata := true; _skip_type_checking := false |}.

Definition referencing_world : World := W.with_artifact 1 referenced_artifact world.

(** An invocation of the trainer that is given the raw artifact twice,
    as [a] and as [b]. *)
Definition external_invocation : StepInvocation :=
  {| id := "trainer"; step := 0; input_artifacts := [];
     external_artifacts := [("a", 0); ("b", 0)]; parameters := [];
     invocation_upstream_steps := ∅ |}.
End MoreExamples.
(** * Properties *)

(** ** Dictionaries *)

Module DictFacts.
Import Dict.

Lemma get_set_eq {V} k (v : V) d : get k (set k v d) = Some v.
Proof.
  induction d as [|[k' v'] d IH]; simpl.
  - now rewrite String.eqb_refl.
  - destruct (String.eqb k k') eqn:E; simpl; rewrite ?String.eqb_refl, ?E; auto.
Qed.

Lemma get_set_ne {V} k k' (v : V) d : k <> k' -> get k' (set k v d) = get k' d.
Proof.
  intros Hne. induction d as [|[k0 v0] d IH]; simpl.
  - destruct (String.eqb_spec k' k); congruence.
  - destruct (String.eqb_spec k k0) as [->|Hk]; simpl.
    + destruct (String.eqb_spec k' k0); congruence.
    + destruct (String.eqb_spec k' k0); auto.
Qed.

Lemma contains_In {V} k (d : t V) : contains k d = true <-> In k (keys d).
Proof.
  unfold contains, keys. induction d as [|[k' v'] d IH]; simpl.
  - split; [discriminate | tauto].
  - destruct (String.eqb_spec k k') as [->|Hk].
    + split; auto.
    + rewrite IH. split; [tauto | intros [?|?]; congruence].
Qed.

Lemma get_None_not_In {V} k (d : t V) : get k d = None <-> ~ In k (keys d).
Proof.
  rewrite <- contains_In. unfold contains. destruct (get k d); split; try congruence.
Qed.

Lemma keys_set {V} k (v : V) d :
  keys (set k v d) = if contains k d then keys d else keys d ++ [k].
Proof.
  unfold contains, keys. induction d as [|[k' v'] d IH]; simpl; [reflexivity|].
  destruct (String.eqb_spec k k') as [->|Hk]; simpl; [reflexivity|].
  rewrite IH. destruct (get k d); reflexivity.
Qed.

Lemma NoDup_keys_set {V} k (v : V) d : List.NoDup (keys d) -> List.NoDup (keys (set k v d)).
Proof.
  intros Hd. rewrite keys_set. destruct (contains k d) eqn:E; [assumption|].
  assert (~ In k (keys d)) as Hn by (rewrite <- contains_In; congruence).
  clear E. induction (keys d) as [|x l IH]; simpl.
  - constructor; [tauto | constructor].
  - inversion Hd; subst. constructor.
    + rewrite in_app_iff. simpl in *. intuition congruence.
    + apply IH; [assumption | simpl in Hn; tauto].
Qed.

Lemma set_fresh {V} k (v : V) d : ~ In k (keys d) -> set k v d = d ++ [(k, v)].
Proof.
  unfold keys. induction d as [|[k' v'] d IH]; simpl; intros Hn; [reflexivity|].
  destruct (String.eqb_spec k k') as [->|Hk]; [tauto|].
  rewrite IH by tauto. reflexivity.
Qed.

(** Reading a key after a loop of assignments that leaves it alone. *)
Lemma get_fold_set_other {V A} (kf : A -> string) (vf : A -> t V -> V) k l :
  forall d : t V,
  (forall x, In x l -> kf x <> k) ->
  get k (fold_left (fun acc x => set (kf x) (vf x acc) acc) l d) = get k d.
Proof.
  induction l as [|x l IH]; intros d Hk; simpl; [reflexivity|].
  rewrite IH by (intros; apply Hk; simpl; auto).
  apply get_set_ne, Hk. simpl; auto.
Qed.
End DictFacts.



(** ** Signature analysis *)

Section Analysis.
Context `{!Environment}.

Lemma count_cons {A} (f : A -> bool) x l :
  count f (x :: l) = (if f x then 1 else 0) + count f l.
Proof. unfold count. simpl. destruct (f x); reflexivity. Qed.

Ltac pick_disjunct :=
  first [ assumption | lia
        | left; pick_disjunct
        | right; pick_disjunct ].

(** The loop over the parameters, whatever it has accumulated so far. *)
Lemma validate_parameters_spec ps : forall inputs0 ctx prm,
  match validate_parameters ps inputs0 ctx prm with
  | Ok (i, c, p) =>
      existsb is_variadic ps = false
      /\ existsb is_unannotated ps = false
      /\ count resolves_to_parameters ps + occupied prm <= 1
      /\ count resolves_to_context ps + occupied ctx <= 1
      /\ i = input_parameters ps inputs0
      /\ c = match ctx with Some x => Some x | None => find resolves_to_context ps end
      /\ p = match prm with Some x => Some x | None => find resolves_to_parameters ps end
  | Raise e =>
      (exists ie, e = StepInterfaceError ie)
      /\ (existsb is_variadic ps = true
          \/ existsb is_unannotated ps = true
          \/ 1 < count resolves_to_parameters ps + occupied prm
          \/ 1 < count resolves_to_context ps + occupied ctx)
  end.
Proof.
  induction ps as [|q ps IH]; intros inputs0 ctx prm.
  - unfold count; destruct prm, ctx; simpl; repeat split; lia.
  - cbn [validate_parameters existsb find].
    rewrite !count_cons. unfold input_parameters. cbn [List.filter].
    destruct (is_variadic q) eqn:Hv.
    { split; [eauto | left; reflexivity]. }
    destruct (param_annotation q) as [a|] eqn:Ha.
    2:{ assert (is_unannotated q = true) as ->
          by (unfold is_unannotated; rewrite Ha; reflexivity).
        split; [eauto | right; left; reflexivity]. }
    assert (is_unannotated q = false) as ->
      by (unfold is_unannotated; rewrite Ha; reflexivity).
    assert (resolves_to_parameters q = isclass a && is_parameters_class a) as Hrp
      by (unfold resolves_to_parameters; rewrite Ha; reflexivity).
    assert (resolves_to_context q =
            negb (isclass a && is_parameters_class a)
            && (isclass a && is_context_class a)) as Hrc
      by (unfold resolves_to_context; rewrite Ha; reflexivity).
    unfold is_plain_input at 1. rewrite Hrp, Hrc.
    destruct (isclass a && is_parameters_class a) eqn:Hp; cbn [negb andb orb].
    + destruct prm as [p0|].
      * split; [eauto | right; right; left; simpl; lia].
      * specialize (IH inputs0 ctx (Some q)).
        destruct (validate_parameters ps inputs0 ctx (Some q)) as [[[i c] p]|e].
        -- destruct IH as (?&?&?&?&?&?&?). simpl in *.
           repeat split; try assumption; lia.
        -- destruct IH as [He IH]. split; [assumption|]. simpl in *.
           destruct IH as [?|[?|[?|?]]]; pick_disjunct.
    + destruct (isclass a && is_context_class a) eqn:Hc; cbn [negb andb orb].
      * destruct ctx as [c0|].
        -- split; [eauto | right; right; right; simpl; lia].
        -- specialize (IH inputs0 (Some q) prm).
           destruct (validate_parameters ps inputs0 (Some q) prm) as [[[i c] p]|e].
           ++ destruct IH as (?&?&?&?&?&?&?). simpl in *.
              repeat split; try assumption; lia.
           ++ destruct IH as [He IH]. split; [assumption|]. simpl in *.
              destruct IH as [?|[?|[?|?]]]; pick_disjunct.
      * specialize (IH (Dict.set (param_name q) q inputs0) ctx prm).
        destruct (validate_parameters ps (Dict.set (param_name q) q inputs0) ctx prm)
          as [[[i c] p]|e].
        -- destruct IH as (?&?&?&?&?&?&?). simpl in *.
           repeat split; assumption.
        -- destruct IH as [He IH]. split; [assumption|]. simpl in *.
           destruct IH as [?|[?|[?|?]]]; pick_disjunct.
Qed.

(** The analysis, result by result. *)
Lemma validate_entrypoint_function_spec (func : Signature) :
  match validate_entrypoint_function func [] with
  | Raise e => malformed func /\ exists ie, e = StepInterfaceError ie
  | Ok definition =>
      ~ malformed func
      /\ exists r, sig_return_annotation func = Some r
                   /\ definition = interface_of func r
  end.
Proof.
  unfold validate_entrypoint_function. simpl.
  pose proof (validate_parameters_spec (sig_parameters func) [] None None) as Hs.
  unfold occupied in Hs.
  destruct (validate_parameters (sig_parameters func) [] None None)
    as [[[i c] p]|e].
  - destruct Hs as (Hv & Hu & Hp & Hc & -> & -> & ->).
    destruct (sig_return_annotation func) as [r|] eqn:Hr.
    + split.
      * unfold malformed. rewrite Hv, Hu, Hr.
        intros [?|[?|[?|[?|?]]]]; try discriminate; lia.
      * exists r. split; reflexivity.
    + split; [|eauto]. unfold malformed. rewrite Hr. tauto.
  - destruct Hs as [He Hs]. split; [|assumption].
    unfold malformed. destruct Hs as [?|[?|[?|?]]]; auto.
    + right; right; left. lia.
    + right; right; right; left. lia.
Qed.

(** The inputs of a callable whose parameters have distinct names, as
    Python has them, are its plain parameters in their order. *)
Lemma input_parameters_distinct ps : forall acc,
  List.NoDup (Dict.keys acc ++ map param_name ps) ->
  input_parameters ps acc
  = acc ++ map (fun p => (param_name p, p)) (List.filter is_plain_input ps).
Proof.
  unfold input_parameters.
  induction ps as [|q ps IH]; intros acc Hnd; simpl.
  - now rewrite app_nil_r.
  - simpl in Hnd.
    pose proof (List.NoDup_remove_1 _ _ _ Hnd) as Hnd'.
    pose proof (List.NoDup_remove_2 _ _ _ Hnd) as Hfresh.
    destruct (is_plain_input q); simpl; [|now apply IH].
    assert (~ In (param_name q) (Dict.keys acc)) as Hacc
      by (intros Hin; apply Hfresh, in_or_app; now left).
    rewrite DictFacts.set_fresh by assumption.
    rewrite IH.
    + now rewrite <- app_assoc.
    + unfold Dict.keys in *. rewrite map_app. simpl. rewrite <- app_assoc. simpl.
      exact Hnd.
Qed.

End Analysis.

(** ** Applying configuration updates *)

Section Configuration.
Context `{!Environment}.

Lemma replace_twice {A} (base update : option A) :
  pydantic_utils.replace (pydantic_utils.replace base update) update
  = pydantic_utils.replace base update.
Proof. destruct update; reflexivity. Qed.

Lemma update_model_override_twice base u :
  pydantic_utils.update_model (pydantic_utils.update_model base u false) u false
  = pydantic_utils.update_model base u false.
Proof.
  unfold pydantic_utils.update_model, pydantic_utils.update_fields. simpl.
  now rewrite !replace_twice.
Qed.

(** Validation of an update reads the interface of the step only. *)
Lemma validate_configuration_set_configuration c self config :
  _validate_configuration (set_configuration c self) config
  = _validate_configuration self config.
Proof. reflexivity. Qed.

Lemma apply_configuration_override_twice
    (u : Config.StepConfigurationUpdate) (self : BaseStep) :
  (_apply_configuration u false ;;; _apply_configuration u false)%S self
  = _apply_configuration u false self.
Proof.
  unfold _apply_configuration, sbind, sget, slift, sput. simpl.
  destruct (_validate_configuration self u) eqn:Hv; simpl; [|reflexivity].
  rewrite validate_configuration_set_configuration, Hv. simpl.
  rewrite update_model_override_twice. reflexivity.
Qed.

(** [configure], hook by hook. *)
Lemma configure_unfold (kw : Kwargs.t) (self : BaseStep) :
  configure kw self =
  match resolve_hook (Kwargs.on_failure kw) with
  | Raise e => (Raise e, self)
  | Ok f =>
      match resolve_hook (Kwargs.on_success kw) with
      | Raise e => (Raise e, self)
      | Ok s =>
          _apply_configuration (configuration_update self kw f s)
                               (Kwargs.merge kw) self
      end
  end.
Proof.
  unfold configure, sbind, sget, slift. simpl.
  destruct (resolve_hook (Kwargs.on_failure kw)); [|reflexivity].
  destruct (resolve_hook (Kwargs.on_success kw)); reflexivity.
Qed.

Lemma apply_configuration_unfold config merge (self : BaseStep) :
  _apply_configuration config merge self =
  match _validate_configuration self config with
  | Ok _ =>
      (Ok tt, set_configuration
                (pydantic_utils.update_model (_configuration self) config merge) self)
  | Raise e => (Raise e, self)
  end.
Proof.
  unfold _apply_configuration, sbind, sget, slift, sput. simpl.
  destruct (_validate_configuration self config); reflexivity.
Qed.

(** What a configuration update leaves alone. *)
Lemma apply_configuration_frame config merge (self self' : BaseStep) r :
  _apply_configuration config merge self = (r, self') ->
  class_name self' = class_name self
  /\ source_code self' = source_code self
  /\ entrypoint self' = entrypoint self
  /\ _upstream_steps self' = _upstream_steps self
  /\ entrypoint_definition self' = entrypoint_definition self
  /\ Config.name (_configuration self') = Config.name (_configuration self).
Proof.
  rewrite apply_configuration_unfold.
  destruct (_validate_configuration self config); intros [= <- <-]; repeat split.
Qed.

Lemma configure_frame kw (self self' : BaseStep) r :
  configure kw self = (r, self') ->
  class_name self' = class_name self
  /\ source_code self' = source_code self
  /\ entrypoint self' = entrypoint self
  /\ _upstream_steps self' = _upstream_steps self
  /\ entrypoint_definition self' = entrypoint_definition self
  /\ Config.name (_configuration self') = Config.name (_configuration self).
Proof.
  rewrite configure_unfold.
  destruct (resolve_hook (Kwargs.on_failure kw));
    [|intros [= <- <-]; repeat split].
  destruct (resolve_hook (Kwargs.on_success kw));
    [|intros [= <- <-]; repeat split].
  apply apply_configuration_frame.
Qed.

(** [configure] with [merge=False], twice. *)
Lemma configure_override_idempotent (kw : Kwargs.t) (self : BaseStep) :
  Kwargs.merge kw = false ->
  (configure kw ;;; configure kw)%S self = configure kw self.
Proof.
  intros Hm. unfold sbind.
  destruct (configure kw self) as [[[]|e] s'] eqn:Hc; [|reflexivity].
  pose proof (configure_frame _ _ _ _ Hc) as (_ & _ & _ & _ & Hd & _).
  rewrite configure_unfold in Hc |- *. rewrite Hm in *.
  destruct (resolve_hook (Kwargs.on_failure kw)) as [f|]; [|discriminate].
  destruct (resolve_hook (Kwargs.on_success kw)) as [s|]; [|discriminate].
  assert (configuration_update s' kw f s = configuration_update self kw f s) as ->
    by (unfold configuration_update, configure_outputs; now rewrite Hd).
  pose proof (apply_configuration_override_twice
                (configuration_update self kw f s) self) as Hi.
  unfold sbind in Hi. rewrite Hc in Hi. exact Hi.
Qed.
(** [configure(parameters=p, merge=m)] applies the update of the
    parameters. *)
Lemma configure_parameters p m (self : BaseStep) :
  configure (Kwargs.of_parameters p m) self
  = _apply_configuration (parameters_update p) m self.
Proof. rewrite configure_unfold. reflexivity. Qed.

(** C9. Applying an update [u] without merging is idempotent: on the
    configurations, [merge (merge base u false) u false] is
    [merge base u false], and applying [u] to a step twice, validation
    included, leaves the step as one application does. *)
Theorem apply_configuration_override_idempotent
    (u : Config.StepConfigurationUpdate) (self : BaseStep) :
  (forall base,
      pydantic_utils.update_model (pydantic_utils.update_model base u false) u false
      = pydantic_utils.update_model base u false)
  /\ (_apply_configuration u false ;;; _apply_configuration u false)%S self
     = _apply_configuration u false self.
Proof.
  split; [intros; apply update_model_override_twice|].
  apply apply_configuration_override_twice.
Qed.
End Configuration.

(** ** Creating a step *)

Section Creation.
Context `{!Environment}.

Lemma configure_enable_cache kw (self self' : BaseStep) r :
  Kwargs.enable_cache kw = None ->
  configure kw self = (r, self') ->
  Config.enable_cache (Config.fields (_configuration self'))
  = Config.enable_cache (Config.fields (_configuration self)).
Proof.
  intros Hk. rewrite configure_unfold.
  destruct (resolve_hook (Kwargs.on_failure kw)); [|now intros [= <- <-]].
  destruct (resolve_hook (Kwargs.on_success kw)); [|now intros [= <- <-]].
  rewrite apply_configuration_unfold.
  destruct (_validate_configuration _ _); intros [= <- <-]; [|reflexivity].
  simpl. now rewrite Hk.
Qed.

Lemma verify_and_apply_init_params_enable_cache args kwargs (self self' : BaseStep) r :
  _verify_and_apply_init_params args kwargs self = (r, self') ->
  Config.enable_cache (Config.fields (_configuration self'))
  = Config.enable_cache (Config.fields (_configuration self)).
Proof.
  unfold _verify_and_apply_init_params, sbind, sget, sraise, sret. simpl.
  destruct (bool_decide _); [now intros [= <- <-]|].
  destruct (params (entrypoint_definition self)) as [p|]; [|now intros [= <- <-]].
  assert (forall config : ParametersObject,
             (if negb (isinstance config (param_annotation p))
              then fun s : BaseStep => (Raise (StepInterfaceError WrongParametersObject), s)
              else configure (Kwargs.of_parameters (obj_dict config) true)) self
             = (r, self') ->
             Config.enable_cache (Config.fields (_configuration self'))
             = Config.enable_cache (Config.fields (_configuration self))) as Happly.
  { intros config. destruct (negb _); [now intros [= <- <-]|].
    now apply configure_enable_cache. }
  destruct args as [|config args].
  - destruct (last kwargs) as [[key config]|]; [|now intros [= <- <-]].
    destruct (negb (String.eqb key (param_name p))); [now intros [= <- <-]|].
    apply Happly.
  - apply Happly.
Qed.

Lemma find_existsb {A} (f : A -> bool) l :
  bool_decide (is_Some (find f l)) = existsb f l.
Proof.
  induction l as [|x l IH]; simpl; [reflexivity|].
  destruct (f x); [reflexivity | exact IH].
Qed.

(** C10. A step created without an explicit [enable_cache] has caching
    disabled in its configuration when its entrypoint declares a context
    parameter, and [enable_cache] unset when it declares none. *)
Theorem init_enable_cache_default (cls : StepClass)
    (args : list ParametersObject) (kw : Kwargs.t)
    (kwargs : Dict.t ParametersObject) (self : BaseStep) :
  Kwargs.enable_cache kw = None ->
  __init__ cls args kw kwargs = Ok self ->
  Config.enable_cache (Config.fields (configuration self))
  = if existsb resolves_to_context (sig_parameters (step_entrypoint cls))
    then Some false else None.
Proof.
  intros Hk. unfold __init__, rbind.
  pose proof (validate_entrypoint_function_spec (step_entrypoint cls)) as Hv.
  destruct (validate_entrypoint_function (step_entrypoint cls) []) as [d|];
    [|discriminate].
  destruct Hv as (_ & r & _ & ->). rewrite Hk.
  unfold sbind.
  match goal with
  | |- context [configure ?k ?s] =>
      destruct (configure k s) as [[[]|e] s1] eqn:Hc; [|discriminate];
      apply configure_enable_cache in Hc; [|reflexivity]
  end.
  destruct (_verify_and_apply_init_params args kwargs s1) as [[[]|e] s2] eqn:Hi;
    [|discriminate].
  apply verify_and_apply_init_params_enable_cache in Hi.
  intros [= <-]. unfold configuration. rewrite Hi, Hc. simpl.
  rewrite find_existsb.
  destruct (existsb resolves_to_context _); reflexivity.
Qed.
End Creation.

(** ** Calling a step inside a pipeline *)

Section Call.
Context `{!Environment}.

Lemma call_upstream_steps_artifacts ia after_ (a : StepArtifact) :
  In a (Dict.values ia) -> invocation_id a ∈ call_upstream_steps ia after_.
Proof.
  intros Hin.
  assert (invocation_id a ∈ (list_to_set (map invocation_id (Dict.values ia)) : gset string)).
  { rewrite elem_of_list_to_set, list_elem_of_In. now apply in_map. }
  unfold call_upstream_steps.
  destruct after_; rewrite ?elem_of_union; auto.
Qed.

Lemma call_upstream_steps_after_str ia s : s ∈ call_upstream_steps ia (AfterStr s).
Proof. unfold call_upstream_steps. set_solver. Qed.

Lemma call_upstream_steps_after_sequence ia l :
  call_upstream_steps ia (AfterSequence l) = call_upstream_steps ia AfterNone.
Proof. reflexivity. Qed.
End Call.

(** C1. The upstream set a call passes to the pipeline holds the owners
    of the input artifacts and an identifier given as [after="..."]; the
    identifiers of a sequence given as [after=[...]] are left out: a
    trainer called with [after=["loader"]] in a pipeline that has the
    invocation "loader" is registered with an empty upstream set. *)
Theorem call_after_sequence_dropped :
  (forall (env : Environment) ia l,
      call_upstream_steps ia (AfterSequence l) = call_upstream_steps ia AfterNone)
  /\ let env := Examples.environment in
     let w1 := snd (__call__ 1 [] None AfterNone [] Examples.world) in
     let w2 := snd (__call__ 0 [] None (AfterSequence ["loader"])
                             [("b", ArgValue (VInt 2))] w1) in
     (steps <$> ACTIVE_PIPELINE w1) = Some [("loader",
        {| id := "loader"; step := 1; input_artifacts := [];
           external_artifacts := []; parameters := [];
           invocation_upstream_steps := ∅ |})]
     /\ (Dict.get "trainer" <$> (steps <$> ACTIVE_PIPELINE w2)) = Some (Some
        {| id := "trainer"; step := 0; input_artifacts := [];
           external_artifacts := []; parameters := [("b", VInt 2)];
           invocation_upstream_steps := ∅ |}).
Proof.
  split; [reflexivity|]. vm_compute. split; reflexivity.
Qed.

(** ** Finalizing a step *)

Section Finalization.
Context `{!Environment}.

Lemma map_result_registry output_name types :
  match mapM materializer_types types with
  | Some classes =>
      map_result
        (fun output_type =>
           match materializer_types output_type with
           | Some materializer_class => Ok (mat_import_path materializer_class)
           | None => Raise (StepInterfaceError
                           (UnableToFindMaterializer (Some output_name) output_type))
           end) types
      = Ok (map mat_import_path classes)
  | None =>
      exists t,
        find (fun t => negb (is_registered t)) types = Some t
        /\ map_result
             (fun output_type =>
                match materializer_types output_type with
                | Some materializer_class => Ok (mat_import_path materializer_class)
                | None => Raise (StepInterfaceError
                           (UnableToFindMaterializer (Some output_name) output_type))
                end) types
           = Raise (StepInterfaceError (UnableToFindMaterializer (Some output_name) t))
  end.
Proof.
  induction types as [|t types IH]; simpl; [reflexivity|].
  unfold is_registered at 1.
  destruct (materializer_types t) as [c|] eqn:Ht; simpl.
  - destruct (mapM materializer_types types) as [classes|]; simpl.
    + now rewrite IH.
    + destruct IH as (t' & Hf & ->). eauto.
  - eauto.
Qed.

(** The resolution of a union output, on its own. *)
Lemma resolve_union_output (self : BaseStep) (output_name : string)
    (members : list annotation) :
  Config.has_materializer_source
    (default {| Config.materializer_source := None |}
       (Dict.get output_name (Config.get_outputs (_configuration self)))) = false ->
  match mapM materializer_types (union_member_types members) with
  | Some classes =>
      length classes = length members
      /\ resolve_output_materializers self output_name (TUnion members)
         = Ok (Some (map mat_import_path classes))
  | None =>
      exists t,
        find (fun t => negb (is_registered t)) (union_member_types members) = Some t
        /\ resolve_output_materializers self output_name (TUnion members)
           = Raise (StepInterfaceError (UnableToFindMaterializer (Some output_name) t))
  end.
Proof.
  intros Hs. unfold resolve_output_materializers. rewrite Hs. simpl.
  assert (is_union (origin_or_self (TUnion members)) = true) as ->
    by (destruct members; reflexivity).
  fold (union_member_types members).
  pose proof (map_result_registry output_name (union_member_types members)) as Hm.
  destruct (mapM materializer_types (union_member_types members)) as [classes|] eqn:Hc.
  - split.
    + apply length_mapM in Hc. rewrite <- Hc. unfold union_member_types, get_args.
      simpl. now rewrite !length_map.
    + unfold rbind. now rewrite Hm.
  - destruct Hm as (t & Hf & Hm). exists t. split; [assumption|].
    unfold rbind. now rewrite Hm.
Qed.

End Finalization.

Section FinalizeConfiguration.
Context `{!Environment}.

(** [_finalize_configuration], statement by statement. *)
Lemma finalize_configuration_unfold ia ea (self : BaseStep) :
  _finalize_configuration ia ea self =
  match resolve_outputs self with
  | Raise e => (Raise e, self)
  | Ok outputs_ =>
      match _finalize_parameters self with
      | Raise e => (Raise e, self)
      | Ok parameters_ =>
          match configure (Kwargs.of_parameters parameters_ false) self with
          | (Raise e, s1) => (Raise e, s1)
          | (Ok _, s1) =>
              match _validate_inputs s1 ia ea with
              | Raise e => (Raise e, s1)
              | Ok _ =>
                  match _apply_configuration (outputs_update outputs_) true s1 with
                  | (Raise e, s2) => (Raise e, s2)
                  | (Ok _, s2) =>
                      (Ok (complete_configuration s2 ea),
                       set_configuration (complete_configuration s2 ea) s2)
                  end
              end
          end
      end
  end.
Proof.
  unfold _finalize_configuration, sbind, sget, slift, sput, sret. simpl.
  destruct (resolve_outputs self); [|reflexivity].
  destruct (_finalize_parameters self); [|reflexivity].
  destruct (configure _ self) as [[[]|] s1]; [|reflexivity].
  destruct (_validate_inputs s1 ia ea); [|reflexivity].
  destruct (_apply_configuration _ true s1) as [[[]|] s2]; reflexivity.
Qed.

End FinalizeConfiguration.

Section FinalizeOutputs.
Context `{!Environment}.

Lemma merge_dict_get {V} (mv : V -> V -> V) key v (update : Dict.t V) : forall base,
  List.NoDup (Dict.keys update) ->
  Dict.get key update = Some v ->
  Dict.get key (pydantic_utils.merge_dict mv base update)
  = Some (match Dict.get key base with
          | Some old => mv old v
          | None => v
          end).
Proof.
  unfold pydantic_utils.merge_dict.
  induction update as [|[k0 v0] update IH]; intros base Hnd Hget; simpl in *;
    [discriminate|].
  inversion Hnd as [|? ? Hnotin Hnd']; subst.
  destruct (String.eqb_spec key k0) as [->|Hne].
  - injection Hget as ->.
    rewrite (DictFacts.get_fold_set_other fst
               (fun kv acc => match Dict.get (fst kv) acc with
                              | Some old => mv old (snd kv)
                              | None => snd kv
                              end)).
    + apply DictFacts.get_set_eq.
    + intros [k' v'] Hin <-. apply Hnotin. unfold Dict.keys.
      now apply (in_map fst) in Hin.
  - rewrite (IH _ Hnd' Hget). now rewrite DictFacts.get_set_ne by congruence.
Qed.

(** One round of the loop of [resolve_outputs]. *)
Lemma resolve_outputs_rounds (self : BaseStep) name ann l : forall acc o,
  fold_result
    (fun outputs_ kv =>
       (r <~ resolve_output_materializers self (fst kv) (snd kv) ;;
        Ok (match r with
            | Some materializer_source =>
                Dict.set (fst kv)
                  {| Config.materializer_source := Some materializer_source |}
                  outputs_
            | None => outputs_
            end))%R) l acc = Ok o ->
  List.NoDup (Dict.keys acc) ->
  List.NoDup (Dict.keys o)
  /\ (~ In name (Dict.keys l) -> Dict.get name o = Dict.get name acc)
  /\ (List.NoDup (Dict.keys l) -> In (name, ann) l ->
      exists r, resolve_output_materializers self name ann = Ok r
                /\ forall ms, r = Some ms ->
                     Dict.get name o
                     = Some {| Config.materializer_source := Some ms |}).
Proof.
  induction l as [|[k a] l IH]; intros acc o Hr Hacc; simpl in *.
  - injection Hr as <-. repeat split; [assumption | tauto].
  - unfold rbind at 1 2 in Hr.
    destruct (resolve_output_materializers self k a) as [r|] eqn:Hk; [|discriminate].
    set (acc1 := match r with
                 | Some ms => Dict.set k {| Config.materializer_source := Some ms |} acc
                 | None => acc
                 end) in *.
    assert (List.NoDup (Dict.keys acc1)) as Hacc1
      by (destruct r; [now apply DictFacts.NoDup_keys_set | assumption]).
    destruct (IH _ _ Hr Hacc1) as (Ho & Hother & Hin).
    split; [assumption|]. split.
    + intros Hnot. rewrite Hother by tauto.
      destruct r; [|reflexivity]. apply DictFacts.get_set_ne. tauto.
    + intros Hnd [[= <- <-]|Hl].
      * inversion Hnd as [|? ? Hnotin _]; subst.
        exists r. split; [assumption|]. intros ms ->.
        rewrite Hother by assumption. apply DictFacts.get_set_eq.
      * inversion Hnd as [|? ? _ Hnd']; subst. now apply Hin.
Qed.

Lemma resolve_outputs_fails (self : BaseStep) name ann e l : forall acc,
  resolve_output_materializers self name ann = Raise e ->
  In (name, ann) l ->
  exists e',
    fold_result
      (fun outputs_ kv =>
         (r <~ resolve_output_materializers self (fst kv) (snd kv) ;;
          Ok (match r with
              | Some materializer_source =>
                  Dict.set (fst kv)
                    {| Config.materializer_source := Some materializer_source |}
                    outputs_
              | None => outputs_
              end))%R) l acc = Raise e'.
Proof.
  induction l as [|[k a] l IH]; intros acc He Hin; simpl in *; [tauto|].
  unfold rbind at 1 2.
  destruct (resolve_output_materializers self k a) as [r|] eqn:Hk; [|eauto].
  destruct Hin as [[= <- <-]|Hin]; [congruence|]. now apply IH.
Qed.

(** The resolved materializers of an output in the finalized
    configuration. *)
Lemma finalize_configuration_outputs ia ea (self self' : BaseStep) cfg name ann ms :
  _finalize_configuration ia ea self = (Ok cfg, self') ->
  List.NoDup (Dict.keys (outputs (entrypoint_definition self))) ->
  In (name, ann) (outputs (entrypoint_definition self)) ->
  resolve_output_materializers self name ann = Ok (Some ms) ->
  Dict.get name (Config.get_outputs cfg)
  = Some {| Config.materializer_source := Some ms |}.
Proof.
  rewrite finalize_configuration_unfold. intros Hf Hnd Hin Hres.
  destruct (resolve_outputs self) as [o|] eqn:Ho; [|discriminate].
  destruct (resolve_outputs_rounds self name ann _ _ _ Ho (List.NoDup_nil _))
    as (Hndo & _ & Hget).
  destruct (Hget Hnd Hin) as (r & Hr & Hms).
  rewrite Hres in Hr. injection Hr as <-. specialize (Hms ms eq_refl).
  destruct (_finalize_parameters self) as [ps|]; [|discriminate].
  rewrite configure_parameters, apply_configuration_unfold in Hf.
  destruct (_validate_configuration self (parameters_update ps)); [|discriminate].
  destruct (_validate_inputs _ _ _); [|discriminate].
  rewrite apply_configuration_unfold in Hf.
  destruct (_validate_configuration _ (outputs_update o)); [|discriminate].
  injection Hf as <- _.
  unfold Config.get_outputs, complete_configuration, outputs_update. simpl.
  assert (Dict.nonempty o = true) as ->
    by (destruct o; [discriminate | reflexivity]).
  simpl. rewrite (merge_dict_get _ _ _ _ _ Hndo Hms).
  assert (Config.has_materializer_source
            (default {| Config.materializer_source := None |}
               (Dict.get name (Config.get_outputs (_configuration self)))) = false)
    as Hnone.
  { unfold resolve_output_materializers in Hres.
    destruct (Config.has_materializer_source _); [discriminate | reflexivity]. }
  unfold Config.get_outputs in Hnone.
  destruct (Dict.get name (default [] (Config.outputs (Config.fields (_configuration self)))))
    as [[old]|]; [|reflexivity].
  reflexivity.
Qed.

Lemma finalize_configuration_output_failure ia ea (self : BaseStep) name ann e :
  In (name, ann) (outputs (entrypoint_definition self)) ->
  resolve_output_materializers self name ann = Raise e ->
  exists e', _finalize_configuration ia ea self = (Raise e', self).
Proof.
  intros Hin He. rewrite finalize_configuration_unfold.
  destruct (resolve_outputs_fails self name ann e _ [] He Hin) as (e' & Hr).
  unfold resolve_outputs. rewrite Hr. eauto.
Qed.
(** C5. An output declared as a union, without configured materializer
    sources, resolves to one materializer per member in the declared
    order, an explicit [None] member standing for [type(None)], when
    every member is registered, and a finalization that succeeds has
    these materializers for the output; otherwise resolution raises the
    error that names the first member without a registered materializer,
    and finalization fails. *)
Theorem union_output_materializers (self : BaseStep) (output_name : string)
    (members : list annotation) :
  Config.has_materializer_source
    (default {| Config.materializer_source := None |}
       (Dict.get output_name (Config.get_outputs (_configuration self)))) = false ->
  match mapM materializer_types (union_member_types members) with
  | Some classes =>
      length classes = length members
      /\ resolve_output_materializers self output_name (TUnion members)
         = Ok (Some (map mat_import_path classes))
      /\ forall ia ea cfg self',
          List.NoDup (Dict.keys (outputs (entrypoint_definition self))) ->
          In (output_name, TUnion members) (outputs (entrypoint_definition self)) ->
          _finalize_configuration ia ea self = (Ok cfg, self') ->
          Dict.get output_name (Config.get_outputs cfg)
          = Some {| Config.materializer_source :=
                      Some (map mat_import_path classes) |}
  | None =>
      exists t,
        find (fun t => negb (is_registered t)) (union_member_types members) = Some t
        /\ resolve_output_materializers self output_name (TUnion members)
           = Raise (StepInterfaceError (UnableToFindMaterializer (Some output_name) t))
        /\ forall ia ea,
            In (output_name, TUnion members) (outputs (entrypoint_definition self)) ->
            exists e, _finalize_configuration ia ea self = (Raise e, self)
  end.
Proof.
  intros Hs. pose proof (resolve_union_output self output_name members Hs) as Hr.
  destruct (mapM materializer_types (union_member_types members)) as [classes|].
  - destruct Hr as [Hlen Hr]. split; [assumption|]. split; [assumption|].
    intros ia ea cfg self' Hnd Hin Hf.
    now apply (finalize_configuration_outputs ia ea self self' cfg _ _ _ Hf Hnd Hin).
  - destruct Hr as (t & Hfind & Hr). exists t. split; [assumption|].
    split; [assumption|]. intros ia ea Hin.
    now apply (finalize_configuration_output_failure ia ea self _ _ _ Hin Hr).
Qed.
End FinalizeOutputs.

(** ** The caching parameters *)

Lemma string_length_append (a b : string) :
  String.length (String.append a b) = String.length a + String.length b.
Proof. induction a as [|c a IH]; simpl; [reflexivity | now rewrite IH]. Qed.

Lemma string_append_cancel_r (s a b : string) :
  String.append a s = String.append b s -> a = b.
Proof.
  revert b. induction a as [|c a IH]; intros [|c' b] Heq.
  - reflexivity.
  - apply (f_equal String.length) in Heq.
    rewrite !string_length_append in Heq. simpl in Heq. exfalso; lia.
  - apply (f_equal String.length) in Heq.
    rewrite !string_length_append in Heq. simpl in Heq. exfalso; lia.
  - cbn [String.append] in Heq. injection Heq as -> Heq. f_equal. now apply IH.
Qed.

Section CachingParameters.
Context `{!Environment}.

Lemma caching_parameters_fold (self : BaseStep) :
  caching_parameters self
  = fold_left caching_round (Config.get_outputs (configuration self))
      [(STEP_SOURCE_PARAMETER_NAME, hash_source_code (source_code self))].
Proof. reflexivity. Qed.

Lemma caching_rounds_other key l : forall acc,
  (forall kv, In kv l -> String.append (fst kv) "_materializer_source" <> key) ->
  Dict.get key (fold_left caching_round l acc) = Dict.get key acc.
Proof.
  induction l as [|kv l IH]; intros acc Hk; simpl; [reflexivity|].
  rewrite IH by (intros; apply Hk; simpl; auto).
  unfold caching_round. destruct (Config.has_materializer_source (snd kv));
    [|reflexivity].
  apply DictFacts.get_set_ne, Hk. simpl; auto.
Qed.

Lemma caching_rounds_output name output l : forall acc,
  List.NoDup (Dict.keys l) ->
  Dict.get name l = Some output ->
  Config.has_materializer_source output = true ->
  Dict.get (String.append name "_materializer_source") (fold_left caching_round l acc)
  = Some (materializer_source_hash (default [] (Config.materializer_source output))).
Proof.
  induction l as [|[k o] l IH]; intros acc Hnd Hget Hsrc; simpl in *; [discriminate|].
  inversion Hnd as [|? ? Hnotin Hnd']; subst.
  destruct (String.eqb_spec name k) as [->|Hne].
  - injection Hget as ->.
    rewrite caching_rounds_other.
    + unfold caching_round. simpl. rewrite Hsrc. apply DictFacts.get_set_eq.
    + intros [k' o'] Hin Heq. simpl in Heq.
      apply string_append_cancel_r in Heq. subst k'.
      apply Hnotin. unfold Dict.keys. now apply (in_map fst) in Hin.
  - now apply IH.
Qed.

Lemma caching_rounds_keys l : forall acc key,
  In key (Dict.keys (fold_left caching_round l acc)) ->
  In key (Dict.keys acc)
  \/ exists name output,
       In (name, output) l
       /\ Config.has_materializer_source output = true
       /\ key = String.append name "_materializer_source".
Proof.
  induction l as [|[k o] l IH]; intros acc key Hin; simpl in *; [auto|].
  apply IH in Hin as [Hin|(name & output & ? & ? & ?)]; [|right; eauto 7].
  unfold caching_round in Hin. simpl in Hin.
  destruct (Config.has_materializer_source o) eqn:Hs; [|auto].
  rewrite DictFacts.keys_set in Hin.
  destruct (Dict.contains _ acc); [auto|].
  apply in_app_iff in Hin as [?|[<-|[]]]; [auto|]. right. eauto 7.
Qed.

Lemma caching_rounds_NoDup l : forall acc,
  List.NoDup (Dict.keys acc) -> List.NoDup (Dict.keys (fold_left caching_round l acc)).
Proof.
  induction l as [|kv l IH]; intros acc Hnd; simpl; [assumption|].
  apply IH. unfold caching_round.
  destruct (Config.has_materializer_source (snd kv)); [|assumption].
  now apply DictFacts.NoDup_keys_set.
Qed.

(** C4. When the fixed source key is not of the form
    [{name}_materializer_source], the caching parameters hold the hash
    of the step source under the fixed key and, for every output with
    materializer sources, the hash of the concatenated hashes of their
    source codes, in order, under [{name}_materializer_source]; they hold
    one entry per key and no other entry, and two steps with the same
    source and the same materializer sources have the same caching
    parameters. *)
Theorem caching_parameters_fingerprint (self : BaseStep) :
  (forall n, STEP_SOURCE_PARAMETER_NAME <> String.append n "_materializer_source") ->
  List.NoDup (Dict.keys (Config.get_outputs (configuration self))) ->
  Dict.get STEP_SOURCE_PARAMETER_NAME (caching_parameters self)
  = Some (hash_source_code (source_code self))
  /\ (forall name output,
         Dict.get name (Config.get_outputs (configuration self)) = Some output ->
         Config.has_materializer_source output = true ->
         Dict.get (String.append name "_materializer_source")
                  (caching_parameters self)
         = Some (md5_hexdigest
                   (String.concat ""
                      (map (fun source =>
                              hash_source_code (mat_source_code (load source)))
                           (default [] (Config.materializer_source output))))))
  /\ List.NoDup (Dict.keys (caching_parameters self))
  /\ (forall key,
         In key (Dict.keys (caching_parameters self)) ->
         key = STEP_SOURCE_PARAMETER_NAME
         \/ exists name output,
              In (name, output) (Config.get_outputs (configuration self))
              /\ Config.has_materializer_source output = true
              /\ key = String.append name "_materializer_source")
  /\ (forall other : BaseStep,
         source_code other = source_code self ->
         Config.get_outputs (configuration other)
         = Config.get_outputs (configuration self) ->
         caching_parameters other = caching_parameters self).
Proof.
  intros Hkey Hnd. rewrite caching_parameters_fold. repeat split.
  - rewrite caching_rounds_other.
    + simpl. now rewrite String.eqb_refl.
    + intros kv _ Heq. exact (Hkey _ (eq_sym Heq)).
  - intros name output Hget Hsrc.
    now apply (caching_rounds_output name output).
  - apply caching_rounds_NoDup. simpl. constructor; [simpl; tauto | constructor].
  - intros key Hin. apply caching_rounds_keys in Hin as [[<-|[]]|Hin]; auto.
  - intros other Hs Ho. rewrite caching_parameters_fold. now rewrite Hs, Ho.
Qed.
End CachingParameters.

(** ** Upstream steps declared with [after] *)

Section OrderingHints.
Context `{!Environment}.

Lemma hinted_rounds_unique pipeline l : forall acc,
  (forall s, In s l -> size (invocation_ids pipeline s) <= 1) ->
  exists upstream,
    fold_result (hinted_round pipeline) l acc = Ok upstream
    /\ forall i, i ∈ upstream <->
                 i ∈ acc \/ exists s, In s l /\ i ∈ invocation_ids pipeline s.
Proof.
  induction l as [|s l IH]; intros acc Hle; simpl.
  - exists acc. split; [reflexivity|]. intros i. split; [auto|].
    intros [?|(? & [] & _)]; assumption.
  - assert (size (invocation_ids pipeline s) <= 1) as Hs by (apply Hle; simpl; auto).
    unfold hinted_round at 1. unfold rbind at 1.
    case_bool_decide as H1.
    + destruct (IH (invocation_ids pipeline s ∪ acc)) as (up & -> & Hup);
        [intros; apply Hle; simpl; auto|].
      exists up. split; [reflexivity|]. intros i. rewrite Hup, elem_of_union.
      split.
      * intros [[?|?]|(s' & ? & ?)]; eauto.
      * intros [?|(s' & [<-|?] & ?)]; eauto.
    + case_bool_decide as H2; [lia|].
      assert (invocation_ids pipeline s = ∅) as Hempty
        by (apply size_empty_inv in H1 || (apply leibniz_equiv, size_empty_inv; lia)).
      destruct (IH acc) as (up & -> & Hup); [intros; apply Hle; simpl; auto|].
      exists up. split; [reflexivity|]. intros i. rewrite Hup. split.
      * intros [?|(s' & ? & ?)]; eauto.
      * intros [?|(s' & [<-|?] & Hi)]; eauto.
        rewrite Hempty in Hi. set_solver.
Qed.

Lemma hinted_rounds_ambiguous pipeline l : forall acc,
  (exists s, In s l /\ 1 < size (invocation_ids pipeline s)) ->
  fold_result (hinted_round pipeline) l acc
  = Raise (RuntimeError AfterWithMultipleInvocations).
Proof.
  induction l as [|s l IH]; intros acc (s' & Hin & Hs'); simpl in *; [tauto|].
  unfold hinted_round at 1. unfold rbind at 1.
  case_bool_decide as H1.
  - destruct Hin as [<-|Hin]; [lia|]. apply IH; eauto.
  - case_bool_decide as H2; [reflexivity|].
    destruct Hin as [<-|Hin]; [lia|]. apply IH; eauto.
Qed.

Lemma get_and_validate_unfold (self : StepInvocation) pipeline (template : BaseStep) :
  upstream_steps template <> ∅ ->
  _get_and_validate_step_upstream_steps self pipeline template
  = if bool_decide (1 < length (invocations_of pipeline (step self)))
    then Raise (RuntimeError AfterWithMultipleInvocations)
    else fold_result (hinted_round pipeline) (elements (upstream_steps template)) ∅.
Proof.
  intros Hne. unfold _get_and_validate_step_upstream_steps, rbind.
  rewrite bool_decide_eq_true_2 by assumption.
  destruct (bool_decide _); reflexivity.
Qed.

(** A failure of the validation of the upstream steps is the failure of
    [finalize], and leaves the world as it is. *)
Lemma finalize_upstream_failure (self : StepInvocation) pipeline w e :
  _get_and_validate_step_upstream_steps self pipeline (step_objects w (step self))
  = Raise e ->
  finalize self pipeline w = (Raise e, w).
Proof.
  intros Hr. unfold finalize, sbind, sget, slift. simpl. now rewrite Hr.
Qed.

(** Calling a step reads neither the upstream steps declared on the
    template nor changes them: the call returns, and registers, what it
    does for the template without them. *)
Lemma call_ignores_upstream_steps (a : nat) (u : gset nat) args id_ after_ kwargs
    (w : World) :
  let other := W.with_step a (set_upstream_steps u (step_objects w a)) w in
  fst (__call__ a args id_ after_ kwargs other)
  = fst (__call__ a args id_ after_ kwargs w)
  /\ ACTIVE_PIPELINE (snd (__call__ a args id_ after_ kwargs other))
     = ACTIVE_PIPELINE (snd (__call__ a args id_ after_ kwargs w)).
Proof.
  intros other. unfold __call__, sbind, sget, slift, sput, sret.
  cbn [other W.with_step ACTIVE_PIPELINE step_objects].
  rewrite fn_lookup_insert.
  destruct (ACTIVE_PIPELINE w) as [pipeline|].
  2:{ change (source_code (set_upstream_steps u (step_objects w a)))
        with (source_code (step_objects w a)).
      destruct (call_entrypoint _ args kwargs); split; reflexivity. }
  change (_parse_call_args (set_upstream_steps u (step_objects w a)) args kwargs)
    with (_parse_call_args (step_objects w a) args kwargs).
  destruct (_parse_call_args (step_objects w a) args kwargs) as [[[ia ea] ps]|];
    [|split; reflexivity].
  change (name (set_upstream_steps u (step_objects w a)))
    with (name (step_objects w a)).
  destruct (PipelineModel.add_step _ _ _ _ _ _ _ _ _) as [[i p']|];
    [|split; reflexivity].
  change (entrypoint_definition (set_upstream_steps u (step_objects w a)))
    with (entrypoint_definition (step_objects w a)).
  destruct (map _ _) as [|? [|? ?]]; split; reflexivity.
Qed.

(** C6, as the code has it. For a template on which [after] was used:
    when it has more than one invocation in the pipeline, the resolution
    of the upstream steps of any of them, and with it [finalize], raises
    the error, leaving the world as it is; when it has at most one
    invocation, resolution raises the same error if a template given to
    [after] has more than one invocation identifier in the pipeline, and
    otherwise returns the identifiers of the invocations of the templates
    given to [after]. Declaring an invocation does not look at the
    templates given to [after]: a call of the template returns and
    registers what it does when [after] was never used. *)
Theorem hinted_upstream_resolution (self : StepInvocation) (pipeline : Pipeline)
    (w : World) :
  let template := step_objects w (step self) in
  let ambiguous := RuntimeError AfterWithMultipleInvocations in
  upstream_steps template <> ∅ ->
  (1 < length (invocations_of pipeline (step self)) ->
   _get_and_validate_step_upstream_steps self pipeline template = Raise ambiguous
   /\ finalize self pipeline w = (Raise ambiguous, w))
  /\ (length (invocations_of pipeline (step self)) <= 1 ->
      (exists s, s ∈ upstream_steps template
                 /\ 1 < size (invocation_ids pipeline s)) ->
      _get_and_validate_step_upstream_steps self pipeline template = Raise ambiguous
      /\ finalize self pipeline w = (Raise ambiguous, w))
  /\ (length (invocations_of pipeline (step self)) <= 1 ->
      (forall s, s ∈ upstream_steps template ->
                 size (invocation_ids pipeline s) <= 1) ->
      exists upstream,
        _get_and_validate_step_upstream_steps self pipeline template = Ok upstream
        /\ forall i, i ∈ upstream <->
                     exists s, s ∈ upstream_steps template
                               /\ i ∈ invocation_ids pipeline s)
  /\ (forall args id_ after_ kwargs,
         let unhinted :=
           W.with_step (step self) (set_upstream_steps ∅ template) w in
         fst (__call__ (step self) args id_ after_ kwargs w)
         = fst (__call__ (step self) args id_ after_ kwargs unhinted)
         /\ ACTIVE_PIPELINE (snd (__call__ (step self) args id_ after_ kwargs w))
            = ACTIVE_PIPELINE
                (snd (__call__ (step self) args id_ after_ kwargs unhinted))).
Proof.
  intros template ambiguous Hne.
  assert (forall s, s ∈ upstream_steps template <->
                    In s (elements (upstream_steps template))) as Hel.
  { intros s. now rewrite <- list_elem_of_In, elem_of_elements. }
  split; [|split; [|split]].
  - intros Hmany.
    assert (_get_and_validate_step_upstream_steps self pipeline template
            = Raise ambiguous) as Hr.
    { rewrite get_and_validate_unfold by assumption.
      now rewrite bool_decide_eq_true_2. }
    split; [assumption | now apply finalize_upstream_failure].
  - intros Hone (s & Hs & Hsize).
    assert (_get_and_validate_step_upstream_steps self pipeline template
            = Raise ambiguous) as Hr.
    { rewrite get_and_validate_unfold by assumption.
      rewrite bool_decide_eq_false_2 by lia.
      apply hinted_rounds_ambiguous. exists s. split; [now apply Hel | assumption]. }
    split; [assumption | now apply finalize_upstream_failure].
  - intros Hone Hunique.
    rewrite get_and_validate_unfold by assumption.
    rewrite bool_decide_eq_false_2 by lia.
    destruct (hinted_rounds_unique pipeline (elements (upstream_steps template)) ∅)
      as (up & Hup & Hmem).
    { intros s Hs. now apply Hunique, Hel. }
    exists up. split; [assumption|]. intros i. rewrite Hmem. split.
    + intros [Hi|(s & Hs & Hi)]; [now apply not_elem_of_empty in Hi|].
      exists s. split; [now apply Hel | assumption].
    + intros (s & Hs & Hi). right. exists s. split; [now apply Hel | assumption].
  - intros args id_ after_ kwargs unhinted.
    destruct (call_ignores_upstream_steps (step self) ∅ args id_ after_ kwargs w)
      as [Hfst Hsnd].
    split; symmetry; assumption.
Qed.
End OrderingHints.

(** ** Uploading external artifacts *)

Section Upload.
Context `{!Environment}.

(** C3, as the code has it. The first finalization of an external
    artifact made from a raw value asks the store whether the location
    exists, creates it, saves the value through the materializer once and
    creates one artifact record; the artifact then holds the identifier
    of the record, and a second finalization returns that identifier,
    saves nothing and creates no record: it reads the record back from
    the metadata store once and changes nothing else. *)
Theorem upload_once (self : nat) (w w1 : World) (i : UUID) :
  _id (artifact_objects w self) = None ->
  do_something self w = (Ok i, w1) ->
  (exists uri artifact,
      trace w1 = trace w ++ [FileExists uri; MakeDirs uri;
                             MaterializerSave uri (_value (artifact_objects w self));
                             CreateArtifact artifact])
  /\ _id (artifact_objects w1 self) = Some i
  /\ do_something self w1
     = (Ok i, W.with_services (zen_store w1) (files w1) (next_uuid w1)
                (trace w1 ++ [GetArtifact i]) w1).
Proof.
  intros Hid. unfold do_something at 1.
  unfold sbind, sget, sput, slift, sret, sraise, W.uuid4, W.exists_, W.makedirs,
    W.save, W.create_artifact, W.log, sbind, sget, sput, sret.
  simpl. rewrite Hid.
  destruct (_get_materializer (artifact_objects w self)) as [mc|e]; [|discriminate].
  simpl. case_bool_decide; [discriminate|].
  intros [= <- <-]. repeat split.
  - simpl. rewrite <- !app_assoc. simpl. eauto.
  - simpl. now rewrite fn_lookup_insert.
  - unfold do_something, sbind, sget, sput, slift, sret, sraise, W.get_artifact,
      W.log, sbind, sget, sret.
    simpl. rewrite fn_lookup_insert. simpl.
    rewrite lookup_insert_eq. simpl.
    rewrite bool_decide_eq_true_2 by reflexivity. reflexivity.
Qed.
End Upload.

(** ** Finalizing an invocation *)

Section FinalizeInvocation.
Context `{!Environment}.

Lemma merge_dict_other {V} (mv : V -> V -> V) key (base update : Dict.t V) :
  Dict.get key update = None ->
  Dict.get key (pydantic_utils.merge_dict mv base update) = Dict.get key base.
Proof.
  intros Hnone. unfold pydantic_utils.merge_dict.
  apply (DictFacts.get_fold_set_other fst
           (fun kv acc => match Dict.get (fst kv) acc with
                          | Some old => mv old (snd kv)
                          | None => snd kv
                          end)).
  intros [k v] Hin <-. apply DictFacts.get_None_not_In in Hnone.
  apply Hnone. unfold Dict.keys. now apply (in_map fst) in Hin.
Qed.

Lemma merge_dict_NoDup {V} (mv : V -> V -> V) (update : Dict.t V) : forall base,
  List.NoDup (Dict.keys base) ->
  List.NoDup (Dict.keys (pydantic_utils.merge_dict mv base update)).
Proof.
  unfold pydantic_utils.merge_dict.
  induction update as [|kv update IH]; intros base Hnd; simpl; [assumption|].
  apply IH. now apply DictFacts.NoDup_keys_set.
Qed.

Lemma finalize_parameter_other signature acc kv acc' key :
  finalize_parameter signature acc kv = Ok acc' ->
  fst kv <> key ->
  Dict.get key acc' = Dict.get key acc.
Proof.
  unfold finalize_parameter. intros Hr Hne.
  destruct (signature_get (fst kv) signature) as [p|]; [|now injection Hr as <-].
  destruct (param_annotation p) as [[| | | |c| |]|];
    try (injection Hr as <-; now apply DictFacts.get_set_ne).
  destruct (is_model_class (TClass c));
    [|injection Hr as <-; now apply DictFacts.get_set_ne].
  destruct (snd kv); try discriminate.
  destruct (instantiate_model c d); [|discriminate].
  injection Hr as <-. now apply DictFacts.get_set_ne.
Qed.

Lemma finalize_parameter_plain signature acc key v acc' p :
  finalize_parameter signature acc (key, v) = Ok acc' ->
  signature_get key signature = Some p ->
  is_plain_argument p = true ->
  Dict.get key acc' = Some v.
Proof.
  unfold finalize_parameter, is_plain_argument. simpl. intros Hr Hs Hp.
  rewrite Hs in Hr.
  destruct (param_annotation p) as [[| | | |c| |]|];
    try (injection Hr as <-; now apply DictFacts.get_set_eq).
  apply negb_true_iff in Hp. simpl in Hp, Hr. rewrite Hp in Hr.
  injection Hr as <-. now apply DictFacts.get_set_eq.
Qed.

Lemma finalize_parameters_other signature key l : forall acc acc',
  fold_result (finalize_parameter signature) l acc = Ok acc' ->
  ~ In key (Dict.keys l) ->
  Dict.get key acc' = Dict.get key acc.
Proof.
  induction l as [|kv l IH]; intros acc acc' Hr Hnotin; simpl in *.
  - now injection Hr as <-.
  - unfold rbind in Hr.
    destruct (finalize_parameter signature acc kv) as [acc1|] eqn:H1; [|discriminate].
    rewrite (IH _ _ Hr) by tauto.
    apply (finalize_parameter_other _ _ _ _ _ H1). tauto.
Qed.

Lemma finalize_parameters_plain signature key v p l : forall acc acc',
  fold_result (finalize_parameter signature) l acc = Ok acc' ->
  List.NoDup (Dict.keys l) ->
  Dict.get key l = Some v ->
  signature_get key signature = Some p ->
  is_plain_argument p = true ->
  Dict.get key acc' = Some v.
Proof.
  induction l as [|[k0 v0] l IH]; intros acc acc' Hr Hnd Hget Hsig Hp;
    simpl in *; [discriminate|].
  inversion Hnd as [|? ? Hnotin Hnd']; subst.
  unfold rbind in Hr.
  destruct (finalize_parameter signature acc (k0, v0)) as [acc1|] eqn:H1;
    [|discriminate].
  destruct (String.eqb_spec key k0) as [->|Hne].
  - injection Hget as ->.
    rewrite (finalize_parameters_other _ _ _ _ _ Hr Hnotin).
    now apply (finalize_parameter_plain _ _ _ _ _ _ H1 Hsig).
  - now apply (IH _ _ Hr).
Qed.

(** The upload of external artifacts leaves the step templates alone. *)
Lemma do_something_step_objects a w r w' :
  do_something a w = (r, w') -> step_objects w' = step_objects w.
Proof.
  unfold do_something, sbind, sget, sput, slift, sret, sraise, W.uuid4, W.exists_,
    W.makedirs, W.save, W.create_artifact, W.get_artifact, W.log, sbind, sget,
    sput, sret, sraise.
  simpl. destruct (_id (artifact_objects w a)); simpl.
  - destruct (zen_store w !! u); simpl; [|now intros [= <- <-]].
    destruct (negb _); now intros [= <- <-].
  - destruct (_get_materializer (artifact_objects w a)); simpl;
      [|now intros [= <- <-]].
    destruct (bool_decide _); now intros [= <- <-].
Qed.

Lemma upload_external_artifacts_step_objects artifacts : forall ids w r w',
  upload_external_artifacts artifacts ids w = (r, w') ->
  step_objects w' = step_objects w.
Proof.
  induction artifacts as [|[key a] artifacts IH]; intros ids w r w'; simpl.
  - now intros [= <- <-].
  - unfold sbind. destruct (do_something a w) as [[i|e] w1] eqn:Hd.
    + intros Hu. apply IH in Hu. rewrite Hu.
      now apply do_something_step_objects in Hd.
    + intros [= <- <-]. now apply do_something_step_objects in Hd.
Qed.
End FinalizeInvocation.

Section FinalizeInvocationParameters.
Context `{!Environment}.

Lemma on_step_unfold {A} a (m : SE BaseStep A) w :
  on_step a m w = (fst (m (step_objects w a)), W.with_step a (snd (m (step_objects w a))) w).
Proof. unfold on_step. now destruct (m (step_objects w a)). Qed.

(** The parameters of a finalized invocation. *)
Lemma finalize_parameters_of (self : StepInvocation) pipeline w w' cfg :
  finalize self pipeline w = (Ok cfg, w') ->
  exists finalized,
    _finalize_parameters
      (configured_template (step_objects w (step self)) (parameters self))
    = Ok finalized
    /\ Config.parameters (Config.fields cfg) = Some finalized.
Proof.
  unfold finalize. unfold sbind at 1 2 3 4. unfold sget at 1, slift at 1.
  destruct (_get_and_validate_step_upstream_steps _ _ _); [|discriminate].
  rewrite on_step_unfold, configure_parameters, apply_configuration_unfold.
  set (template := step_objects w (step self)).
  destruct (_validate_configuration template (parameters_update (parameters self)));
    [|discriminate].
  cbn [fst snd]. fold (configured_template template (parameters self)).
  set (s1 := configured_template template (parameters self)).
  destruct (upload_external_artifacts (external_artifacts self) []
              (W.with_step (step self) s1 w)) as [[ids|e] w2] eqn:Hu; [|discriminate].
  apply upload_external_artifacts_step_objects in Hu.
  rewrite on_step_unfold, Hu. cbn [W.with_step step_objects].
  rewrite fn_lookup_insert, finalize_configuration_unfold.
  destruct (resolve_outputs s1) as [o|]; [|discriminate].
  destruct (_finalize_parameters s1) as [ps|]; [|discriminate].
  rewrite configure_parameters, apply_configuration_unfold.
  destruct (_validate_configuration s1 (parameters_update ps)); [|discriminate].
  destruct (_validate_inputs _ _ _); [|discriminate].
  rewrite apply_configuration_unfold.
  destruct (_validate_configuration _ (outputs_update o)); [|discriminate].
  cbn [fst snd]. intros [= <- _]. exists ps. split; reflexivity.
Qed.

(** C2, as the code has it. The invocation's parameters are merged key by
    key into the parameters of the template, and finalization replaces
    the [parameters] field as a whole by the finalized values of the
    merged parameters; a key of the template's base configuration that is
    absent from the invocation's parameters survives, with its value,
    when it names an argument of the entrypoint that is neither a
    pydantic model nor the parameters object. *)
Theorem finalize_parameters_merged (self : StepInvocation) (pipeline : Pipeline)
    (w w' : World) (cfg : Config.StepConfiguration) :
  finalize self pipeline w = (Ok cfg, w') ->
  let template := step_objects w (step self) in
  let base := Config.get_parameters (configuration template) in
  exists finalized,
    Config.get_parameters
      (configuration (configured_template template (parameters self)))
    = pydantic_utils.merge_dict pydantic_utils.merge_value base (parameters self)
    /\ _finalize_parameters (configured_template template (parameters self))
       = Ok finalized
    /\ Config.parameters (Config.fields cfg) = Some finalized
    /\ forall key v p,
        List.NoDup (Dict.keys base) ->
        Dict.get key base = Some v ->
        Dict.get key (parameters self) = None ->
        signature_get key (get_step_entrypoint_signature template) = Some p ->
        is_plain_argument p = true ->
        (forall q, params (entrypoint_definition template) = Some q ->
                   param_name q <> key) ->
        Dict.get key finalized = Some v.
Proof.
  intros Hf template base.
  destruct (finalize_parameters_of _ _ _ _ _ Hf) as (finalized & Hfp & Hcfg).
  fold template in Hfp.
  exists finalized. split; [reflexivity|]. split; [assumption|].
  split; [assumption|].
  intros key v p Hnd Hbase Hinv Hsig Hplain Hlegacy.
  unfold _finalize_parameters, rbind in Hfp.
  set (s1 := configured_template template (parameters self)) in *.
  destruct (fold_result _ _ _) as [ps|] eqn:Hfold; [|discriminate].
  assert (Dict.get key ps = Some v) as Hps.
  { apply (finalize_parameters_plain _ key v p _ _ _ Hfold).
    - apply merge_dict_NoDup. exact Hnd.
    - change (Config.get_parameters (configuration s1))
        with (pydantic_utils.merge_dict pydantic_utils.merge_value base
                (parameters self)).
      now rewrite merge_dict_other.
    - exact Hsig.
    - exact Hplain. }
  change (entrypoint_definition s1) with (entrypoint_definition template) in Hfp.
  destruct (params (entrypoint_definition template)) as [q|] eqn:Hq.
  - destruct (_finalize_legacy_parameters s1); [|discriminate].
    injection Hfp as <-. rewrite DictFacts.get_set_ne; [assumption|].
    now apply Hlegacy.
  - now injection Hfp as <-.
Qed.
End FinalizeInvocationParameters.

(** ** The properties on concrete steps *)

Section Concrete.
Import Examples.
Local Existing Instance environment.

(** [def f(a: int, **kwargs) -> int] is refused, and so is
    [def f(a) -> int]; the trainer has the inputs [a] and [b] and one
    output. *)
Example variadic_entrypoint_refused :
  validate_entrypoint_function
    {| sig_parameters :=
         [input_param "a" (TClass int_class);
          {| param_name := "kwargs"; param_kind := VAR_KEYWORD;
             param_annotation := None; param_default := None |}];
       sig_return_annotation := Some (ReturnType (TClass int_class)) |} []
  = Raise (StepInterfaceError VariableArgsNotAllowed).
Proof. reflexivity. Qed.

Example unannotated_entrypoint_refused :
  validate_entrypoint_function
    {| sig_parameters :=
         [{| param_name := "a"; param_kind := POSITIONAL_OR_KEYWORD;
             param_annotation := None; param_default := None |}];
       sig_return_annotation := Some (ReturnType (TClass int_class)) |} []
  = Raise (StepInterfaceError (MissingTypeAnnotation "a")).
Proof. reflexivity. Qed.

Example trainer_interface :
  validate_entrypoint_function (step_entrypoint trainer_class) []
  = Ok {| inputs := [("a", input_param "a" (TClass int_class));
                     ("b", input_param "b" (TClass int_class))];
          outputs := [("output", TClass int_class)];
          context := None; params := None |}.
Proof. reflexivity. Qed.

(** Overriding the parameters of the trainer twice is overriding them
    once; merging is not overriding. *)
Example override_parameters_twice :
  let u := parameters_update [("b", VInt 2)] in
  Config.parameters
    (Config.fields
       (pydantic_utils.update_model
          (pydantic_utils.update_model (configuration trainer) u false) u false))
  = Some [("b", VInt 2)]
  /\ Config.parameters
       (Config.fields (pydantic_utils.update_model (configuration trainer) u true))
     = Some [("a", VInt 1); ("b", VInt 2)].
Proof. split; reflexivity. Qed.

(** A reporter, whose entrypoint takes the step context, is created with
    caching disabled; a loader keeps [enable_cache] unset. *)
Lemma init_enable_cache_default_witness :
  Config.enable_cache (Config.fields (configuration reporter)) = Some false
  /\ Config.enable_cache (Config.fields (configuration loader)) = None.
Proof.
  split.
  - apply (init_enable_cache_default reporter_class [] Kwargs.defaults [] reporter);
      reflexivity.
  - apply (init_enable_cache_default loader_class [] Kwargs.defaults [] loader);
      reflexivity.
Defined.


(** The caching parameters of a loader with an explicit materializer. *)
Lemma caching_parameters_fingerprint_witness :
  Dict.get "step_source" (caching_parameters explicit_loader)
  = Some "sha256:def loader() -> int"
  /\ Dict.get "output_materializer_source" (caching_parameters explicit_loader)
     = Some "md5:sha256:my.module.MyMaterializer".
Proof.
  assert (forall n, STEP_SOURCE_PARAMETER_NAME <> String.append n "_materializer_source")
    as Hkey.
  { intros n Heq. apply (f_equal String.length) in Heq.
    rewrite string_length_append in Heq. simpl in Heq. lia. }
  assert (List.NoDup (Dict.keys (Config.get_outputs (configuration explicit_loader))))
    as Hnd.
  { vm_compute. constructor; [simpl; tauto | constructor]. }
  destruct (caching_parameters_fingerprint explicit_loader Hkey Hnd)
    as (Hsource & Houtput & _).
  split; [exact Hsource|].
  apply (Houtput "output"
           {| Config.materializer_source := Some ["my.module.MyMaterializer"] |});
    reflexivity.
Defined.

(** [Union[int, None]] resolves to two materializers; [Union[int, bytes]]
    fails on [bytes]. *)
Lemma union_output_materializers_witness :
  resolve_output_materializers loader "output" (TUnion [TClass int_class; TNone])
  = Ok (Some ["zenml.materializers.BuiltInMaterializer";
              "zenml.materializers.BuiltInMaterializer"])
  /\ resolve_output_materializers loader "output"
       (TUnion [TClass int_class; TClass bytes_class])
     = Raise (StepInterfaceError
                (UnableToFindMaterializer (Some "output") (TClass bytes_class))).
Proof.
  split.
  - exact (proj1 (proj2 (union_output_materializers loader "output"
                           [TClass int_class; TNone] eq_refl))).
  - destruct (union_output_materializers loader "output"
                [TClass int_class; TClass bytes_class] eq_refl) as (t & Ht & Hr & _).
    injection Ht as <-. exact Hr.
Defined.

(** The trainer declared after the loader, which is invoked twice: the
    trainer has one invocation and its upstream steps do not resolve. *)
Lemma hinted_single_invocation_fails :
  upstream_steps (step_objects trainer_after_loader 0) <> ∅
  /\ length (invocations_of built_pipeline 0) = 1
  /\ _get_and_validate_step_upstream_steps trainer_invocation built_pipeline
       (step_objects trainer_after_loader 0)
     = Raise (RuntimeError AfterWithMultipleInvocations).
Proof.
  split; [|split].
  - compute_done.
  - reflexivity.
  - vm_compute. reflexivity.
Defined.

(** The loader declared after the trainer: its two invocations do not
    finalize, and the trainer, on which [after] was not used, is not
    concerned. *)
Lemma hinted_upstream_resolution_witness :
  finalize loader_invocation built_pipeline loader_after_trainer
  = (Raise (RuntimeError AfterWithMultipleInvocations), loader_after_trainer).
Proof.
  assert (upstream_steps (step_objects loader_after_trainer (step loader_invocation))
          <> ∅) as Hne.
  { compute_done. }
  assert (1 < length (invocations_of built_pipeline (step loader_invocation))) as Hlen.
  { compute_done. }
  exact (proj2 (proj1 (hinted_upstream_resolution loader_invocation built_pipeline
                         loader_after_trainer Hne) Hlen)).
Defined.

(** The second finalization of an uploaded artifact reads the record of
    the artifact from the metadata store. *)
Lemma second_finalize_reads_registry :
  let first := do_something 0 world in
  let second := do_something 0 (snd first) in
  fst first = Ok 2
  /\ fst second = Ok 2
  /\ trace (snd second) = trace (snd first) ++ [GetArtifact 2]
  /\ trace (snd second) <> trace (snd first).
Proof.
  vm_compute. repeat split. discriminate.
Defined.

Lemma upload_once_witness :
  do_something 0 (snd (do_something 0 world))
  = (Ok 2,
     let w1 := snd (do_something 0 world) in
     W.with_services (zen_store w1) (files w1) (next_uuid w1)
       (trace w1 ++ [GetArtifact 2]) w1).
Proof.
  apply (upload_once 0 world (snd (do_something 0 world)) 2); reflexivity.
Defined.

(** The trainer is configured with [a=1] and invoked with [b=2]: the
    finalized parameters hold both, not the parameters of the invocation
    alone. *)
Lemma finalize_keeps_template_parameters :
  exists cfg,
    fst (finalize trainer_invocation built_pipeline built_world) = Ok cfg
    /\ Config.parameters (Config.fields cfg) = Some [("a", VInt 1); ("b", VInt 2)]
    /\ Config.parameters (Config.fields cfg) <> Some (parameters trainer_invocation)
    /\ Dict.get "a" (Config.get_parameters
                       (configuration (step_objects built_world 0))) = Some (VInt 1)
    /\ Dict.get "a" (parameters trainer_invocation) = None
    /\ Dict.contains "a" (Config.get_parameters cfg) = true.
Proof.
  eexists. split; [vm_compute; reflexivity|].
  repeat split. discriminate.
Defined.

Lemma finalize_parameters_merged_witness :
  exists cfg finalized,
    fst (finalize trainer_invocation built_pipeline built_world) = Ok cfg
    /\ Config.parameters (Config.fields cfg) = Some finalized
    /\ Dict.get "a" finalized = Some (VInt 1).
Proof.
  destruct (finalize trainer_invocation built_pipeline built_world)
    as [[cfg|e] w'] eqn:Hf; [|vm_compute in Hf; discriminate].
  destruct (finalize_parameters_merged _ _ _ _ _ Hf)
    as (finalized & _ & _ & Hcfg & Hkeep).
  exists cfg, finalized. split; [reflexivity|]. split; [exact Hcfg|].
  apply (Hkeep "a" (VInt 1) (input_param "a" (TClass int_class))).
  - vm_compute. constructor; [simpl; tauto | constructor].
  - reflexivity.
  - reflexivity.
  - reflexivity.
  - reflexivity.
  - intros q Hq. vm_compute in Hq. discriminate.
Defined.
End Concrete.

(** * Further properties of the module *)

(** ** Reserved arguments and return annotations *)

Section AnalysisMore.
Context `{!Environment}.

Lemma validate_reserved_arguments_find func reserved :
  validate_reserved_arguments func reserved
  = match find (is_reserved_parameter func) reserved with
    | Some arg => Raise (RuntimeError (ReservedArgumentName arg))
    | None => Ok tt
    end.
Proof.
  induction reserved as [|arg rest IH]; simpl; [reflexivity|].
  unfold is_reserved_parameter at 1.
  destruct (existsb _ (sig_parameters func)); [reflexivity | exact IH].
Qed.

(** X1. The reserved argument names are checked before anything else:
    the first reserved name borne by a parameter is reported with a
    [RuntimeError], also for a malformed callable; when no parameter
    bears a reserved name the analysis is the one without reserved
    names. *)
Theorem reserved_arguments_checked_first (func : Signature)
    (reserved_arguments : list string) :
  validate_entrypoint_function func reserved_arguments
  = match find (is_reserved_parameter func) reserved_arguments with
    | Some arg => Raise (RuntimeError (ReservedArgumentName arg))
    | None => validate_entrypoint_function func []
    end.
Proof.
  unfold validate_entrypoint_function.
  rewrite validate_reserved_arguments_find.
  destruct (find _ reserved_arguments); reflexivity.
Qed.

Lemma resolve_type_annotation_shape (a : annotation) :
  resolve_type_annotation a
  = match a with
    | TAlias o _ => TClass o
    | _ => a
    end.
Proof. destruct a as [| | | | | |[|m ms]]; reflexivity. Qed.

(** X2. Outputs are parsed into resolved annotations. Resolving
    replaces a generic alias by its origin class and returns anything
    else, a union included, as it is; it is idempotent. Every parsed
    output is the resolution of the output declared under the same name,
    in the order of the declaration, so that no parsed output is a
    generic alias; a single type gives one output under the default name
    and [None] gives no output. *)
Theorem parse_return_type_annotations_resolved (r : return_annotation) :
  (forall o args, resolve_type_annotation (TAlias o args) = TClass o)
  /\ (forall a, is_generic_alias a = false -> resolve_type_annotation a = a)
  /\ (forall a, resolve_type_annotation (resolve_type_annotation a)
                = resolve_type_annotation a)
  /\ (forall members, resolve_type_annotation (TUnion members) = TUnion members)
  /\ parse_return_type_annotations r
     = map (fun kv => (fst kv, resolve_type_annotation (snd kv))) (declared_outputs r)
  /\ (forall key a,
         Dict.get key (parse_return_type_annotations r) = Some a ->
         exists declared,
           Dict.get key (declared_outputs r) = Some declared
           /\ a = resolve_type_annotation declared)
  /\ Forall (fun kv => is_generic_alias (snd kv) = false
                       /\ resolve_type_annotation (snd kv) = snd kv)
            (parse_return_type_annotations r)
  /\ Dict.keys (parse_return_type_annotations r)
     = match r with
       | ReturnType TNone => []
       | ReturnType _ => [SINGLE_RETURN_OUT_NAME]
       | ReturnOutput items => Dict.keys items
       end.
Proof.
  assert (forall a, is_generic_alias (resolve_type_annotation a) = false
                    /\ resolve_type_annotation (resolve_type_annotation a)
                       = resolve_type_annotation a) as Hres.
  { intros a. rewrite !resolve_type_annotation_shape. destruct a; split; reflexivity. }
  assert (parse_return_type_annotations r
          = map (fun kv => (fst kv, resolve_type_annotation (snd kv)))
                (declared_outputs r)) as Hparse.
  { destruct r as [a|items]; [destruct a|]; reflexivity. }
  split; [intros o args; apply resolve_type_annotation_shape|].
  split; [intros a Ha; rewrite resolve_type_annotation_shape;
          destruct a; [reflexivity.. | discriminate | reflexivity]|].
  split; [intros a; apply Hres|].
  split; [intros members; apply resolve_type_annotation_shape|].
  split; [exact Hparse|].
  split.
  - rewrite Hparse. clear Hparse. intros key a.
    induction (declared_outputs r) as [|[k d] l IH]; simpl; [discriminate|].
    destruct (String.eqb key k).
    + intros [= <-]. eauto.
    + exact IH.
  - split.
    + rewrite Hparse. clear Hparse.
      induction (declared_outputs r) as [|[k d] l IH]; simpl; constructor;
        [apply Hres | exact IH].
    + destruct r as [a|items].
      * destruct a; reflexivity.
      * unfold Dict.keys. simpl. rewrite map_map. reflexivity.
Qed.
End AnalysisMore.

(** ** Created steps *)

Section CreationMore.
Context `{!Environment}.

Lemma verify_and_apply_init_params_frame args kwargs (self self' : BaseStep) r :
  _verify_and_apply_init_params args kwargs self = (r, self') ->
  step_frame self self'.
Proof.
  unfold _verify_and_apply_init_params, sbind, sget, sraise, sret. simpl.
  assert (step_frame self self) as Hrefl by (repeat split).
  destruct (bool_decide _); [now intros [= <- <-]|].
  destruct (params (entrypoint_definition self)) as [p|]; [|now intros [= <- <-]].
  assert (forall config : ParametersObject,
             (if negb (isinstance config (param_annotation p))
              then fun s : BaseStep => (Raise (StepInterfaceError WrongParametersObject), s)
              else configure (Kwargs.of_parameters (obj_dict config) true)) self
             = (r, self') -> step_frame self self') as Happly.
  { intros config. destruct (negb _); [now intros [= <- <-]|].
    apply configure_frame. }
  destruct args as [|config args].
  - destruct (last kwargs) as [[key config]|]; [|now intros [= <- <-]].
    destruct (negb (String.eqb key (param_name p))); [now intros [= <- <-]|].
    apply Happly.
  - apply Happly.
Qed.

(** What [__init__] makes of a step class. *)
Lemma init_frame cls args kw kwargs (self : BaseStep) :
  __init__ cls args kw kwargs = Ok self ->
  class_name self = step_class_name cls
  /\ source_code self = step_source_code cls
  /\ entrypoint self = step_entrypoint cls
  /\ _upstream_steps self = ∅
  /\ validate_entrypoint_function (step_entrypoint cls) []
     = Ok (entrypoint_definition self)
  /\ name self = initial_name cls kw.
Proof.
  unfold __init__, rbind.
  destruct (validate_entrypoint_function (step_entrypoint cls) []) as [d|];
    [|discriminate].
  unfold sbind.
  match goal with
  | |- context [configure ?k ?s] =>
      destruct (configure k s) as [[[]|e] s1] eqn:Hc; [|discriminate];
      apply configure_frame in Hc
  end.
  destruct (_verify_and_apply_init_params args kwargs s1) as [[[]|e] s2] eqn:Hi;
    [|discriminate].
  apply verify_and_apply_init_params_frame in Hi.
  intros [= <-].
  destruct Hc as (Hc1 & Hc2 & Hc3 & Hc4 & Hc5 & Hc6).
  destruct Hi as (Hi1 & Hi2 & Hi3 & Hi4 & Hi5 & Hi6).
  simpl in *. unfold name, configuration.
  rewrite Hi1, Hi2, Hi3, Hi4, Hi5, Hi6, Hc1, Hc2, Hc3, Hc4, Hc5, Hc6.
  repeat split; reflexivity.
Qed.

(** X3. A step cannot be created from a malformed entrypoint: whatever
    the arguments, [__init__] raises a [StepInterfaceError]. *)
Theorem init_malformed_entrypoint (cls : StepClass) (args : list ParametersObject)
    (kw : Kwargs.t) (kwargs : Dict.t ParametersObject) :
  malformed (step_entrypoint cls) ->
  exists ie, __init__ cls args kw kwargs = Raise (StepInterfaceError ie).
Proof.
  intros Hm. unfold __init__, rbind.
  pose proof (validate_entrypoint_function_spec (step_entrypoint cls)) as Hv.
  destruct (validate_entrypoint_function (step_entrypoint cls) []) as [d|e].
  - destruct Hv as [Hn _]. contradiction.
  - destruct Hv as (_ & ie & ->). eauto.
Qed.

(** X4. A created step bears the name it was given, or the name of its
    class when none or an empty one was given; it has no upstream steps,
    and its entrypoint definition is the analysis of the entrypoint of
    its class. *)
Theorem init_created_step (cls : StepClass) (args : list ParametersObject)
    (kw : Kwargs.t) (kwargs : Dict.t ParametersObject) (self : BaseStep) :
  __init__ cls args kw kwargs = Ok self ->
  name self = initial_name cls kw
  /\ upstream_steps self = ∅
  /\ entrypoint self = step_entrypoint cls
  /\ validate_entrypoint_function (entrypoint self) [] = Ok (entrypoint_definition self)
  /\ ~ malformed (entrypoint self).
Proof.
  intros Hi. destruct (init_frame _ _ _ _ _ Hi) as (_ & _ & He & Hu & Hv & Hn).
  rewrite He. repeat split; try assumption.
  pose proof (validate_entrypoint_function_spec (step_entrypoint cls)) as Hs.
  rewrite Hv in Hs. apply Hs.
Qed.
End CreationMore.

(** ** The interface and the signature of a step *)

Section InterfaceMore.
Context `{!Environment}.

Lemma input_parameters_keys ps : forall acc key,
  In key (Dict.keys (input_parameters ps acc))
  <-> In key (Dict.keys acc)
      \/ exists p, In p ps /\ is_plain_input p = true /\ param_name p = key.
Proof.
  unfold input_parameters.
  induction ps as [|q ps IH]; intros acc key; simpl.
  - split; [auto | intros [?|(p & [] & _)]; assumption].
  - destruct (is_plain_input q) eqn:Hq; simpl.
    + rewrite IH, DictFacts.keys_set.
      destruct (Dict.contains (param_name q) acc) eqn:Hc.
      * apply DictFacts.contains_In in Hc. split.
        -- intros [?|(p & ? & ? & ?)]; eauto 6.
        -- intros [?|(p & [<-|?] & ? & <-)]; eauto 6.
      * rewrite in_app_iff. simpl. split.
        -- intros [[?|[<-|[]]]|(p & ? & ? & ?)]; eauto 7.
        -- intros [?|(p & [<-|?] & ? & <-)]; eauto 7.
    + rewrite IH. split.
      * intros [?|(p & ? & ? & ?)]; eauto 6.
      * intros [?|(p & [<-|?] & Hp & <-)]; eauto 6. congruence.
Qed.

Lemma find_unique {A} (f : A -> bool) l x :
  count f l <= 1 -> In x l -> f x = true -> find f l = Some x.
Proof.
  unfold count. induction l as [|y l IH]; simpl; intros Hc Hin Hx; [tauto|].
  destruct (f y) eqn:Hy; simpl in Hc.
  - destruct Hin as [->|Hin]; [reflexivity|]. exfalso.
    assert (In x (List.filter f l)) as Hf by (apply filter_In; auto).
    destruct (List.filter f l); simpl in *; [tauto | lia].
  - destruct Hin as [->|Hin]; [congruence|]. now apply IH.
Qed.

(** X5. For a created step, the entrypoint signature without the step
    context holds every input of the interface, and nothing else but the
    parameters object: input validation looks at all the inputs. *)
Theorem signature_covers_inputs (cls : StepClass) (args : list ParametersObject)
    (kw : Kwargs.t) (kwargs : Dict.t ParametersObject) (self : BaseStep) :
  __init__ cls args kw kwargs = Ok self ->
  (forall key,
      Dict.contains key (inputs (entrypoint_definition self)) = true ->
      In key (signature_keys (get_step_entrypoint_signature self)))
  /\ (forall key,
         In key (signature_keys (get_step_entrypoint_signature self)) ->
         Dict.contains key (inputs (entrypoint_definition self)) = true
         \/ exists p, params (entrypoint_definition self) = Some p
                      /\ param_name p = key).
Proof.
  intros Hi. destruct (init_frame _ _ _ _ _ Hi) as (_ & _ & He & _ & Hv & _).
  pose proof (validate_entrypoint_function_spec (step_entrypoint cls)) as Hs.
  rewrite Hv in Hs. destruct Hs as (Hn & r & _ & Hd).
  unfold get_step_entrypoint_signature, signature_keys. simpl. rewrite He, Hd.
  simpl. split.
  - intros key Hc. apply DictFacts.contains_In, input_parameters_keys in Hc.
    destruct Hc as [[]|(p & Hin & Hp & <-)].
    apply in_map, filter_In. split; [assumption|].
    unfold is_plain_input, resolves_to_parameters, resolves_to_context in Hp.
    unfold _is_step_context_param.
    destruct (param_annotation p) as [a|]; [|reflexivity].
    destruct (isclass a && is_parameters_class a), (isclass a && is_context_class a);
      simpl in *; congruence.
  - intros key Hin. apply in_map_iff in Hin as (p & <- & Hin).
    apply filter_In in Hin as [Hin Hctx].
    destruct (resolves_to_parameters p) eqn:Hp.
    + right. exists p. split; [|reflexivity].
      apply find_unique; try assumption.
      unfold malformed in Hn. lia.
    + left. apply DictFacts.contains_In, input_parameters_keys. right.
      exists p. split; [assumption|]. split; [|reflexivity].
      unfold is_plain_input. rewrite Hp. simpl.
      unfold resolves_to_context, _is_step_context_param in *.
      destruct (param_annotation p) as [a|]; [|reflexivity].
      apply negb_true_iff in Hctx. rewrite Hctx.
      now rewrite andb_false_r.
Qed.
End InterfaceMore.

(** ** Configuring a step *)

Section ConfigureMore.
Context `{!Environment}.

(** X6. Configuring a step never touches its class, its source, its
    entrypoint, the analysis of its entrypoint, its upstream steps or its
    name, and a rejected update (an invalid hook, setting key, parameter
    or output) leaves the whole step as it was. *)
Theorem configure_rejected_update (kw : Kwargs.t) (self self' : BaseStep)
    (r : Result unit) :
  configure kw self = (r, self') ->
  step_frame self self' /\ (forall e, r = Raise e -> self' = self).
Proof.
  intros Hc. split; [exact (configure_frame _ _ _ _ Hc)|].
  intros e ->. rewrite configure_unfold in Hc.
  destruct (resolve_hook (Kwargs.on_failure kw)); [|now injection Hc].
  destruct (resolve_hook (Kwargs.on_success kw)); [|now injection Hc].
  rewrite apply_configuration_unfold in Hc.
  destruct (_validate_configuration _ _); [discriminate | now injection Hc].
Qed.

Lemma merge_dict_keys {V} (mv : V -> V -> V) key (update : Dict.t V) : forall base,
  In key (Dict.keys (pydantic_utils.merge_dict mv base update)) ->
  In key (Dict.keys base) \/ In key (Dict.keys update).
Proof.
  unfold pydantic_utils.merge_dict.
  induction update as [|[k v] update IH]; intros base Hin; simpl in *; [auto|].
  apply IH in Hin as [Hin|Hin]; [|auto].
  rewrite DictFacts.keys_set in Hin.
  destruct (Dict.contains k base); [auto|].
  apply in_app_iff in Hin as [?|[<-|[]]]; auto.
Qed.

Lemma updated_field_keys {V} (mv : V -> V -> V) recursive key
    (base update : option (Dict.t V)) :
  In key (Dict.keys (default [] (if recursive : bool
                                 then pydantic_utils.merge_field mv base update
                                 else pydantic_utils.replace base update))) ->
  In key (Dict.keys (default [] base)) \/ In key (Dict.keys (default [] update)).
Proof.
  destruct recursive, update as [u|]; simpl; auto.
  apply merge_dict_keys.
Qed.

Lemma for_each_Ok {A} (body : A -> Result unit) l :
  for_each body l = Ok tt -> forall x, In x l -> body x = Ok tt.
Proof.
  induction l as [|y l IH]; simpl; intros Hr x Hin; [tauto|].
  unfold rbind in Hr. destruct (body y) as [[]|] eqn:Hy; [|discriminate].
  destruct Hin as [<-|Hin]; [assumption | now apply IH].
Qed.

Lemma validate_outputs_Ok (self : BaseStep) o key :
  _validate_outputs self o = Ok tt ->
  In key (Dict.keys o) ->
  In key (Dict.keys (outputs (entrypoint_definition self))).
Proof.
  unfold _validate_outputs. intros Hv Hin.
  apply in_map_iff in Hin as ([k c] & <- & Hin).
  apply (for_each_Ok _ _ Hv) in Hin. simpl in Hin.
  destruct (existsb _ _) eqn:He; [|discriminate].
  apply existsb_exists in He as (x & Hx & Heq).
  apply String.eqb_eq in Heq. now subst.
Qed.

Lemma validate_function_parameters_Ok (self : BaseStep) ps key :
  _validate_function_parameters self ps = Ok tt ->
  params (entrypoint_definition self) = None ->
  In key (Dict.keys ps) ->
  In key (Dict.keys (inputs (entrypoint_definition self))).
Proof.
  unfold _validate_function_parameters. intros Hv Hp Hin.
  destruct (negb (Dict.nonempty ps)) eqn:Hne.
  { destruct ps; [destruct Hin | discriminate]. }
  apply in_map_iff in Hin as ([k v] & <- & Hin).
  apply (for_each_Ok _ _ Hv) in Hin. simpl in Hin.
  destruct (Dict.contains k _) eqn:Hc; [now apply DictFacts.contains_In|].
  rewrite Hp in Hin. discriminate.
Qed.

Lemma apply_configuration_within_interface config merge_ (self self' : BaseStep) :
  within_interface self ->
  _apply_configuration config merge_ self = (Ok tt, self') ->
  within_interface self'.
Proof.
  intros [Hout Hpar]. rewrite apply_configuration_unfold.
  destruct (_validate_configuration self config) as [[]|] eqn:Hv; [|discriminate].
  intros [= <-]. unfold _validate_configuration, rbind in Hv.
  destruct (validate_setting_keys _); [|discriminate].
  destruct (_validate_function_parameters self _) as [[]|] eqn:Hvp; [|discriminate].
  split.
  - intros key Hin. unfold Config.get_outputs in Hin. simpl in Hin.
    apply updated_field_keys in Hin as [Hin|Hin]; [now apply Hout|].
    now apply (validate_outputs_Ok self _ key Hv).
  - intros Hnone key Hin. unfold Config.get_parameters in Hin. simpl in Hin.
    apply updated_field_keys in Hin as [Hin|Hin]; [now apply Hpar|].
    now apply (validate_function_parameters_Ok self _ key Hvp).
Qed.

Lemma configure_within_interface kw (self self' : BaseStep) :
  within_interface self ->
  configure kw self = (Ok tt, self') ->
  within_interface self'.
Proof.
  intros Hw. rewrite configure_unfold.
  destruct (resolve_hook (Kwargs.on_failure kw)); [|discriminate].
  destruct (resolve_hook (Kwargs.on_success kw)); [|discriminate].
  now apply apply_configuration_within_interface.
Qed.

Lemma verify_and_apply_init_params_within_interface args kwargs
    (self self' : BaseStep) :
  within_interface self ->
  _verify_and_apply_init_params args kwargs self = (Ok tt, self') ->
  within_interface self'.
Proof.
  intros Hw. unfold _verify_and_apply_init_params, sbind, sget, sraise, sret. simpl.
  destruct (bool_decide _); [discriminate|].
  destruct (params (entrypoint_definition self)) as [p|]; [|now intros [= <-]].
  assert (forall config : ParametersObject,
             (if negb (isinstance config (param_annotation p))
              then fun s : BaseStep => (Raise (StepInterfaceError WrongParametersObject), s)
              else configure (Kwargs.of_parameters (obj_dict config) true)) self
             = (Ok tt, self') -> within_interface self') as Happly.
  { intros config. destruct (negb _); [discriminate|].
    now apply configure_within_interface. }
  destruct args as [|config args].
  - destruct (last kwargs) as [[key config]|]; [|now intros [= <-]].
    destruct (negb (String.eqb key (param_name p))); [discriminate|].
    apply Happly.
  - apply Happly.
Qed.

(** X7. The configuration of a step stays within its interface: in a
    created step, and after every successful [configure], the configured
    outputs are outputs of the entrypoint and, when the entrypoint has no
    parameters object, the configured parameters are inputs of the
    entrypoint. *)
Theorem configuration_within_interface :
  (forall cls args kw kwargs self,
      __init__ cls args kw kwargs = Ok self -> within_interface self)
  /\ (forall kw self self',
         within_interface self ->
         configure kw self = (Ok tt, self') ->
         within_interface self').
Proof.
  split; [|apply configure_within_interface].
  intros cls args kw kwargs self. unfold __init__, rbind.
  destruct (validate_entrypoint_function (step_entrypoint cls) []) as [d|];
    [|discriminate].
  unfold sbind.
  match goal with
  | |- context [configure ?k ?s] =>
      assert (within_interface s) as Hw0
        by (split; [intros key [] | intros _ key []]);
      destruct (configure k s) as [[[]|e] s1] eqn:Hc; [|discriminate];
      apply (configure_within_interface _ _ _ Hw0) in Hc
  end.
  destruct (_verify_and_apply_init_params args kwargs s1) as [[[]|e] s2] eqn:Hi;
    [|discriminate].
  intros [= <-].
  now apply (verify_and_apply_init_params_within_interface _ _ _ _ Hc Hi).
Qed.
End ConfigureMore.

(** ** Calling a step *)

Section CallMore.
Context `{!Environment}.

Lemma parse_call_args_rounds (self : BaseStep) args kwargs :
  _parse_call_args self args kwargs
  = match bind_partial (sig_parameters (get_step_entrypoint_signature self))
            args kwargs with
    | Raise _ => Raise (StepInterfaceError WrongCallArguments)
    | Ok bound_args =>
        fold_result (parse_round (entrypoint_definition self))
          (apply_defaults (sig_parameters (get_step_entrypoint_signature self))
                          bound_args)
          ([], [], [])
    end.
Proof. reflexivity. Qed.

Lemma apply_defaults_keys ps arguments key :
  In key (Dict.keys (apply_defaults ps arguments)) -> In key (map param_name ps).
Proof.
  induction ps as [|p ps IH]; simpl; [auto|].
  destruct (Dict.get (param_name p) arguments), (param_default p); simpl;
    intros Hin; try (destruct Hin as [<-|Hin]); auto.
Qed.

Lemma apply_defaults_NoDup ps arguments :
  List.NoDup (map param_name ps) ->
  List.NoDup (Dict.keys (apply_defaults ps arguments)).
Proof.
  induction ps as [|p ps IH]; simpl; intros Hnd; [constructor|].
  inversion Hnd as [|? ? Hnotin Hnd']; subst.
  assert (~ In (param_name p) (Dict.keys (apply_defaults ps arguments))) as Hfresh
    by (intros Hin; apply Hnotin; now apply apply_defaults_keys in Hin).
  destruct (Dict.get (param_name p) arguments), (param_default p); simpl;
    try constructor; auto.
Qed.

Lemma Forall_set {V} (Q : string * V -> Prop) k v (d : Dict.t V) :
  Q (k, v) -> Forall Q d -> Forall Q (Dict.set k v d).
Proof.
  intros Hq Hd. induction d as [|[k' v'] d IH]; simpl.
  - constructor; [assumption | constructor].
  - inversion Hd; subst. destruct (String.eqb k k'); constructor; auto.
Qed.

Lemma validate_input_Ok definition key x :
  validate_input definition key x = Ok tt ->
  Dict.contains key (inputs definition) = true
  /\ forall v, x = ArgValue v -> is_json_serializable v = true.
Proof.
  unfold validate_input, Dict.contains.
  destruct (Dict.get key (inputs definition)) as [p|]; [|discriminate].
  intros Hv. split; [reflexivity|]. intros v ->.
  destruct (param_annotation p) as [[]|]; try discriminate;
    destruct (negb (pydantic_validates _ v)); try discriminate;
    destruct (is_json_serializable v); try discriminate; reflexivity.
Qed.

Lemma In_keys_set {V} key k (v : V) (d : Dict.t V) :
  In key (Dict.keys (Dict.set k v d)) <-> key = k \/ In key (Dict.keys d).
Proof.
  rewrite DictFacts.keys_set. destruct (Dict.contains k d) eqn:Hc.
  - apply DictFacts.contains_In in Hc. split; [auto | intros [->|?]; assumption].
  - rewrite in_app_iff. simpl. intuition congruence.
Qed.

Lemma parse_rounds_within definition l : forall acc parsed,
  fold_result (parse_round definition) l acc = Ok parsed ->
  List.NoDup (Dict.keys l) ->
  (forall key, In key (Dict.keys l) ->
               ~ In key (Dict.keys acc.1.1) /\ ~ In key (Dict.keys acc.1.2)
               /\ ~ In key (Dict.keys acc.2)) ->
  parsed_within definition acc ->
  parsed_within definition parsed.
Proof.
  induction l as [|[k x] l IH]; intros acc parsed Hr Hnd Hfresh Hacc; simpl in *.
  - now injection Hr as <-.
  - inversion Hnd as [|? ? Hnotin Hnd']; subst.
    unfold rbind in Hr.
    destruct (parse_round definition acc (k, x)) as [acc1|] eqn:Hround;
      [|discriminate].
    destruct acc as [[arts exts] ps]. unfold parse_round, rbind in Hround.
    cbn [fst snd] in Hround.
    destruct (validate_input definition k x) as [[]|] eqn:Hv; [|discriminate].
    apply validate_input_Ok in Hv as [Hin Hjson].
    destruct Hacc as (Hkeys & Hser & Hae & Hap & Hep).
    destruct (Hfresh k (or_introl eq_refl)) as (Hka & Hke & Hkp).
    simpl in Hka, Hke, Hkp.
    apply (IH _ _ Hr Hnd').
    + intros key Hkey.
      destruct (Hfresh key (or_intror Hkey)) as (Ha & He & Hp). simpl in Ha, He, Hp.
      assert (key <> k) as Hne by (intros ->; contradiction).
      injection Hround as <-.
      destruct x; simpl; rewrite ?In_keys_set; intuition.
    + injection Hround as <-.
      destruct x as [a|e|v]; simpl; repeat split.
      * intros key. rewrite In_keys_set. intros [[->|?]|[?|?]]; auto.
      * assumption.
      * intros key. rewrite In_keys_set. intros [[->|?] ?]; [tauto | now apply (Hae key)].
      * intros key. rewrite In_keys_set. intros [[->|?] ?]; [tauto | now apply (Hap key)].
      * assumption.
      * intros key. rewrite In_keys_set. intros [?|[[->|?]|?]]; auto.
      * assumption.
      * intros key. rewrite In_keys_set. intros [? [->|?]]; [tauto | now apply (Hae key)].
      * assumption.
      * intros key. rewrite In_keys_set. intros [[->|?] ?]; [tauto | now apply (Hep key)].
      * intros key. rewrite In_keys_set. intros [?|[?|[->|?]]]; auto.
      * apply Forall_set; [simpl; now apply Hjson | assumption].
      * assumption.
      * intros key. rewrite In_keys_set. intros [? [->|?]]; [tauto | now apply (Hap key)].
      * intros key. rewrite In_keys_set. intros [? [->|?]]; [tauto | now apply (Hep key)].
Qed.

(** X8. When the arguments of a call are accepted, each of them is in
    one of the three dictionaries and in no other: the keys of the input
    artifacts, of the external artifacts and of the parameters are
    pairwise distinct inputs of the entrypoint, and every parameter value
    is JSON serializable. *)
Theorem parse_call_args_within (self : BaseStep) (args : list call_arg)
    (kwargs : Dict.t call_arg)
    (parsed : Dict.t StepArtifact * Dict.t nat * Dict.t value) :
  List.NoDup (signature_keys (entrypoint self)) ->
  _parse_call_args self args kwargs = Ok parsed ->
  parsed_within (entrypoint_definition self) parsed.
Proof.
  intros Hnd. rewrite parse_call_args_rounds.
  destruct (bind_partial _ args kwargs) as [bound|]; [|discriminate].
  intros Hr. apply (parse_rounds_within _ _ _ _ Hr).
  - apply apply_defaults_NoDup. unfold get_step_entrypoint_signature. simpl.
    unfold signature_keys in Hnd.
    induction (sig_parameters (entrypoint self)) as [|p ps IH]; simpl;
      [constructor|].
    inversion Hnd as [|? ? Hnotin Hnd']; subst.
    destruct (negb _); simpl; [|now apply IH].
    constructor; [|now apply IH].
    intros Hin. apply Hnotin. apply in_map_iff in Hin as (q & Hq & Hin).
    apply filter_In in Hin as [Hin _]. rewrite <- Hq. now apply in_map.
  - intros key _. simpl. tauto.
  - repeat split; try constructor; simpl; tauto.
Qed.
End CallMore.

Section CallEffects.
Context `{!Environment}.

Lemma with_pipeline_same (w : World) : W.with_pipeline (ACTIVE_PIPELINE w) w = w.
Proof. now destruct w. Qed.

(** X9. Inside an active pipeline, calling a step changes nothing but
    the active pipeline: no template is configured, no artifact uploaded,
    no store called. A call that is refused, for its arguments or by the
    pipeline, changes nothing at all; a call that succeeds returns one
    artifact per output of the entrypoint, in order, all owned by the same
    invocation. *)
Theorem call_effects (a : nat) (args : list call_arg) (id_ : option string)
    (after_ : after_argument) (kwargs : Dict.t call_arg) (w w' : World)
    (r : Result call_result) (pipeline : Pipeline) :
  ACTIVE_PIPELINE w = Some pipeline ->
  __call__ a args id_ after_ kwargs w = (r, w') ->
  (exists p, w' = W.with_pipeline (Some p) w)
  /\ (forall e, r = Raise e -> w' = w)
  /\ (forall res, r = Ok res ->
      exists i,
        result_artifacts res
        = map (fun kv => {| invocation_id := i; output_name := fst kv;
                            annotation_ := snd kv |})
              (outputs (entrypoint_definition (step_objects w a)))).
Proof.
  intros Hp. unfold __call__, sbind, sget, slift, sput, sret. simpl. rewrite Hp.
  destruct (_parse_call_args (step_objects w a) args kwargs) as [[[ia ea] ps]|e0].
  - destruct (PipelineModel.add_step _ _ _ _ _ _ _ _ _) as [[i p']|e0].
    + set (outs := map _ (outputs (entrypoint_definition (step_objects w a)))).
      intros Hrun.
      assert (exists res, r = Ok res /\ result_artifacts res = outs
                          /\ w' = W.with_pipeline (Some p') w) as (res & -> & Hres & ->).
      { destruct outs as [|o [|o' outs']]; injection Hrun as <- <-; eexists;
          (split; [|split]); reflexivity. }
      split; [eauto|]. split; [discriminate|].
      intros res' [= <-]. exists i. exact Hres.
    + intros [= <- <-]. split.
      { exists pipeline. rewrite <- Hp. now rewrite with_pipeline_same. }
      split; [reflexivity | discriminate].
  - intros [= <- <-]. split.
    { exists pipeline. rewrite <- Hp. now rewrite with_pipeline_same. }
    split; [reflexivity | discriminate].
Qed.

(** X10. Whatever is given as [after], the upstream set of a call holds
    the invocation that owns each input artifact; it holds the identifier
    given as [after] when that is a single string. *)
Theorem call_upstream_steps_owners (ia : Dict.t StepArtifact)
    (after_ : after_argument) :
  (forall key a, Dict.get key ia = Some a ->
                 invocation_id a ∈ call_upstream_steps ia after_)
  /\ (forall s, after_ = AfterStr s -> s ∈ call_upstream_steps ia after_).
Proof.
  split.
  - intros key a Hget. apply call_upstream_steps_artifacts.
    unfold Dict.values. induction ia as [|[k v] ia IH]; simpl in *; [discriminate|].
    destruct (String.eqb key k); [injection Hget as ->; auto | auto].
  - intros s ->. apply call_upstream_steps_after_str.
Qed.
End CallEffects.

(** ** Finalizing the parameters *)

Section ParametersMore.
Context `{!Environment}.

Lemma signature_get_In key signature :
  signature_get key signature <> None <-> In key (signature_keys signature).
Proof.
  unfold signature_get, signature_keys.
  induction (sig_parameters signature) as [|q l IH]; simpl; [tauto|].
  destruct (String.eqb_spec key (param_name q)) as [->|Hne].
  - split; [auto | discriminate].
  - rewrite IH. split; [auto | intros [?|?]; congruence].
Qed.

Lemma finalize_parameter_keys signature acc kv acc' :
  finalize_parameter signature acc kv = Ok acc' ->
  forall key, In key (Dict.keys acc') <->
              In key (Dict.keys acc)
              \/ (key = fst kv /\ signature_get key signature <> None).
Proof.
  unfold finalize_parameter. intros Hr key.
  destruct (signature_get (fst kv) signature) as [q|] eqn:Hq.
  - assert (exists v, acc' = Dict.set (fst kv) v acc) as (v & ->).
    { destruct (param_annotation q) as [[]|]; try (injection Hr as <-; eauto).
      destruct (is_model_class _); [|injection Hr as <-; eauto].
      destruct (snd kv); try discriminate.
      destruct (instantiate_model _ _); [|discriminate]. injection Hr as <-; eauto. }
    rewrite In_keys_set. split.
    + intros [->|?]; [right; split; [reflexivity | congruence] | auto].
    + intros [?|[-> _]]; auto.
  - injection Hr as <-. split; [auto|]. intros [?|[-> Hne]]; [assumption | congruence].
Qed.

Lemma finalize_parameters_keys_rounds signature l : forall acc acc',
  fold_result (finalize_parameter signature) l acc = Ok acc' ->
  forall key, In key (Dict.keys acc') <->
              In key (Dict.keys acc)
              \/ (In key (Dict.keys l) /\ signature_get key signature <> None).
Proof.
  induction l as [|kv l IH]; intros acc acc' Hr key; simpl in *.
  - injection Hr as <-. tauto.
  - unfold rbind in Hr.
    destruct (finalize_parameter signature acc kv) as [acc1|] eqn:H1; [|discriminate].
    rewrite (IH _ _ Hr key), (finalize_parameter_keys _ _ _ _ H1 key).
    intuition (subst; auto).
Qed.

(** X11. The finalized parameters are the configured parameters that
    name an argument of the entrypoint, and the parameters object under
    its name when the entrypoint has one: a configured parameter of
    another name is dropped, and no other key is added. *)
Theorem finalize_parameters_keys (self : BaseStep) (ps : Dict.t value) :
  _finalize_parameters self = Ok ps ->
  forall key,
    In key (Dict.keys ps) <->
    (In key (Dict.keys (Config.get_parameters (configuration self)))
     /\ In key (signature_keys (get_step_entrypoint_signature self)))
    \/ (exists p, params (entrypoint_definition self) = Some p /\ key = param_name p).
Proof.
  unfold _finalize_parameters, rbind. intros Hr key.
  destruct (fold_result _ _ _) as [ps0|] eqn:Hfold; [|discriminate].
  pose proof (finalize_parameters_keys_rounds _ _ _ _ Hfold key) as Hkeys.
  rewrite signature_get_In in Hkeys. simpl in Hkeys.
  destruct (params (entrypoint_definition self)) as [p|].
  - destruct (_finalize_legacy_parameters self); [|discriminate].
    injection Hr as <-. rewrite In_keys_set, Hkeys. split.
    + intros [->|[[]|?]]; eauto.
    + intros [?|(q & [= <-] & ->)]; auto.
  - injection Hr as <-. rewrite Hkeys. split.
    + intros [[]|?]; auto.
    + intros [?|(q & [=] & _)]; auto.
Qed.

Lemma legacy_rounds configured new_way fields :
  forall (values : Dict.t value) (missing : list string),
  let result :=
    @fold_left (Dict.t value * list string) ModelField
      (legacy_round configured new_way) fields (values, missing) in
  result.2 = missing ++ map field_name (List.filter (is_missing configured new_way) fields)
  /\ (forall key, In key (Dict.keys values) -> In key (Dict.keys result.1))
  /\ (forall field, In field fields -> is_missing configured new_way field = false ->
       In (field_name field) (Dict.keys result.1)).
Proof.
  induction fields as [|f fields IH]; intros values missing; cbn zeta; simpl fold_left.
  - simpl. rewrite app_nil_r. repeat split; [auto | tauto].
  - remember (legacy_round configured new_way (values, missing) f) as acc1 eqn:Hacc1.
    simpl List.filter.
    assert ((is_missing configured new_way f = false
             /\ exists v, acc1 = (Dict.set (field_name f) v values, missing))
            \/ (is_missing configured new_way f = true
                /\ acc1 = (values, missing ++ [field_name f]))) as Hcases.
    { subst acc1. unfold legacy_round, is_missing, Dict.contains. cbn [fst snd].
      destruct (Dict.get (field_name f) configured) as [v|].
      - left. rewrite andb_false_r. eauto.
      - destruct (Dict.get (field_name f) new_way) as [v|].
        + left. rewrite andb_false_r. eauto.
        + destruct (field_required f); [right | left]; simpl; eauto. }
    destruct Hcases as [[Hq (v & ->)]|[Hq ->]]; rewrite Hq.
    + destruct (IH (Dict.set (field_name f) v values) missing) as (Hm & Hk & Hf).
      split; [exact Hm|]. split.
      * intros key Hin. apply Hk, In_keys_set. auto.
      * intros field [<-|Hfield] Hreq; [apply Hk, In_keys_set; auto | now apply Hf].
    + destruct (IH values (missing ++ [field_name f])) as (Hm & Hk & Hf).
      split; [rewrite Hm, <- app_assoc; reflexivity|]. split; [exact Hk|].
      intros field [<-|Hfield] Hr; [congruence | now apply Hf].
Qed.

Lemma update_keys {V} (u : Dict.t V) : forall (d : Dict.t V) key,
  In key (Dict.keys d) -> In key (Dict.keys (Dict.update d u)).
Proof.
  unfold Dict.update. induction u as [|[k v] u IH]; intros d key Hin; simpl;
    [assumption|].
  apply IH, In_keys_set. auto.
Qed.

(** Over a mapping, the rounds of the loop do not fail. *)
Lemma legacy_parameter_rounds_mapping configured (d : Dict.t value) fields :
  forall acc,
    fold_result (legacy_parameter_round configured (VDict d)) fields acc
    = Ok (fold_left (legacy_round configured d) fields acc).
Proof.
  induction fields as [|f fields IH]; intros acc; simpl; [reflexivity|].
  unfold rbind at 1.
  assert (legacy_parameter_round configured (VDict d) acc f
          = Ok (legacy_round configured d acc f)) as ->.
  { unfold legacy_parameter_round, legacy_round, new_way_lookup, rbind.
    destruct (Dict.get (field_name f) configured); reflexivity. }
  apply IH.
Qed.

(** [_finalize_legacy_parameters] for a parameters object of class [c]. *)
Lemma finalize_legacy_parameters_unfold (self : BaseStep) (p : Param) (c : PyClass) :
  params (entrypoint_definition self) = Some p ->
  param_annotation p = Some (TClass c) ->
  new_way_is_mapping self p ->
  _finalize_legacy_parameters self
  = let configured := Config.get_parameters (configuration self) in
    let '(values, missing_keys) :=
      fold_left (legacy_round configured (params_defined_in_new_way self p))
                (cls_fields c) ([], []) in
    match missing_keys with
    | _ :: _ => Raise (MissingStepParameterError (name self) missing_keys)
    | [] =>
        let values :=
          if cls_extra_allow c then Dict.update values configured else values in
        match instantiate_model c values with
        | None => Raise (StepInterfaceError FailedToValidateFunctionParameters)
        | Some _ => Ok values
        end
    end.
Proof.
  intros Hp Ha Hmap. unfold _finalize_legacy_parameters. rewrite Hp, Ha.
  unfold new_way_is_mapping in Hmap. unfold params_defined_in_new_way.
  destruct (Dict.get (param_name p) (Config.get_parameters (configuration self)))
    as [[]|]; try (destruct Hmap); cbv zeta;
    rewrite legacy_parameter_rounds_mapping; unfold rbind; reflexivity.
Qed.

(** X12. With a parameters object whose class is [c], the legacy
    parameters fail with the missing-parameter error exactly when a
    required field of [c] has no value, neither under its own name nor
    in the mapping configured under the name of the parameters object;
    the error names the step and lists these fields in the order of
    their declaration. Otherwise the only failure is that of the
    validation by the class, and a result has a value for every field of
    [c]. *)
Theorem finalize_legacy_parameters_missing (self : BaseStep) (p : Param)
    (c : PyClass) :
  params (entrypoint_definition self) = Some p ->
  param_annotation p = Some (TClass c) ->
  new_way_is_mapping self p ->
  match missing_fields self p c with
  | _ :: _ =>
      _finalize_legacy_parameters self
      = Raise (MissingStepParameterError (name self) (missing_fields self p c))
  | [] =>
      (exists values,
          _finalize_legacy_parameters self = Ok values
          /\ forall field, In field (cls_fields c) ->
                           In (field_name field) (Dict.keys values))
      \/ _finalize_legacy_parameters self
         = Raise (StepInterfaceError FailedToValidateFunctionParameters)
  end.
Proof.
  intros Hp Ha Hmap. rewrite (finalize_legacy_parameters_unfold self p c Hp Ha Hmap).
  unfold missing_fields. cbn zeta.
  set (configured := Config.get_parameters (configuration self)).
  set (new_way := params_defined_in_new_way self p).
  match goal with
  | |- context [match ?t with pair _ _ => _ end] =>
      pose proof (legacy_rounds configured new_way (cls_fields c) [] []
                  : let result := t in _) as Hrounds;
      cbv zeta in Hrounds; revert Hrounds; destruct t as [values missing_keys]
  end.
  intros (Hm & _ & Hf). simpl in Hm, Hf. rewrite Hm.
  destruct (map field_name _) as [|m ms] eqn:Hmissing; [|reflexivity].
  destruct (instantiate_model c _); [left | right; reflexivity].
  eexists. split; [reflexivity|]. intros field Hin.
  assert (In (field_name field) (Dict.keys values)) as Hv.
  { apply Hf; [assumption|].
    destruct (is_missing configured new_way field) eqn:Hq; [|reflexivity].
    assert (In (field_name field)
              (map field_name
                 (List.filter (is_missing configured new_way) (cls_fields c)))) as Habs
      by (apply in_map, filter_In; split; assumption).
    rewrite Hmissing in Habs. destruct Habs. }
  destruct (cls_extra_allow c); [now apply update_keys | assumption].
Qed.
End ParametersMore.

(** ** The caching parameters under configuration *)

Section CachingMore.
Context `{!Environment}.

(** X13. The caching parameters depend on the source of the step and on
    the materializers of its outputs only: a configuration update that
    gives no output materializers (parameters, settings, extra, the
    cache flags, the hooks) leaves them as they are, whether it merges or
    overrides, and whether it is accepted or refused. *)
Theorem configure_keeps_caching_parameters (kw : Kwargs.t) (self self' : BaseStep)
    (r : Result unit) :
  Kwargs.output_materializers kw = None ->
  configure kw self = (r, self') ->
  caching_parameters self' = caching_parameters self.
Proof.
  intros Ho. rewrite configure_unfold.
  destruct (resolve_hook (Kwargs.on_failure kw)) as [f|]; [|now intros [= <- <-]].
  destruct (resolve_hook (Kwargs.on_success kw)) as [s|]; [|now intros [= <- <-]].
  rewrite apply_configuration_unfold.
  destruct (_validate_configuration self _); [|now intros [= <- <-]].
  intros [= <- <-]. unfold caching_parameters. simpl.
  unfold Config.get_outputs, configuration. simpl.
  unfold configure_outputs. rewrite Ho. simpl.
  destruct (Kwargs.merge kw); reflexivity.
Qed.
End CachingMore.

(** ** External artifacts *)

Section UploadMore.
Context `{!Environment}.

(** X14. An upload that is refused before anything is written leaves
    the metadata store, the files, the artifact and every step object as
    they were, so that the artifact is still to be uploaded. There are
    two such refusals: the materializer cannot be chosen, and then no
    store is called at all; the location of the upload exists already,
    and then the one call made is the question whether it exists. *)
Theorem refused_upload_writes_nothing (self : nat) (w w' : World)
    (r : Result UUID) :
  _id (artifact_objects w self) = None ->
  do_something self w = (r, w') ->
  (forall e, _get_materializer (artifact_objects w self) = Raise e ->
             r = Raise e /\ trace w' = trace w /\ nothing_written w w')
  /\ (forall materializer_class,
         _get_materializer (artifact_objects w self) = Ok materializer_class ->
         upload_location w ∈ files w ->
         r = Raise (RuntimeError ArtifactUriExists)
         /\ trace w' = trace w ++ [FileExists (upload_location w)]
         /\ nothing_written w w').
Proof.
  intros Hid. unfold do_something, upload_location.
  unfold sbind, sget, sput, slift, sret, sraise, W.uuid4, W.exists_, W.makedirs,
    W.save, W.create_artifact, W.log, sbind, sget, sput, sret.
  simpl. rewrite Hid.
  destruct (_get_materializer (artifact_objects w self)) as [mc|e0]; simpl.
  - intros Hd. split; [discriminate|].
    intros materializer_class _ Hex.
    rewrite bool_decide_eq_true_2 in Hd by exact Hex.
    injection Hd as <- <-. repeat split.
  - intros [= <- <-]. split; [|discriminate].
    intros e [= <-]. repeat split.
Qed.

(** X15. An artifact that refers to a record by its identifier is never
    uploaded: resolving it reads the record once and writes nothing. It
    gives the identifier back exactly when the record exists and belongs
    to the active artifact store; a missing record is the [KeyError] of
    the lookup and a record of another store the store-mismatch error. *)
Theorem referenced_artifact_never_uploaded (self : nat) (w : World) (i : UUID) :
  _id (artifact_objects w self) = Some i ->
  exists r,
    do_something self w
    = (r, W.with_services (zen_store w) (files w) (next_uuid w)
            (trace w ++ [GetArtifact i]) w)
    /\ (r = Ok i <->
        exists record, zen_store w !! i = Some record
                       /\ artifact_store_id record = active_artifact_store_id w)
    /\ (forall j, r = Ok j -> j = i)
    /\ (zen_store w !! i = None -> r = Raise (KeyError (pretty i)))
    /\ (forall record, zen_store w !! i = Some record ->
                       artifact_store_id record <> active_artifact_store_id w ->
                       r = Raise (RuntimeError ArtifactStoreMismatch)).
Proof.
  intros Hid. unfold do_something.
  unfold sbind, sget, sput, slift, sret, sraise, W.get_artifact, W.log, sbind,
    sget, sret, sraise.
  simpl. rewrite Hid. simpl.
  destruct (zen_store w !! i) as [record|] eqn:Hrec; simpl.
  - case_bool_decide as Hs; simpl.
    + eexists. split; [reflexivity|]. split; [|split; [|split]].
      * split; [eauto | reflexivity].
      * now intros j [= <-].
      * discriminate.
      * intros record' [= <-] Hne. contradiction.
    + eexists. split; [reflexivity|]. split; [|split; [|split]].
      * split; [discriminate|]. intros (record' & [= <-] & Heq). contradiction.
      * discriminate.
      * discriminate.
      * reflexivity.
  - eexists. split; [reflexivity|]. split; [|split; [|split]].
    + split; [discriminate|]. intros (record' & [=] & _).
    + discriminate.
    + reflexivity.
    + discriminate.
Qed.

(** X16. A successful upload stores one record under the identifier it
    returns and touches no other record: the record bears the active
    artifact store, user and workspace, the type of the value, and the
    artifact type and source of the chosen materializer; its location
    did not exist before and exists afterwards. The artifact keeps its
    value beside the identifier, and no other artifact changes. *)
Theorem upload_stores_record (self : nat) (w w' : World) (i : UUID) :
  _id (artifact_objects w self) = None ->
  do_something self w = (Ok i, w') ->
  exists record materializer_class,
    zen_store w' = <[i := record]> (zen_store w)
    /\ _get_materializer (artifact_objects w self) = Ok materializer_class
    /\ artifact_type record = mat_artifact_type materializer_class
    /\ artifact_materializer record = mat_import_path materializer_class
    /\ artifact_data_type record = type_of (_value (artifact_objects w self))
    /\ artifact_store_id record = active_artifact_store_id w
    /\ artifact_user record = active_user_id w
    /\ artifact_workspace record = active_workspace_id w
    /\ (artifact_uri record ∉ files w)
    /\ files w' = {[artifact_uri record]} ∪ files w
    /\ _value (artifact_objects w' self) = _value (artifact_objects w self)
    /\ (forall a, a <> self -> artifact_objects w' a = artifact_objects w a).
Proof.
  intros Hid. unfold do_something.
  unfold sbind, sget, sput, slift, sret, sraise, W.uuid4, W.exists_, W.makedirs,
    W.save, W.create_artifact, W.log, sbind, sget, sput, sret.
  simpl. rewrite Hid.
  destruct (_get_materializer (artifact_objects w self)) as [mc|e0]; simpl;
    [|discriminate].
  case_bool_decide as Hex; [discriminate|].
  intros [= <- <-]. simpl. eexists _, mc. repeat split.
  - exact Hex.
  - now rewrite fn_lookup_insert.
  - intros a Hne. now rewrite fn_lookup_insert_ne.
Qed.
Lemma do_something_id_monotone (self a : nat) (w w' : World) r (i : UUID) :
  _id (artifact_objects w a) = Some i ->
  do_something self w = (r, w') ->
  _id (artifact_objects w' a) = Some i.
Proof.
  intros Ha. unfold do_something.
  unfold sbind, sget, sput, slift, sret, sraise, W.uuid4, W.exists_, W.makedirs,
    W.save, W.create_artifact, W.get_artifact, W.log, sbind, sget, sput, sret,
    sraise.
  simpl. destruct (_id (artifact_objects w self)) as [j|] eqn:Hself; simpl.
  - destruct (zen_store w !! j); simpl; [|now intros [= <- <-]].
    destruct (negb _); now intros [= <- <-].
  - assert (a <> self) as Hne by congruence.
    destruct (_get_materializer (artifact_objects w self)); simpl;
      [|now intros [= <- <-]].
    destruct (bool_decide _); intros [= <- <-]; simpl; [assumption|].
    now rewrite fn_lookup_insert_ne.
Qed.

Lemma do_something_resolved (self : nat) (w w' : World) (j : UUID) :
  do_something self w = (Ok j, w') -> _id (artifact_objects w' self) = Some j.
Proof.
  unfold do_something.
  unfold sbind, sget, sput, slift, sret, sraise, W.uuid4, W.exists_, W.makedirs,
    W.save, W.create_artifact, W.get_artifact, W.log, sbind, sget, sput, sret,
    sraise.
  simpl. destruct (_id (artifact_objects w self)) as [i|] eqn:Hself; simpl.
  - destruct (zen_store w !! i); simpl; [|discriminate].
    destruct (negb _); [discriminate|]. now intros [= <- <-].
  - destruct (_get_materializer (artifact_objects w self)); simpl; [|discriminate].
    destruct (bool_decide _); [discriminate|]. intros [= <- <-]. simpl.
    now rewrite fn_lookup_insert.
Qed.

Lemma do_something_pipeline (self : nat) (w w' : World) r :
  do_something self w = (r, w') -> ACTIVE_PIPELINE w' = ACTIVE_PIPELINE w.
Proof.
  unfold do_something.
  unfold sbind, sget, sput, slift, sret, sraise, W.uuid4, W.exists_, W.makedirs,
    W.save, W.create_artifact, W.get_artifact, W.log, sbind, sget, sput, sret,
    sraise.
  simpl. destruct (_id (artifact_objects w self)) as [i|]; simpl.
  - destruct (zen_store w !! i); simpl; [|now intros [= <- <-]].
    destruct (negb _); now intros [= <- <-].
  - destruct (_get_materializer (artifact_objects w self)); simpl;
      [|now intros [= <- <-]].
    destruct (bool_decide _); now intros [= <- <-].
Qed.

Lemma upload_external_artifacts_monotone artifacts (a : nat) (i : UUID) :
  forall ids w r w',
    _id (artifact_objects w a) = Some i ->
    upload_external_artifacts artifacts ids w = (r, w') ->
    _id (artifact_objects w' a) = Some i.
Proof.
  induction artifacts as [|[key b] artifacts IH]; intros ids w r w' Ha; simpl.
  - now intros [= <- <-].
  - unfold sbind. destruct (do_something b w) as [[j|e] w1] eqn:Hd.
    + apply IH. now apply (do_something_id_monotone b a w w1 (Ok j)).
    + intros [= <- <-]. now apply (do_something_id_monotone b a w w1 (Raise e)).
Qed.

Lemma upload_external_artifacts_pipeline artifacts : forall ids w r w',
  upload_external_artifacts artifacts ids w = (r, w') ->
  ACTIVE_PIPELINE w' = ACTIVE_PIPELINE w.
Proof.
  induction artifacts as [|[key b] artifacts IH]; intros ids w r w'; simpl.
  - now intros [= <- <-].
  - unfold sbind. destruct (do_something b w) as [[j|e] w1] eqn:Hd.
    + intros Hu. apply IH in Hu. rewrite Hu. now apply do_something_pipeline in Hd.
    + intros [= <- <-]. now apply do_something_pipeline in Hd.
Qed.

Lemma upload_external_artifacts_ids artifacts : forall ids w ids' w',
  upload_external_artifacts artifacts ids w = (Ok ids', w') ->
  (forall key, In key (Dict.keys ids') <->
               In key (Dict.keys ids) \/ In key (Dict.keys artifacts))
  /\ (forall key, ~ In key (Dict.keys artifacts) ->
                  Dict.get key ids' = Dict.get key ids)
  /\ (List.NoDup (Dict.keys artifacts) ->
      forall key a, In (key, a) artifacts ->
                    exists i, Dict.get key ids' = Some i
                              /\ _id (artifact_objects w' a) = Some i).
Proof.
  induction artifacts as [|[k b] artifacts IH]; intros ids w ids' w'; simpl.
  - intros [= <- <-]. repeat split; tauto.
  - unfold sbind. destruct (do_something b w) as [[j|e] w1] eqn:Hd; [|discriminate].
    intros Hu. destruct (IH _ _ _ _ Hu) as (Hkeys & Hother & Hin). split; [|split].
    + intros key. rewrite Hkeys, In_keys_set. intuition (subst; auto).
    + intros key Hnot. rewrite Hother by tauto.
      apply DictFacts.get_set_ne. intros ->. tauto.
    + intros Hnd key a [[= <- <-]|Hka].
      * inversion Hnd as [|? ? Hnotin _]; subst. exists j. split.
        -- rewrite Hother by assumption. apply DictFacts.get_set_eq.
        -- apply (upload_external_artifacts_monotone _ _ _ _ _ _ _
                    (do_something_resolved _ _ _ _ Hd) Hu).
      * inversion Hnd as [|? ? _ Hnd']; subst. now apply Hin.
Qed.

(** X17. When the external artifacts of an invocation are uploaded, the
    identifiers returned are those of the artifacts, key by key: the
    keys are the keys of the artifacts, an artifact that was resolved
    before keeps its identifier, and afterwards every artifact of the
    invocation holds the identifier recorded under its key, also when
    one artifact is given under two keys. No step object is touched. *)
Theorem upload_external_artifacts_resolved (artifacts : Dict.t nat)
    (w w' : World) (ids : Dict.t UUID) :
  List.NoDup (Dict.keys artifacts) ->
  upload_external_artifacts artifacts [] w = (Ok ids, w') ->
  (forall key, In key (Dict.keys ids) <-> In key (Dict.keys artifacts))
  /\ (forall key a, In (key, a) artifacts ->
                    exists i, Dict.get key ids = Some i
                              /\ _id (artifact_objects w' a) = Some i
                              /\ (forall j, _id (artifact_objects w a) = Some j -> i = j))
  /\ step_objects w' = step_objects w.
Proof.
  intros Hnd Hu. destruct (upload_external_artifacts_ids _ _ _ _ _ Hu)
    as (Hkeys & _ & Hin).
  split; [|split].
  - intros key. rewrite Hkeys. simpl. tauto.
  - intros key a Hka. destruct (Hin Hnd key a Hka) as (i & Hget & Hid).
    exists i. split; [assumption|]. split; [assumption|].
    intros j Hj.
    pose proof (upload_external_artifacts_monotone _ _ _ _ _ _ _ Hj Hu) as Hj'.
    congruence.
  - now apply upload_external_artifacts_step_objects in Hu.
Qed.
End UploadMore.

(** ** Finalizing an invocation *)

Section FinalizeMore.
Context `{!Environment}.

Lemma step_frame_refl (self : BaseStep) : step_frame self self.
Proof. repeat split. Qed.

Lemma step_frame_trans (s1 s2 s3 : BaseStep) :
  step_frame s1 s2 -> step_frame s2 s3 -> step_frame s1 s3.
Proof.
  unfold step_frame. intros (? & ? & ? & ? & ? & ?) (? & ? & ? & ? & ? & ?).
  repeat split; congruence.
Qed.

(** What [_finalize_configuration] leaves alone, and what it returns. *)
Lemma finalize_configuration_frame ia ea (self self' : BaseStep) r :
  _finalize_configuration ia ea self = (r, self') ->
  step_frame self self'
  /\ forall cfg, r = Ok cfg ->
       configuration self' = cfg
       /\ Config.name cfg = name self
       /\ Config.caching_parameters cfg = Some (caching_parameters self')
       /\ Config.external_input_artifacts cfg = Some ea.
Proof.
  rewrite finalize_configuration_unfold.
  destruct (resolve_outputs self) as [o|];
    [|intros [= <- <-]; split; [apply step_frame_refl | discriminate]].
  destruct (_finalize_parameters self) as [ps|];
    [|intros [= <- <-]; split; [apply step_frame_refl | discriminate]].
  destruct (configure _ self) as [[[]|e] s1] eqn:Hc.
  2:{ intros [= <- <-]. split; [exact (configure_frame _ _ _ _ Hc) | discriminate]. }
  pose proof (configure_frame _ _ _ _ Hc) as Hf1.
  destruct (_validate_inputs s1 ia ea);
    [|intros [= <- <-]; split; [exact Hf1 | discriminate]].
  destruct (_apply_configuration _ true s1) as [[[]|e] s2] eqn:Ha.
  2:{ intros [= <- <-]. split; [|discriminate].
      exact (step_frame_trans _ _ _ Hf1 (apply_configuration_frame _ _ _ _ _ Ha)). }
  pose proof (step_frame_trans _ _ _ Hf1 (apply_configuration_frame _ _ _ _ _ Ha))
    as Hf2.
  intros [= <- <-]. split.
  - destruct Hf2 as (? & ? & ? & ? & ? & ?). repeat split; assumption.
  - intros cfg [= <-]. repeat split.
    destruct Hf2 as (_ & _ & _ & _ & _ & Hn). exact Hn.
Qed.

(** [StepInvocation.finalize], statement by statement. *)
Lemma finalize_unfold (self : StepInvocation) pipeline w :
  finalize self pipeline w =
  match _get_and_validate_step_upstream_steps self pipeline
          (step_objects w (step self)) with
  | Raise e => (Raise e, w)
  | Ok _ =>
      match on_step (step self)
              (configure (Kwargs.of_parameters (parameters self) true)) w with
      | (Raise e, w1) => (Raise e, w1)
      | (Ok _, w1) =>
          match upload_external_artifacts (external_artifacts self) [] w1 with
          | (Raise e, w2) => (Raise e, w2)
          | (Ok ids, w2) =>
              on_step (step self)
                (_finalize_configuration (input_artifacts self) ids) w2
          end
      end
  end.
Proof.
  unfold finalize, sbind, sget, slift. simpl.
  destruct (_get_and_validate_step_upstream_steps _ _ _); [|reflexivity].
  destruct (on_step _ _ w) as [[[]|] w1]; [|reflexivity].
  destruct (upload_external_artifacts _ _ w1) as [[ids|] w2]; reflexivity.
Qed.

(** X18. Finalizing an invocation works on the template it shares with
    the other invocations of its step: it may change the configuration
    of that step object, the external artifacts and the stores, and
    nothing else; no other step object, not the active pipeline, and of
    the template neither the name, the source, the entrypoint nor the
    upstream steps. When it succeeds, the configuration it returns is
    the one the template is left with; it bears the name of the step,
    the caching parameters of the template as it is left, and the
    identifiers of the external artifacts of the invocation. *)
Theorem finalize_effects (self : StepInvocation) (pipeline : Pipeline)
    (w w' : World) (r : Result Config.StepConfiguration) :
  finalize self pipeline w = (r, w') ->
  ACTIVE_PIPELINE w' = ACTIVE_PIPELINE w
  /\ (forall a, a <> step self -> step_objects w' a = step_objects w a)
  /\ step_frame (step_objects w (step self)) (step_objects w' (step self))
  /\ (forall cfg, r = Ok cfg ->
      configuration (step_objects w' (step self)) = cfg
      /\ Config.name cfg = name (step_objects w (step self))
      /\ Config.caching_parameters cfg
         = Some (caching_parameters (step_objects w' (step self)))
      /\ exists ids,
           Config.external_input_artifacts cfg = Some ids
           /\ (forall key, In key (Dict.keys ids) <->
                           In key (Dict.keys (external_artifacts self)))
           /\ (List.NoDup (Dict.keys (external_artifacts self)) ->
               forall key a, In (key, a) (external_artifacts self) ->
                 exists i, Dict.get key ids = Some i
                           /\ _id (artifact_objects w' a) = Some i)).
Proof.
  rewrite finalize_unfold.
  destruct (_get_and_validate_step_upstream_steps _ _ _) as [hinted|];
    [|intros [= <- <-]; split; [reflexivity|]; split; [reflexivity|];
      split; [apply step_frame_refl | discriminate]].
  rewrite on_step_unfold.
  destruct (configure _ (step_objects w (step self))) as [r1 s1] eqn:Hc.
  pose proof (configure_frame _ _ _ _ Hc) as Hf1. cbn [fst snd].
  set (w1 := W.with_step (step self) s1 w).
  assert (forall a, a <> step self -> step_objects w1 a = step_objects w a) as Hother1
    by (intros a Hne; unfold w1; simpl; now rewrite fn_lookup_insert_ne).
  assert (step_objects w1 (step self) = s1) as Hself1
    by (unfold w1; simpl; now rewrite fn_lookup_insert).
  destruct r1 as [[]|e].
  2:{ intros [= <- <-]. split; [reflexivity|]. split; [exact Hother1|].
      split; [rewrite Hself1; exact Hf1 | discriminate]. }
  destruct (upload_external_artifacts (external_artifacts self) [] w1)
    as [[ids|e] w2] eqn:Hu.
  2:{ intros [= <- <-].
      pose proof (upload_external_artifacts_step_objects _ _ _ _ _ Hu) as Hs.
      pose proof (upload_external_artifacts_pipeline _ _ _ _ _ Hu) as Hp.
      split; [exact Hp|]. rewrite Hs. split; [exact Hother1|].
      split; [rewrite Hself1; exact Hf1 | discriminate]. }
  pose proof (upload_external_artifacts_step_objects _ _ _ _ _ Hu) as Hs.
  pose proof (upload_external_artifacts_pipeline _ _ _ _ _ Hu) as Hp.
  destruct (upload_external_artifacts_ids _ _ _ _ _ Hu) as (Hkeys & _ & Hin).
  rewrite on_step_unfold, Hs, Hself1.
  destruct (_finalize_configuration (input_artifacts self) ids s1) as [r2 s2] eqn:Hfc.
  destruct (finalize_configuration_frame _ _ _ _ _ Hfc) as (Hf2 & Hcfg).
  cbn [fst snd]. intros [= <- <-]. cbn [W.with_step ACTIVE_PIPELINE step_objects
                                         artifact_objects].
  split; [exact Hp|]. split.
  { intros a Hne. rewrite fn_lookup_insert_ne by congruence. rewrite Hs.
    now apply Hother1. }
  rewrite fn_lookup_insert. split; [exact (step_frame_trans _ _ _ Hf1 Hf2)|].
  intros cfg Hr. destruct (Hcfg cfg Hr) as (H1 & H2 & H3 & H4).
  split; [exact H1|]. split.
  { rewrite H2. destruct Hf1 as (_ & _ & _ & _ & _ & Hn). exact Hn. }
  split; [exact H3|]. exists ids. split; [exact H4|]. split.
  - intros key. rewrite Hkeys. simpl. tauto.
  - exact Hin.
Qed.
End FinalizeMore.

(** ** The materializers of the outputs *)

Section OutputsMore.
Context `{!Environment}.

Lemma resolve_outputs_keys (self : BaseStep) l : forall acc o,
  fold_result
    (fun outputs_ kv =>
       (r <~ resolve_output_materializers self (fst kv) (snd kv) ;;
        Ok (match r with
            | Some materializer_source =>
                Dict.set (fst kv)
                  {| Config.materializer_source := Some materializer_source |}
                  outputs_
            | None => outputs_
            end))%R) l acc = Ok o ->
  forall name, In name (Dict.keys o) ->
    In name (Dict.keys acc)
    \/ exists ann ms, In (name, ann) l
                      /\ resolve_output_materializers self name ann = Ok (Some ms).
Proof.
  induction l as [|[k a] l IH]; intros acc o Hr name Hin; simpl in *.
  - injection Hr as <-. auto.
  - unfold rbind at 1 2 in Hr.
    destruct (resolve_output_materializers self k a) as [r|] eqn:Hk; [|discriminate].
    destruct (IH _ _ Hr name Hin) as [Hacc|(ann & ms & Hl & Hres)]; [|right; eauto].
    destruct r as [ms|]; [|auto].
    apply In_keys_set in Hacc as [->|Hacc]; [right; eauto | auto].
Qed.

Lemma In_keys_unique {V} (l : Dict.t V) k v v' :
  List.NoDup (Dict.keys l) -> In (k, v) l -> In (k, v') l -> v = v'.
Proof.
  induction l as [|[k0 v0] l IH]; simpl; [tauto|].
  intros Hnd. inversion Hnd as [|? ? Hnotin Hnd']; subst.
  intros [Heq1|H1] [Heq2|H2].
  - congruence.
  - injection Heq1 as -> _. exfalso. apply Hnotin.
    now apply (in_map fst) in H2.
  - injection Heq2 as -> _. exfalso. apply Hnotin.
    now apply (in_map fst) in H1.
  - now apply IH.
Qed.

(** X19. The materializers that finalization resolves: an output with
    materializer sources of its own is left out, so its sources are
    never replaced and the registry is not asked; any other output is
    not annotated [Any], and one that is not a union has the one
    materializer registered for its type. An output annotated [Any]
    without sources of its own makes finalization fail, and the failed
    finalization leaves the step as it was. *)
Theorem resolve_outputs_explicit_or_registered (self : BaseStep) :
  (forall o,
      List.NoDup (Dict.keys (outputs (entrypoint_definition self))) ->
      resolve_outputs self = Ok o ->
      forall name ann,
        In (name, ann) (outputs (entrypoint_definition self)) ->
        if Config.has_materializer_source
             (default {| Config.materializer_source := None |}
                (Dict.get name (Config.get_outputs (_configuration self))))
        then Dict.get name o = None
        else ann <> TAny
             /\ exists ms,
                 Dict.get name o = Some {| Config.materializer_source := Some ms |}
                 /\ (is_union (origin_or_self ann) = false ->
                     exists c, materializer_types ann = Some c
                               /\ ms = [mat_import_path c]))
  /\ (forall name ia ea,
         In (name, TAny) (outputs (entrypoint_definition self)) ->
         Config.has_materializer_source
           (default {| Config.materializer_source := None |}
              (Dict.get name (Config.get_outputs (_configuration self)))) = false ->
         exists e, _finalize_configuration ia ea self = (Raise e, self)).
Proof.
  split.
  - intros o Hnd Ho name ann Hin. unfold resolve_outputs in Ho.
    destruct (resolve_outputs_rounds self name ann _ _ _ Ho (List.NoDup_nil _))
      as (_ & _ & Hget).
    destruct (Hget Hnd Hin) as (r & Hr & Hms).
    destruct (Config.has_materializer_source _) eqn:Hsrc.
    + apply DictFacts.get_None_not_In. intros Hk.
      destruct (resolve_outputs_keys self _ _ _ Ho name Hk)
        as [[]|(ann' & ms & Hin' & Hres)].
      assert (ann' = ann) as -> by (eapply In_keys_unique; eassumption).
      unfold resolve_output_materializers in Hres. rewrite Hsrc in Hres.
      discriminate.
    + unfold resolve_output_materializers in Hr. rewrite Hsrc in Hr. simpl in Hr.
      split; [intros ->; discriminate|].
      assert (exists ms, r = Some ms
                         /\ (is_union (origin_or_self ann) = false ->
                             exists c, materializer_types ann = Some c
                                       /\ ms = [mat_import_path c]))
        as (ms & -> & Hsingle).
      { destruct ann; try discriminate;
          match type of Hr with
          | context [is_union ?a] => destruct (is_union a) eqn:Hu
          end;
          unfold rbind in Hr;
          match type of Hr with
          | match ?m with Ok _ => _ | Raise _ => _ end = _ =>
              destruct m as [?ms|] eqn:Hm; [|discriminate]
          end;
          injection Hr as <-; eexists; (split; [reflexivity|]);
          intros Hnu; try discriminate;
          simpl in Hm;
          match type of Hm with
          | context [materializer_types ?t] =>
              destruct (materializer_types t) as [?mc|] eqn:Hc; [|discriminate]
          end;
          simpl in Hm; injection Hm as <-; eauto. }
      exists ms. split; [now apply Hms | exact Hsingle].
  - intros name ia ea Hin Hsrc.
    apply (finalize_configuration_output_failure ia ea self name TAny
             (StepInterfaceError ExplicitMaterializerRequired) Hin).
    unfold resolve_output_materializers. now rewrite Hsrc.
Qed.
End OutputsMore.

(** ** Creating an external artifact *)

Section ArtifactMore.
Context `{!Environment}.

(** X20. An external artifact is created from a value or from an
    identifier, never from both and never from neither. For an artifact
    created from a value the choice of the materializer never fails on
    its assertion; a materializer class given to the constructor is the
    one chosen, without a look at the registry, and without a
    materializer the registry decides by the type of the value. *)
Theorem created_artifact_materializer (value_ : value) (id_ : option UUID)
    (materializer : option MaterializerClassOrSource)
    (store_artifact_metadata skip_type_checking : bool) :
  match new_external_artifact value_ id_ materializer store_artifact_metadata
          skip_type_checking with
  | Raise e => (value_ = VNone <-> id_ = None) /\ exists message, e = ValueError message
  | Ok artifact =>
      (value_ = VNone <-> id_ <> None)
      /\ _value artifact = value_ /\ _id artifact = id_
      /\ _materializer artifact = materializer
      /\ (id_ = None ->
          _get_materializer artifact <> Raise AssertionError
          /\ (forall c, materializer = Some (MatClass c) ->
                        _get_materializer artifact = Ok c)
          /\ (materializer = None ->
              _get_materializer artifact
              = match materializer_types (type_of value_) with
                | Some c => Ok c
                | None => Raise (StepInterfaceError
                                   (UnableToFindMaterializer None (type_of value_)))
                end))
  end.
Proof.
  unfold new_external_artifact.
  destruct id_ as [i|].
  - destruct value_; simpl;
      try (split; [split; congruence | eauto]).
    split; [split; congruence|]. repeat (split; [reflexivity|]). congruence.
  - destruct value_; simpl;
      try (split; [split; congruence | eauto]).
    all: split; [split; congruence|]; repeat (split; [reflexivity|]); intros _;
      (split; [|split; [intros c ->; reflexivity | intros ->; reflexivity]]);
      unfold _get_materializer; simpl;
      destruct materializer as [[[|? ?]| |]|]; simpl;
      try discriminate;
      try (destruct (validate_source_class _); discriminate);
      try (destruct (materializer_types _); discriminate).
Qed.
End ArtifactMore.

(** ** Ordering hints that resolve *)

Section HintsMore.
Context `{!Environment}.

(** X21. When the ordering hints of a template resolve, they resolve to
    invocations of the pipeline: the upstream identifiers are exactly
    the identifiers of the invocations of the templates given to
    [after], none of which is invoked more than once; a template given
    to [after] that is not invoked is skipped without an error. A
    template without hints resolves to no upstream step, however often
    it is invoked itself. *)
Theorem hinted_upstream_sound (self : StepInvocation) (pipeline : Pipeline)
    (template : BaseStep) :
  (upstream_steps template = ∅ ->
   _get_and_validate_step_upstream_steps self pipeline template = Ok ∅)
  /\ (forall upstream,
         _get_and_validate_step_upstream_steps self pipeline template = Ok upstream ->
         (forall s, s ∈ upstream_steps template ->
                    size (invocation_ids pipeline s) <= 1)
         /\ (forall i, i ∈ upstream <->
                       exists s, s ∈ upstream_steps template
                                 /\ i ∈ invocation_ids pipeline s)
         /\ (forall i, i ∈ upstream ->
                       exists invocation,
                         In invocation (Dict.values (steps pipeline))
                         /\ id invocation = i
                         /\ step invocation ∈ upstream_steps template)).
Proof.
  split.
  - intros He. unfold _get_and_validate_step_upstream_steps, rbind.
    rewrite bool_decide_eq_false_2 by (intros Hne; now apply Hne).
    rewrite He, elements_empty. reflexivity.
  - intros upstream Hr.
    assert (fold_result (hinted_round pipeline) (elements (upstream_steps template)) ∅
            = Ok upstream) as Hfold.
    { unfold _get_and_validate_step_upstream_steps, rbind in Hr.
      destruct (bool_decide (upstream_steps template ≠ ∅)); [|exact Hr].
      destruct (bool_decide (1 < length _)); [discriminate | exact Hr]. }
    assert (forall s, s ∈ upstream_steps template ->
                      size (invocation_ids pipeline s) <= 1) as Hsizes.
    { intros s Hs.
      destruct (le_lt_dec (size (invocation_ids pipeline s)) 1) as [?|Hlt];
        [assumption|].
      rewrite (hinted_rounds_ambiguous pipeline _ ∅) in Hfold; [discriminate|].
      exists s. split; [|exact Hlt].
      apply list_elem_of_In, elem_of_elements, Hs. }
    destruct (hinted_rounds_unique pipeline (elements (upstream_steps template)) ∅)
      as (up & Hup & Hmem).
    { intros s Hs. apply Hsizes, elem_of_elements, list_elem_of_In, Hs. }
    rewrite Hfold in Hup. injection Hup as <-.
    assert (forall i, i ∈ upstream <->
                      exists s, s ∈ upstream_steps template
                                /\ i ∈ invocation_ids pipeline s) as Hiff.
    { intros i. rewrite Hmem. split.
      - intros [Hi|(s & Hs & Hi)]; [set_solver|].
        exists s. split; [|exact Hi]. apply elem_of_elements, list_elem_of_In, Hs.
      - intros (s & Hs & Hi). right. exists s. split; [|exact Hi].
        apply list_elem_of_In, elem_of_elements, Hs. }
    split; [exact Hsizes|]. split; [exact Hiff|].
    intros i Hi. apply Hiff in Hi as (s & Hs & Hi).
    unfold invocation_ids in Hi. apply elem_of_list_to_set in Hi.
    apply list_elem_of_In, in_map_iff in Hi as (invocation & Hid & Hinv).
    unfold invocations_of in Hinv. apply filter_In in Hinv as [Hin Hstep].
    apply bool_decide_eq_true_1 in Hstep.
    exists invocation. split; [exact Hin|]. split; [exact Hid|]. now rewrite Hstep.
Qed.
End HintsMore.

(** ** The properties on concrete steps and worlds *)

Section MoreConcrete.
Import Examples MoreExamples.
Local Existing Instance environment.

(** [def broken(a) -> int] cannot be made a step. *)
Lemma init_malformed_entrypoint_witness :
  malformed (step_entrypoint broken_class)
  /\ exists ie,
       __init__ broken_class [] Kwargs.defaults [] = Raise (StepInterfaceError ie).
Proof.
  assert (malformed (step_entrypoint broken_class)) as Hm
    by (right; left; reflexivity).
  split; [exact Hm|].
  exact (init_malformed_entrypoint broken_class [] Kwargs.defaults [] Hm).
Defined.

(** The trainer is named after its class and has no upstream steps. *)
Lemma init_created_step_witness :
  name trainer = "trainer" /\ upstream_steps trainer = ∅.
Proof.
  assert (__init__ trainer_class [] (Kwargs.of_parameters [("a", VInt 1)] true) []
          = Ok trainer) as Hi by reflexivity.
  destruct (init_created_step trainer_class []
              (Kwargs.of_parameters [("a", VInt 1)] true) [] trainer Hi)
    as (Hname & Hup & _).
  split; [exact Hname | exact Hup].
Defined.

(** The signature of the reporter, which takes the step context, holds
    its one input. *)
Lemma signature_covers_inputs_witness :
  In "a" (signature_keys (get_step_entrypoint_signature reporter)).
Proof.
  assert (__init__ reporter_class [] Kwargs.defaults [] = Ok reporter) as Hi
    by reflexivity.
  apply (proj1 (signature_covers_inputs reporter_class [] Kwargs.defaults []
                  reporter Hi) "a").
  reflexivity.
Defined.

(** The trainer refuses a parameter that is no input of its entrypoint,
    and stays as it was. *)
Lemma configure_rejected_update_witness :
  fst (configure (Kwargs.of_parameters [("zzz", VInt 1)] true) trainer)
  = Raise (StepInterfaceError CannotSetParameterWithoutParamClass)
  /\ snd (configure (Kwargs.of_parameters [("zzz", VInt 1)] true) trainer) = trainer.
Proof.
  split; [reflexivity|].
  assert (configure (Kwargs.of_parameters [("zzz", VInt 1)] true) trainer
          = (Raise (StepInterfaceError CannotSetParameterWithoutParamClass),
             snd (configure (Kwargs.of_parameters [("zzz", VInt 1)] true) trainer)))
    as Hc by reflexivity.
  exact (proj2 (configure_rejected_update _ _ _ _ Hc)
           (StepInterfaceError CannotSetParameterWithoutParamClass) eq_refl).
Defined.

(** The trainer, created with a parameter, and the trainer after another
    update of its parameters stay within the interface. *)
Lemma configuration_within_interface_witness :
  within_interface trainer
  /\ within_interface
       (snd (configure (Kwargs.of_parameters [("b", VInt 2)] true) trainer)).
Proof.
  assert (within_interface trainer) as Hw.
  { apply (proj1 configuration_within_interface trainer_class []
             (Kwargs.of_parameters [("a", VInt 1)] true) [] trainer).
    reflexivity. }
  split; [exact Hw|].
  apply (proj2 configuration_within_interface
           (Kwargs.of_parameters [("b", VInt 2)] true) trainer _ Hw).
  reflexivity.
Defined.

(** [trainer(b=2)]: one parameter, no artifact. *)
Lemma parse_call_args_within_witness :
  parsed_within (entrypoint_definition trainer) ([], [], [("b", VInt 2)]).
Proof.
  apply (parse_call_args_within trainer [] [("b", ArgValue (VInt 2))]).
  - vm_compute. constructor; [simpl; intuition discriminate|].
    constructor; [simpl; tauto | constructor].
  - reflexivity.
Defined.

(** [loader()] in the active pipeline returns the one output of the
    loader and changes the active pipeline only. *)
Lemma call_effects_witness :
  (exists p, snd (__call__ 1 [] None AfterNone [] world)
             = W.with_pipeline (Some p) world)
  /\ fst (__call__ 1 [] None AfterNone [] world)
     = Ok (OutputArtifact {| invocation_id := "loader"; output_name := "output";
                             annotation_ := TClass int_class |})
  /\ exists i,
       [{| invocation_id := "loader"; output_name := "output";
           annotation_ := TClass int_class |}]
       = map (fun kv => {| invocation_id := i; output_name := fst kv;
                           annotation_ := snd kv |})
             (outputs (entrypoint_definition loader)).
Proof.
  destruct (call_effects 1 [] None AfterNone [] world
              (snd (__call__ 1 [] None AfterNone [] world))
              (fst (__call__ 1 [] None AfterNone [] world))
              empty_pipeline eq_refl)
    as (Hp & _ & Hres).
  { apply surjective_pairing. }
  split; [exact Hp|]. split; [vm_compute; reflexivity|].
  destruct (Hres (OutputArtifact
                    {| invocation_id := "loader"; output_name := "output";
                       annotation_ := TClass int_class |}))
    as (i & Hi).
  - vm_compute. reflexivity.
  - exists i. exact Hi.
Defined.

(** The invocation that owns an input artifact is upstream, also when
    [after] is a sequence. *)
Lemma call_upstream_steps_owners_witness :
  "loader" ∈ call_upstream_steps
               [("a", {| invocation_id := "loader"; output_name := "output";
                         annotation_ := TClass int_class |})]
               (AfterSequence ["reporter"]).
Proof.
  apply (proj1 (call_upstream_steps_owners
                  [("a", {| invocation_id := "loader"; output_name := "output";
                            annotation_ := TClass int_class |})]
                  (AfterSequence ["reporter"]))
           "a" {| invocation_id := "loader"; output_name := "output";
                  annotation_ := TClass int_class |}).
  reflexivity.
Defined.

(** The finalized parameters of the trainer hold [a], which is
    configured, and not [b]. *)
Lemma finalize_parameters_keys_witness :
  In "a" (Dict.keys [("a", VInt 1)])
  /\ ~ exists p, params (entrypoint_definition trainer) = Some p /\ "b" = param_name p.
Proof.
  assert (_finalize_parameters trainer = Ok [("a", VInt 1)]) as Hf by reflexivity.
  pose proof (finalize_parameters_keys trainer [("a", VInt 1)] Hf) as Hkeys.
  split.
  - apply (Hkeys "a"). left. split; [left; reflexivity | left; reflexivity].
  - intros (p & Hp & _). discriminate Hp.
Defined.

(** The legacy step created without a parameters object misses [lr]. *)
Lemma finalize_legacy_parameters_missing_witness :
  _finalize_legacy_parameters legacy
  = Raise (MissingStepParameterError "legacy" ["lr"]).
Proof.
  assert (params (entrypoint_definition legacy)
          = Some (input_param "params" (TClass trainer_parameters_class))) as Hp
    by reflexivity.
  pose proof (finalize_legacy_parameters_missing legacy
                (input_param "params" (TClass trainer_parameters_class))
                trainer_parameters_class Hp eq_refl I) as Hm.
  exact Hm.
Defined.

(** Overriding the parameters of the loader with an explicit
    materializer keeps its caching parameters. *)
Lemma configure_keeps_caching_parameters_witness :
  caching_parameters (snd (configure (Kwargs.of_parameters [] false) explicit_loader))
  = caching_parameters explicit_loader.
Proof.
  apply (configure_keeps_caching_parameters (Kwargs.of_parameters [] false)
           explicit_loader _ (fst (configure (Kwargs.of_parameters [] false)
                                     explicit_loader))).
  - reflexivity.
  - apply surjective_pairing.
Defined.

(** An upload to a location that exists is refused and leaves the
    stores and the artifact as they were. *)
Lemma refused_upload_writes_nothing_witness :
  fst (do_something 0 occupied_world) = Raise (RuntimeError ArtifactUriExists)
  /\ nothing_written occupied_world (snd (do_something 0 occupied_world)).
Proof.
  assert (upload_location occupied_world ∈ files occupied_world) as Hex
    by (vm_compute; set_solver).
  destruct (proj2 (refused_upload_writes_nothing 0 occupied_world
                     (snd (do_something 0 occupied_world))
                     (fst (do_something 0 occupied_world))
                     eq_refl (surjective_pairing _))
              builtin_materializer eq_refl Hex)
    as (Hr & _ & Hw).
  split; [exact Hr | exact Hw].
Defined.

(** The artifact that refers to the record 5 does not resolve in a store
    without that record, and nothing is written. *)
Lemma referenced_artifact_never_uploaded_witness :
  do_something 1 referencing_world
  = (Raise (KeyError "5"),
     W.with_services ∅ ∅ 1 [GetArtifact 5] referencing_world).
Proof.
  destruct (referenced_artifact_never_uploaded 1 referencing_world 5 eq_refl)
    as (r & Hd & _ & _ & Hnone & _).
  rewrite Hd, (Hnone eq_refl). reflexivity.
Defined.

(** The upload of the raw artifact stores a record of the active
    artifact store under the identifier 2. *)
Lemma upload_stores_record_witness :
  exists record,
    zen_store (snd (do_something 0 world)) = <[2 := record]> (zen_store world)
    /\ artifact_store_id record = 100
    /\ artifact_user record = 101.
Proof.
  assert (do_something 0 world = (Ok 2, snd (do_something 0 world))) as Hd
    by (vm_compute; reflexivity).
  destruct (upload_stores_record 0 world _ 2 eq_refl Hd)
    as (record & mc & Hz & _ & _ & _ & _ & Hs & Hu & _).
  exists record. split; [exact Hz|]. split; [exact Hs | exact Hu].
Defined.

(** The raw artifact given under two keys is uploaded once, and both
    keys get its identifier. *)
Lemma upload_external_artifacts_resolved_witness :
  exists i,
    Dict.get "b" [("a", 2); ("b", 2)] = Some i
    /\ _id (artifact_objects
              (snd (upload_external_artifacts [("a", 0); ("b", 0)] [] world)) 0)
       = Some i.
Proof.
  assert (upload_external_artifacts [("a", 0); ("b", 0)] [] world
          = (Ok [("a", 2); ("b", 2)],
             snd (upload_external_artifacts [("a", 0); ("b", 0)] [] world))) as Hu
    by (vm_compute; reflexivity).
  assert (List.NoDup (Dict.keys [("a", 0); ("b", 0)])) as Hnd.
  { constructor; [simpl; intuition discriminate|].
    constructor; [simpl; tauto | constructor]. }
  destruct (upload_external_artifacts_resolved _ _ _ _ Hnd Hu) as (_ & Hin & _).
  destruct (Hin "b" 0) as (i & Hget & Hid & _); [simpl; auto|].
  exists i. split; [exact Hget | exact Hid].
Defined.

(** Finalizing the invocation with the external artifacts leaves the
    loader as it was and the trainer with the configuration returned. *)
Lemma finalize_effects_witness :
  step_objects (snd (finalize external_invocation built_pipeline built_world)) 1
  = loader
  /\ Ok (configuration
           (step_objects
              (snd (finalize external_invocation built_pipeline built_world)) 0))
     = fst (finalize external_invocation built_pipeline built_world).
Proof.
  destruct (finalize external_invocation built_pipeline built_world)
    as [[cfg|e] w'] eqn:Hf; [|vm_compute in Hf; discriminate].
  destruct (finalize_effects _ _ _ _ _ Hf) as (_ & Hother & _ & Hcfg).
  split.
  - cbn [snd]. rewrite (Hother 1) by discriminate. vm_compute. reflexivity.
  - cbn [fst snd]. destruct (Hcfg cfg eq_refl) as (Hc & _).
    simpl in Hc. now rewrite Hc.
Defined.

(** The explicit materializer of the loader is not replaced; a step that
    returns [Any] without one does not finalize. *)
Lemma resolve_outputs_explicit_or_registered_witness :
  Dict.get "output" ([] : Dict.t Config.PartialArtifactConfiguration) = None
  /\ exists e, _finalize_configuration [] [] opaque = (Raise e, opaque).
Proof.
  split.
  - assert (List.NoDup (Dict.keys (outputs (entrypoint_definition explicit_loader))))
      as Hnd by (vm_compute; constructor; [simpl; tauto | constructor]).
    assert (resolve_outputs explicit_loader = Ok []) as Ho by reflexivity.
    assert (In ("output", TClass int_class)
               (outputs (entrypoint_definition explicit_loader))) as Hin
      by (left; reflexivity).
    exact (proj1 (resolve_outputs_explicit_or_registered explicit_loader)
             [] Hnd Ho "output" (TClass int_class) Hin).
  - apply (proj2 (resolve_outputs_explicit_or_registered opaque) "output" [] []).
    + left. reflexivity.
    + reflexivity.
Defined.

(** The trainer has no ordering hints: the hints resolve to nothing,
    also in a pipeline that invokes the loader twice. *)
Lemma hinted_upstream_sound_witness :
  _get_and_validate_step_upstream_steps trainer_invocation built_pipeline trainer
  = Ok ∅.
Proof.
  apply (proj1 (hinted_upstream_sound trainer_invocation built_pipeline trainer)).
  reflexivity.
Defined.
End MoreConcrete.
